(** * AC Brotherhood save editor: container parser, cape patch, compact decoder

    A shallow embedding of [cape_unlocker.py] and [compact_format_parser.py].

    Conventions of the embedding:
    - a Python [bytes]/[bytearray] value is a [list Z] whose elements are the
      byte values (0..255); Python integers are unbounded, hence [Z];
    - an exception is a value of [exn] carried by [result];
    - every index and slice bound computed by the two programs is a sum of
      non-negative quantities, so Python's negative-index convention is never
      exercised; [slice] and [index] are written for non-negative bounds;
    - the LZSS codec, the Adler-32 checksum and the two header builders live in
      other modules of the repository ([lzss_decompressor_final],
      [lzss_compressor_final], [sav_serializer]); they are section variables. *)

From Stdlib Require Import String Ascii.
From Stdlib Require Import ZArith List Bool Lia Sorted.
Import ListNotations.
Open Scope Z_scope.

(** ** Exceptions *)

Inductive exn : Type :=
| IndexError                      (* sequence index out of range *)
| StructError                     (* struct.error: wrong buffer size / value out of range *)
| ValueError (found : nat)        (* "Could not parse Block 3 headers, found {found} regions" *)
| CorruptStream                   (* raised by the external decompressor *)
| FileNotFoundError.

Inductive result (A : Type) : Type :=
| Ok (a : A)
| Raise (e : exn).
Arguments Ok {A} a.
Arguments Raise {A} e.

Definition bind {A B : Type} (c : result A) (k : A -> result B) : result B :=
  match c with
  | Ok a => k a
  | Raise e => Raise e
  end.

Notation "x <- c ;; k" := (bind c (fun x => k))
  (at level 61, c at next level, right associativity).

(** ** Byte strings *)

Definition bytes := list Z.

Definition len (b : bytes) : Z := Z.of_nat (length b).

(** [data[lo:hi]] for non-negative bounds: clamps at the end of the buffer and
    is empty when [hi <= lo]. *)
Definition slice (b : bytes) (lo hi : Z) : bytes :=
  firstn (Z.to_nat (hi - lo)) (skipn (Z.to_nat lo) b).

(** [data[lo:]] *)
Definition slice_from (b : bytes) (lo : Z) : bytes := skipn (Z.to_nat lo) b.

(** [data[i]] where the program has already established [0 <= i < len(data)]. *)
Definition byte_at (b : bytes) (i : Z) : Z := nth (Z.to_nat i) b 0.

(** [data[i]], raising [IndexError] out of range. *)
Definition index (b : bytes) (i : Z) : result Z :=
  if (0 <=? i) && (i <? len b) then Ok (byte_at b i) else Raise IndexError.

(** [data[i] = v] on a bytearray. *)
Definition set_index (b : bytes) (i v : Z) : result bytes :=
  if (0 <=? i) && (i <? len b)
  then Ok (firstn (Z.to_nat i) b ++ v :: skipn (Z.to_nat (i + 1)) b)
  else Raise IndexError.

(** [data[lo:hi] = v] on a bytearray (slice assignment, non-negative bounds):
    the bounds are clamped to the buffer, and [hi] is raised to [lo] when
    smaller. *)
Definition set_slice (b : bytes) (lo hi : Z) (v : bytes) : bytes :=
  firstn (Z.to_nat lo) b ++ v ++ skipn (Z.to_nat (Z.max lo hi)) b.

Fixpoint bytes_eqb (a b : bytes) : bool :=
  match a, b with
  | [], [] => true
  | x :: a', y :: b' => (x =? y) && bytes_eqb a' b'
  | _, _ => false
  end.

(** Value of a little-endian unsigned integer. *)
Fixpoint le_uint (bs : bytes) : Z :=
  match bs with
  | [] => 0
  | b :: bs' => b + 256 * le_uint bs'
  end.

(** [struct.unpack('<I', bs)[0]]: exactly four bytes are required. *)
Definition unpack_I (bs : bytes) : result Z :=
  if (length bs =? 4)%nat then Ok (le_uint bs) else Raise StructError.

(** [struct.unpack('<H', bs)[0]]: exactly two bytes are required. *)
Definition unpack_H (bs : bytes) : result Z :=
  if (length bs =? 2)%nat then Ok (le_uint bs) else Raise StructError.

(** [struct.pack('<I', n)]: the argument must fit 32 unsigned bits. *)
Definition pack_I (n : Z) : result bytes :=
  if (0 <=? n) && (n <? 4294967296)
  then Ok [n mod 256; (n / 256) mod 256; (n / 65536) mod 256; (n / 16777216) mod 256]
  else Raise StructError.

(** ** cape_unlocker.py *)

Module CapeUnlocker.

Definition CAPE1_OFFSET : Z := 0x50E0.
Definition CAPE2_OFFSET : Z := 0x50F2.

(** The test of lines 55-56: [data[search_pos] == 0x01 and
    data[search_pos+4:search_pos+8] == b'\x00\x00\x80\x00']. *)
Definition region_signature (data : bytes) (search_pos : Z) : bool :=
  (byte_at data search_pos =? 0x01)
  && bytes_eqb (slice data (search_pos + 4) (search_pos + 8)) [0x00; 0x00; 0x80; 0x00].

(** Line 57: [struct.unpack('<I', data[search_pos+1:search_pos+4] + b'\x00')[0]].
    Under the loop guard [search_pos < total_size - 8] the slice has three
    bytes, so the unpack cannot raise (lemma [region_size_slice_length]). *)
Definition region_size_at (data : bytes) (search_pos : Z) : Z :=
  le_uint (slice data (search_pos + 1) (search_pos + 4) ++ [0x00]).

(** The inner [while] loop of lines 54-63, started at [search_pos].  Returns
    the region appended to [block3_regions] (if the loop was left by [break])
    and the value of [search_pos] when the loop is left.  [fuel] bounds the
    number of iterations; [length data] always suffices
    (lemma [find_region_fuel]). *)
Fixpoint find_region (fuel : nat) (data : bytes) (search_pos : Z)
  : option (Z * Z) * Z :=
  match fuel with
  | O => (None, search_pos)
  | S fuel' =>
      if search_pos <? len data - 8 then
        if region_signature data search_pos then
          let region_size := region_size_at data search_pos in
          if (0 <? region_size) && (region_size <? 50000) then
            (Some (search_pos, region_size), search_pos + 8 + region_size + 5)
          else find_region fuel' data (search_pos + 1)
        else find_region fuel' data (search_pos + 1)
      else (None, search_pos)
  end.

(** The [for region_num in range(n)] loop of lines 53-63: the list
    [block3_regions] and the final [search_pos]. *)
Fixpoint scan_loop (n : nat) (data : bytes) (search_pos : Z)
  : list (Z * Z) * Z :=
  match n with
  | O => ([], search_pos)
  | S n' =>
      let '(found, search_pos') := find_region (length data) data search_pos in
      let '(regions, final_pos) := scan_loop n' data search_pos' in
      (match found with
       | Some r => r :: regions
       | None => regions
       end, final_pos)
  end.

Definition scan_regions (data : bytes) (block3_offset : Z) : list (Z * Z) :=
  fst (scan_loop 4 data block3_offset).

(** Lines 37-48: the two fixed-offset headers; the result is
    [(block1_compressed_size, block2_compressed_size)]. *)
Definition read_block_sizes (data : bytes) : result (Z * Z) :=
  block1_compressed_size <- unpack_I (slice data 0x20 0x24) ;;
  let block2_header_offset := 0x2C + block1_compressed_size in
  block2_compressed_size <-
    unpack_I (slice data (block2_header_offset + 0x20) (block2_header_offset + 0x24)) ;;
  Ok (block1_compressed_size, block2_compressed_size).

(** The dict returned by [parse_sav_blocks]. *)
Record sav_blocks : Type := {
  block1_compressed : bytes;
  block2_compressed : bytes;
  block3_raw : bytes;
  block4_compressed : bytes;
  block5_raw : bytes;
  region4_offset_in_block3 : Z
}.

Definition parse_sav_blocks (data : bytes) : result sav_blocks :=
  sizes <- read_block_sizes data ;;
  let '(block1_compressed_size, block2_compressed_size) := sizes in
  let block1_compressed := slice data 0x2C (0x2C + block1_compressed_size) in
  let block2_header_offset := 0x2C + block1_compressed_size in
  let block2_data_offset := block2_header_offset + 44 in
  let block2_compressed :=
    slice data block2_data_offset (block2_data_offset + block2_compressed_size) in
  let block3_offset := block2_data_offset + block2_compressed_size in
  let block3_regions := scan_regions data block3_offset in
  if (4 <=? length block3_regions)%nat then
    let '(region4_offset, block4_compressed_size) := nth 3 block3_regions (0, 0) in
    let block3_end := region4_offset + 8 + 5 in
    let block3_size := block3_end - block3_offset in
    let block3_raw := slice data block3_offset (block3_offset + block3_size) in
    let region4_offset_in_block3 := region4_offset - block3_offset in
    let block4_offset := block3_offset + block3_size in
    let block4_compressed :=
      slice data block4_offset (block4_offset + block4_compressed_size) in
    let block5_offset := block4_offset + block4_compressed_size in
    let block5_raw := slice_from data block5_offset in
    Ok {| block1_compressed := block1_compressed;
          block2_compressed := block2_compressed;
          block3_raw := block3_raw;
          block4_compressed := block4_compressed;
          block5_raw := block5_raw;
          region4_offset_in_block3 := region4_offset_in_block3 |}
  else Raise (ValueError (length block3_regions)).

(** Offset at which Block 3 starts (line 48), when both size fields can be
    read. *)
Definition block3_offset_of (data : bytes) : result Z :=
  sizes <- read_block_sizes data ;;
  Ok (0x2C + fst sizes + 44 + snd sizes).

(** *** unlock_capes

    The codec, the checksum and the header builders are imported from other
    modules of the repository.  [compress_lzss_lazy] returns a triple whose
    first component only is used; it is that component here.  Output on
    [stdout] is not modelled. *)

Section Patch.

Variable decompress : bytes -> result bytes.
Variable compress_lzss_lazy : bytes -> bytes.
Variable adler32 : bytes -> Z.
Variable build_block1_header : bytes -> Z -> bytes.
Variable build_block2_header : bytes -> Z -> Z -> bytes.

(** Lines 160-179: the size field (3 bytes at [region4_offset + 1]) and the
    checksum field (4 bytes at [region4_offset + 9]) of region 4 are rewritten
    when their value changes. *)
Definition patch_region4 (block3_raw : bytes) (region4_offset : Z)
    (block4_recompressed : bytes) : result bytes :=
  old_size <-
    unpack_I (slice block3_raw (region4_offset + 1) (region4_offset + 4) ++ [0x00]) ;;
  let new_size := len block4_recompressed in
  block3_raw <-
    (if negb (old_size =? new_size) then
       packed <- pack_I new_size ;;
       let size_bytes := firstn 3 packed in
       Ok (set_slice block3_raw (region4_offset + 1) (region4_offset + 4) size_bytes)
     else Ok block3_raw) ;;
  old_checksum <- unpack_I (slice block3_raw (region4_offset + 9) (region4_offset + 13)) ;;
  let new_checksum := adler32 block4_recompressed in
  if negb (old_checksum =? new_checksum) then
    packed <- pack_I new_checksum ;;
    Ok (set_slice block3_raw (region4_offset + 9) (region4_offset + 13) packed)
  else Ok block3_raw.

(** Lines 181-187. *)
Definition remaining_after_block2_header
    (block2_recompressed block3_raw block4_recompressed block5_raw : bytes) : Z :=
  44 + len block2_recompressed
  + len block3_raw
  + len block4_recompressed
  + len block5_raw.

(** The seven pieces extended onto [output] (lines 194-202), in order. *)
Record sav_output : Type := {
  out_block1_header : bytes;
  out_block1 : bytes;
  out_block2_header : bytes;
  out_block2 : bytes;
  out_block3 : bytes;
  out_block4 : bytes;
  out_block5 : bytes
}.

Definition assemble (o : sav_output) : bytes :=
  out_block1_header o ++ out_block1 o ++ out_block2_header o ++ out_block2 o
  ++ out_block3 o ++ out_block4 o ++ out_block5 o.

(** Lines 108-202 of [unlock_capes], from the bytes read to the bytes to be
    written: [None] is the early [return True] of line 144 ("Both capes
    already unlocked!"), taken before any recompression and before any
    write. *)
Definition rebuild_sav (sav_data : bytes) : result (option sav_output) :=
  blocks <- parse_sav_blocks sav_data ;;
  let block1_compressed := block1_compressed blocks in
  let block2_compressed := block2_compressed blocks in
  let block3_raw := block3_raw blocks in
  let block4_compressed := block4_compressed blocks in
  let block5_raw := block5_raw blocks in
  let region4_offset := region4_offset_in_block3 blocks in
  block1_decompressed <- decompress block1_compressed ;;
  block2_decompressed <- decompress block2_compressed ;;
  block4_decompressed <- decompress block4_compressed ;;
  let block4_data := block4_decompressed in
  cape1_current <- index block4_data CAPE1_OFFSET ;;
  cape2_current <- index block4_data CAPE2_OFFSET ;;
  if (cape1_current =? 0x01) && (cape2_current =? 0x01) then Ok None
  else
    block4_data <- set_index block4_data CAPE1_OFFSET 0x01 ;;
    block4_data <- set_index block4_data CAPE2_OFFSET 0x01 ;;
    let block1_recompressed := compress_lzss_lazy block1_decompressed in
    let block2_recompressed := compress_lzss_lazy block2_decompressed in
    let block4_recompressed := compress_lzss_lazy block4_data in
    block3_raw <- patch_region4 block3_raw region4_offset block4_recompressed ;;
    let remaining :=
      remaining_after_block2_header
        block2_recompressed block3_raw block4_recompressed block5_raw in
    let block1_header :=
      build_block1_header block1_recompressed (len block1_decompressed) in
    let block2_header :=
      build_block2_header block2_recompressed (len block2_decompressed) remaining in
    Ok (Some {| out_block1_header := block1_header;
                out_block1 := block1_recompressed;
                out_block2_header := block2_header;
                out_block2 := block2_recompressed;
                out_block3 := block3_raw;
                out_block4 := block4_recompressed;
                out_block5 := block5_raw |}).

(** Files by path. *)
Definition filesystem := string -> option bytes.

Definition read_file (fs : filesystem) (path : string) : result bytes :=
  match fs path with
  | Some content => Ok content
  | None => Raise FileNotFoundError
  end.

Definition write_file (fs : filesystem) (path : string) (content : bytes)
  : filesystem :=
  fun p => if String.eqb p path then Some content else fs p.

(** [unlock_capes(sav_path, output_path)]: the value returned and the file
    system left behind. *)
Definition unlock_capes (fs : filesystem) (sav_path output_path : string)
  : result (bool * filesystem) :=
  sav_data <- read_file fs sav_path ;;
  rebuilt <- rebuild_sav sav_data ;;
  match rebuilt with
  | None => Ok (true, fs)
  | Some o => Ok (true, write_file fs output_path (assemble o))
  end.

End Patch.

End CapeUnlocker.

(** ** compact_format_parser.py *)

Module CompactFormat.

Local Open Scope string_scope.
Local Open Scope Z_scope.

Inductive PrefixType : Type :=
| TABLE_REF | VARINT | FIXED32 | VALUE_15 | VALUE_12 | EXTENDED_1C | ARRAY_ELEM
| TYPE_REF_10 | PREFIX_1809 | PREFIX_1907 | PREFIX_16E1 | PREFIX_0C18 | UNKNOWN.

(** Table ID to (type hash, type name). *)
Definition TABLE_ID_TO_TYPE : list (Z * (Z * string)) := [
  (0x00, (0x87BFB8DB, "CompactType_00")); (0x01, (0x5B0885B7, "CompactType_01"));
  (0x02, (0x95DE1A76, "CompactType_02")); (0x03, (0x6EC3C146, "CompactType_03"));
  (0x04, (0x1039317E, "CompactType_04")); (0x05, (0x0B1CA4FF, "CompactType_05"));
  (0x06, (0x08999B6B, "CompactType_06")); (0x07, (0xE45C13C1, "CompactType_07"));
  (0x08, (0xC9A5839D, "CompactType_08")); (0x09, (0x723C7DFD, "CompactType_09"));
  (0x0A, (0xC438CAAA, "CompactType_0A")); (0x0B, (0x82A2AEE0, "CompactType_0B"));
  (0x0C, (0x885FD270, "CompactType_0C")); (0x0D, (0x9ED73EC7, "CompactType_0D"));
  (0x0E, (0xB01D2FBC, "CompactType_0E")); (0x0F, (0x635ED6FD, "CompactType_0F"));
  (0x10, (0x21389788, "CompactType_10")); (0x11, (0x7C0A22D2, "CompactType_11"));
  (0x12, (0x5E9D4672, "CompactType_12")); (0x13, (0x9464A1DF, "CompactType_13"));
  (0x14, (0xCE77DEA9, "CompactType_14")); (0x15, (0xF34AE634, "CompactType_15"));
  (0x16, (0x0AFD89DC, "PlayerOptionsElement")); (0x17, (0x6FEB4D3E, "CompactType_17"));
  (0x18, (0x1BD6AF74, "CompactType_18")); (0x19, (0x7EC06B96, "CompactType_19"));
  (0x1A, (0xFE52CE42, "CompactType_1A")); (0x1B, (0x1EAE1A27, "CompactType_1B"));
  (0x1C, (0xEEFD3C62, "CompactType_1C")); (0x1D, (0x8178B0FC, "CompactType_1D"));
  (0x1E, (0x35A73BF9, "CompactType_1E")); (0x1F, (0xD17B9E84, "CompactType_1F"));
  (0x20, (0x1B2159BE, "CompactType_20")); (0x21, (0xC30FCF3C, "CompactType_21"));
  (0x22, (0xB2AC9ECF, "CompactType_22")); (0x23, (0xEEA84BEB, "CompactType_23"));
  (0x24, (0xA387B867, "CompactType_24")); (0x25, (0x07F84685, "CompactType_25"));
  (0x26, (0x04B26A6F, "CompactType_26")); (0x27, (0x649B330F, "CompactType_27"));
  (0x28, (0xB17CA151, "CompactType_28")); (0x29, (0xFDDE216B, "CompactType_29"));
  (0x2A, (0x2EF0DC94, "CompactType_2A")); (0x2B, (0x0A0EF2AB, "CompactType_2B"));
  (0x2C, (0x0DF38019, "CompactType_2C")); (0x2D, (0xB3423CBF, "CompactType_2D"));
  (0x2E, (0x79985A47, "CompactType_2E")); (0x2F, (0xBE427635, "CompactType_2F"));
  (0x30, (0x969057FD, "CompactType_30")); (0x31, (0xC31A6D47, "CompactType_31"));
  (0x32, (0x0DC752FA, "CompactType_32")); (0x33, (0xF04DFE62, "CompactType_33"));
  (0x34, (0xC38E48D7, "CompactType_34")); (0x35, (0xEAAC8DA8, "CompactType_35"));
  (0x36, (0x33D71609, "CompactType_36")); (0x37, (0x5949EFD9, "CompactType_37"));
  (0x38, (0xFA1AA549, "CompactType_38")); (0x39, (0x8FC5A10C, "CompactType_39"));
  (0x3A, (0x3C4C3BD2, "CompactType_3A")); (0x3B, (0xFC6EDE2A, "CompactType_3B"));
  (0x3C, (0xF5718FB1, "CompactType_3C")); (0x3D, (0xE051FC8F, "CompactType_3D"));
  (0x3E, (0x83BA68A2, "CompactType_3E")); (0x3F, (0x6D2E5F10, "CompactType_3F"));
  (0x40, (0x762B59C4, "CompactType_40")); (0x41, (0x252E9992, "CompactType_41"));
  (0x42, (0xB507DD42, "CompactType_42")); (0x43, (0xE27BFE05, "CompactType_43"));
  (0x44, (0x4DAC6313, "CompactType_44")); (0x45, (0xAF9F222E, "CompactType_45"));
  (0x46, (0xE4181084, "CompactType_46")); (0x47, (0x289AD354, "CompactType_47"));
  (0x48, (0x8D474522, "CompactType_48")); (0x49, (0x144E1498, "CompactType_49"));
  (0x4A, (0x6349240E, "CompactType_4A")); (0x4B, (0xFD2DB1AD, "CompactType_4B"));
  (0x4C, (0x8A2A813B, "CompactType_4C")); (0x4D, (0x1323D081, "CompactType_4D"));
  (0x4E, (0x6424E017, "CompactType_4E")); (0x4F, (0xF49BFD86, "CompactType_4F"));
  (0x50, (0x839CCD10, "CompactType_50")); (0x51, (0xE35B44F5, "CompactType_51"));
  (0x52, (0x945C7463, "CompactType_52")); (0x53, (0x0D5525D9, "CompactType_53"));
  (0x54, (0x7A52154F, "CompactType_54")); (0x55, (0xE43680EC, "CompactType_55"));
  (0x56, (0x9331B07A, "CompactType_56")); (0x57, (0x0A38E1C0, "CompactType_57"));
  (0x58, (0x7D3FD156, "CompactType_58")); (0x59, (0xED80CCC7, "CompactType_59"));
  (0x5A, (0x9A87FC51, "CompactType_5A")); (0x5B, (0xC8761736, "CompactType_5B"));
  (0x5C, (0xE3E58C35, "CompactType_5C")); (0x5D, (0x7AECDD8F, "CompactType_5D"));
  (0x5E, (0x0DEBED19, "CompactType_5E")); (0x5F, (0x938F78BA, "CompactType_5F"));
  (0x60, (0xE488482C, "CompactType_60")); (0x61, (0xE2A997E4, "CompactType_61"));
  (0x62, (0x7BA0C65E, "CompactType_62")); (0x63, (0x0CA7F6C8, "CompactType_63"));
  (0x64, (0x92C3636B, "CompactType_64")); (0x65, (0xE5C453FD, "CompactType_65"));
  (0x66, (0x06337DCC, "CompactType_66")); (0x67, (0x78A90B6B, "CompactType_67"));
  (0x95, (0x00000000, "Unknown_95")); (0xDB, (0x00000000, "Unknown_DB"));
  (0xE1, (0x00000000, "Unknown_E1")); (0xFB, (0x00000000, "Unknown_FB"))
].

Fixpoint table_lookup (table : list (Z * (Z * string))) (table_id : Z)
  : option (Z * string) :=
  match table with
  | [] => None
  | (k, v) :: table' => if k =? table_id then Some v else table_lookup table' table_id
  end.

Definition MARKER_TRUE : Z := 0x6D.
Definition MARKER_FALSE : Z := 0xDB.
Definition MARKER_CD : Z := 0xCD.

Record CompactHeader : Type := {
  version : Z;
  data_size : Z;
  flags : Z;
  header_raw_bytes : bytes
}.

Record TableRef : Type := {
  tr_offset : Z;
  table_id : Z;
  property_id : Z;
  type_hash : option Z;
  type_name : option string
}.

(** The dataclass constructor followed by [__post_init__]. *)
Definition new_TableRef (offset table_id property_id : Z) : TableRef :=
  match table_lookup TABLE_ID_TO_TYPE table_id with
  | Some (h, n) =>
      {| tr_offset := offset; table_id := table_id; property_id := property_id;
         type_hash := Some h; type_name := Some n |}
  | None =>
      {| tr_offset := offset; table_id := table_id; property_id := property_id;
         type_hash := None; type_name := None |}
  end.

(** A field typed [Any] that holds [None], an integer or a byte string. *)
Inductive pyvalue : Type :=
| PyNone
| PyInt (n : Z)
| PyBytes (b : bytes).

Record ExtendedValue : Type := {
  ev_offset : Z;
  subtype : Z;
  ev_value : pyvalue;
  ev_raw_bytes : bytes
}.

Record ArrayElement : Type := {
  ae_offset : Z;
  element_type : Z;
  ae_value : pyvalue;
  ae_raw_bytes : bytes
}.

Record FixedValue : Type := {
  fv_offset : Z;
  fv_prefix : Z;
  fv_value : Z;
  fv_raw_bytes : bytes
}.

(** The [data] field of [ParsedEntry], one constructor per shape stored. *)
Inductive entry_data : Type :=
| DataTableRef (ref : TableRef)
| DataExtended (ext : ExtendedValue)
| DataArray (elem : ArrayElement)
| DataFixed (fv : FixedValue)
| DataVarint (value : Z) (raw : bytes)          (* {'value': .., 'raw': ..} *)
| DataTypeRef (table_id extra : Z)              (* {'table_id': .., 'extra': ..} *)
| DataValue (value : Z)                         (* {'value': ..} *)
| DataMarker (marker : string) (value : option Z). (* {'marker': .., 'value': ..} *)

Record ParsedEntry : Type := {
  offset : Z;
  prefix : Z;
  prefix_type : PrefixType;
  data : entry_data;
  size : Z
}.

(** [self.stats]: the counters, and the nested [markers] dict. *)
Record stats : Type := {
  table_refs : Z;
  extended_1c04 : Z;
  array_173c : Z;
  value_1500 : Z;
  value_1200 : Z;
  fixed32_0502 : Z;
  varint_1405 : Z;
  type_ref_1006 : Z;
  prefix_1809 : Z;
  prefix_1907 : Z;
  prefix_1902 : Z;
  prefix_16e1 : Z;
  unknown : Z;
  marker_6D : Z;
  marker_DB : Z;
  marker_CD : Z
}.

(** The keys of [self.stats]. *)
Inductive counter : Type :=
| K_table_refs | K_extended_1c04 | K_array_173c | K_value_1500 | K_value_1200
| K_fixed32_0502 | K_varint_1405 | K_type_ref_1006 | K_prefix_1809
| K_prefix_1907 | K_prefix_1902 | K_prefix_16e1 | K_unknown
| K_marker_6D | K_marker_DB | K_marker_CD.

(** [CompactFormatParser.__init__]. *)
Definition init_stats : stats :=
  {| table_refs := 0; extended_1c04 := 0; array_173c := 0; value_1500 := 0;
     value_1200 := 0; fixed32_0502 := 0; varint_1405 := 0; type_ref_1006 := 0;
     prefix_1809 := 0; prefix_1907 := 0; prefix_1902 := 0; prefix_16e1 := 0;
     unknown := 0; marker_6D := 0; marker_DB := 0; marker_CD := 0 |}.

(** [self.stats[k] += 1]. *)
Definition bump (k : counter) (s : stats) : stats :=
  let '(Build_stats a b c d e f g h i j l m n o p q) := s in
  match k with
  | K_table_refs => Build_stats (a + 1) b c d e f g h i j l m n o p q
  | K_extended_1c04 => Build_stats a (b + 1) c d e f g h i j l m n o p q
  | K_array_173c => Build_stats a b (c + 1) d e f g h i j l m n o p q
  | K_value_1500 => Build_stats a b c (d + 1) e f g h i j l m n o p q
  | K_value_1200 => Build_stats a b c d (e + 1) f g h i j l m n o p q
  | K_fixed32_0502 => Build_stats a b c d e (f + 1) g h i j l m n o p q
  | K_varint_1405 => Build_stats a b c d e f (g + 1) h i j l m n o p q
  | K_type_ref_1006 => Build_stats a b c d e f g (h + 1) i j l m n o p q
  | K_prefix_1809 => Build_stats a b c d e f g h (i + 1) j l m n o p q
  | K_prefix_1907 => Build_stats a b c d e f g h i (j + 1) l m n o p q
  | K_prefix_1902 => Build_stats a b c d e f g h i j (l + 1) m n o p q
  | K_prefix_16e1 => Build_stats a b c d e f g h i j l (m + 1) n o p q
  | K_unknown => Build_stats a b c d e f g h i j l m (n + 1) o p q
  | K_marker_6D => Build_stats a b c d e f g h i j l m n (o + 1) p q
  | K_marker_DB => Build_stats a b c d e f g h i j l m n o (p + 1) q
  | K_marker_CD => Build_stats a b c d e f g h i j l m n o p (q + 1)
  end.

(** [CompactHeader.parse(data, offset)]. *)
Definition CompactHeader_parse (data : bytes) (offset : Z) : result CompactHeader :=
  let raw := slice data offset (offset + 8) in
  version <- index raw 0 ;;
  r1 <- index raw 1 ;;
  r2 <- index raw 2 ;;
  r3 <- index raw 3 ;;
  let data_size := Z.lor (Z.lor r1 (Z.shiftl r2 8)) (Z.shiftl r3 16) in
  flags <- unpack_I (slice raw 4 8) ;;
  Ok {| version := version; data_size := data_size; flags := flags;
        header_raw_bytes := raw |}.

(** [range(lo, hi)]. *)
Definition range (lo hi : Z) : list Z :=
  map (fun k => lo + Z.of_nat k) (seq 0 (Z.to_nat (hi - lo))).

Definition _find_first_table_ref (data : bytes) : Z :=
  match find (fun i => (byte_at data i =? 0x08) && (byte_at data (i + 1) =? 0x03))
             (range 8 (len data - 1)) with
  | Some i => i
  | None => 8
  end.

(** The loop of [_read_varint]; [fuel] bounds the iterations and
    [length data] suffices, one byte being consumed per iteration. *)
Fixpoint read_varint_loop (fuel : nat) (data : bytes) (pos result shift consumed : Z)
  : Z * Z :=
  match fuel with
  | O => (result, consumed)
  | S fuel' =>
      if pos + consumed <? len data then
        let b := byte_at data (pos + consumed) in
        let result := Z.lor result (Z.shiftl (Z.land b 0x7F) shift) in
        let consumed := consumed + 1 in
        if Z.land b 0x80 =? 0 then (result, consumed)
        else
          let shift := shift + 7 in
          if consumed >? 5 then (result, consumed)
          else read_varint_loop fuel' data pos result shift consumed
      else (result, consumed)
  end.

Definition _read_varint (data : bytes) (pos : Z) : Z * Z :=
  read_varint_loop (length data) data pos 0 0 0.

(** What a [_parse_*] method yields: the pair it returns and the counters it
    leaves in [self.stats]; [verbose] printing is not modelled. *)
Definition parsed : Type := result (option ParsedEntry * Z * stats).

Definition _parse_table_ref (data : bytes) (pos : Z) (st : stats) : parsed :=
  if pos + 4 >? len data then Ok (None, 0, st)
  else
    let table_id := byte_at data (pos + 2) in
    let prop_id := byte_at data (pos + 3) in
    let ref := new_TableRef pos table_id prop_id in
    let st := bump K_table_refs st in
    Ok (Some {| offset := pos; prefix := 0x0803; prefix_type := TABLE_REF;
                data := DataTableRef ref; size := 4 |}, 4, st).

Definition is_prefix_lead (b : Z) : bool :=
  existsb (Z.eqb b) [0x08; 0x1C; 0x17; 0x15; 0x12; 0x14; 0x10; 0x18; 0x19; 0x0C].

Definition is_marker (b : Z) : bool :=
  existsb (Z.eqb b) [MARKER_TRUE; MARKER_FALSE; MARKER_CD].

(** The [while end < len(data) and end < pos + 8] loop of
    [_parse_extended_1c]; [end] starts at [pos + 3], so five iterations
    exhaust the second guard. *)
Fixpoint extended_scan (fuel : nat) (data : bytes) (pos end_ : Z) : Z :=
  match fuel with
  | O => end_
  | S fuel' =>
      if (end_ <? len data) && (end_ <? pos + 8) then
        let b := byte_at data end_ in
        if is_prefix_lead b then end_
        else if is_marker b then end_
        else extended_scan fuel' data pos (end_ + 1)
      else end_
  end.

(** The two-byte read shared by several branches: [value] and [consumed]
    keep [None] and [3] when the buffer is too short. *)
Definition read_u16_or_none (data : bytes) (pos : Z) : result (pyvalue * Z) :=
  if pos + 5 <=? len data then
    v <- unpack_H (slice data (pos + 3) (pos + 5)) ;;
    Ok (PyInt v, 5)
  else Ok (PyNone, 3).

Definition read_u8_or_none (data : bytes) (pos : Z) : result (pyvalue * Z) :=
  if pos + 4 <=? len data then Ok (PyInt (byte_at data (pos + 3)), 4)
  else Ok (PyNone, 3).

Definition _parse_extended_1c (data : bytes) (pos : Z) (st : stats) : parsed :=
  if pos + 3 >? len data then Ok (None, 0, st)
  else
    let subtype := byte_at data (pos + 2) in
    vc <-
      (if subtype =? 0x08 then read_u8_or_none data pos
       else if existsb (Z.eqb subtype) [0x0A; 0x0B] then read_u16_or_none data pos
       else if existsb (Z.eqb subtype) [0x24; 0x25; 0x21; 0x23] then
         let end_ := extended_scan 5 data pos (pos + 3) in
         Ok (PyBytes (slice data (pos + 3) end_), end_ - pos)
       else read_u16_or_none data pos) ;;
    let '(value, consumed) := vc in
    let ext := {| ev_offset := pos; subtype := subtype; ev_value := value;
                  ev_raw_bytes := slice data pos (pos + consumed) |} in
    let st := bump K_extended_1c04 st in
    Ok (Some {| offset := pos; prefix := 0x1C04; prefix_type := EXTENDED_1C;
                data := DataExtended ext; size := consumed |}, consumed, st).

Definition _parse_array_element (data : bytes) (pos : Z) (st : stats) : parsed :=
  if pos + 3 >? len data then Ok (None, 0, st)
  else
    let elem_type := byte_at data (pos + 2) in
    vc <-
      (if elem_type =? 0x00 then
         if pos + 6 <=? len data then
           v <- unpack_I (slice data (pos + 3) (pos + 7)) ;;
           Ok (PyInt v, 7)
         else Ok (PyNone, 3)
       else if elem_type =? 0x08 then read_u8_or_none data pos
       else if elem_type =? 0x1A then read_u16_or_none data pos
       else if existsb (Z.eqb elem_type) [0x0A; 0x0B; 0x0E] then
         read_u16_or_none data pos
       else read_u16_or_none data pos) ;;
    let '(value, consumed) := vc in
    let elem := {| ae_offset := pos; element_type := elem_type; ae_value := value;
                   ae_raw_bytes := slice data pos (pos + consumed) |} in
    let st := bump K_array_173c st in
    Ok (Some {| offset := pos; prefix := 0x173C; prefix_type := ARRAY_ELEM;
                data := DataArray elem; size := consumed |}, consumed, st).

Definition _parse_value_15 (data : bytes) (pos : Z) (st : stats) : parsed :=
  if pos + 6 >? len data then Ok (None, 0, st)
  else
    value <- unpack_I (slice data (pos + 2) (pos + 6)) ;;
    let fv := {| fv_offset := pos; fv_prefix := 0x1500; fv_value := value;
                 fv_raw_bytes := slice data pos (pos + 6) |} in
    let st := bump K_value_1500 st in
    Ok (Some {| offset := pos; prefix := 0x1500; prefix_type := VALUE_15;
                data := DataFixed fv; size := 6 |}, 6, st).

Definition _parse_value_12 (data : bytes) (pos : Z) (st : stats) : parsed :=
  if pos + 6 >? len data then Ok (None, 0, st)
  else
    value <- unpack_I (slice data (pos + 2) (pos + 6)) ;;
    let fv := {| fv_offset := pos; fv_prefix := 0x1200; fv_value := value;
                 fv_raw_bytes := slice data pos (pos + 6) |} in
    let st := bump K_value_1200 st in
    Ok (Some {| offset := pos; prefix := 0x1200; prefix_type := VALUE_12;
                data := DataFixed fv; size := 6 |}, 6, st).

Definition _parse_fixed32 (data : bytes) (pos : Z) (st : stats) : parsed :=
  if pos + 6 >? len data then Ok (None, 0, st)
  else
    value <- unpack_I (slice data (pos + 2) (pos + 6)) ;;
    let fv := {| fv_offset := pos; fv_prefix := 0x0502; fv_value := value;
                 fv_raw_bytes := slice data pos (pos + 6) |} in
    let st := bump K_fixed32_0502 st in
    Ok (Some {| offset := pos; prefix := 0x0502; prefix_type := FIXED32;
                data := DataFixed fv; size := 6 |}, 6, st).

Definition _parse_varint (data : bytes) (pos : Z) (st : stats) : parsed :=
  if pos + 3 >? len data then Ok (None, 0, st)
  else
    let '(value, varint_len) := _read_varint data (pos + 2) in
    let consumed := 2 + varint_len in
    let st := bump K_varint_1405 st in
    Ok (Some {| offset := pos; prefix := 0x1405; prefix_type := VARINT;
                data := DataVarint value (slice data pos (pos + consumed));
                size := consumed |}, consumed, st).

Definition _parse_type_ref (data : bytes) (pos : Z) (st : stats) : parsed :=
  if pos + 4 >? len data then Ok (None, 0, st)
  else
    let table_id := byte_at data (pos + 2) in
    let extra := if pos + 3 <? len data then byte_at data (pos + 3) else 0 in
    let st := bump K_type_ref_1006 st in
    Ok (Some {| offset := pos; prefix := 0x1006; prefix_type := TYPE_REF_10;
                data := DataTypeRef table_id extra; size := 4 |}, 4, st).

Definition _parse_prefix_1809 (data : bytes) (pos : Z) (st : stats) : parsed :=
  if pos + 4 >? len data then Ok (None, 0, st)
  else
    value <- unpack_H (slice data (pos + 2) (pos + 4)) ;;
    let st := bump K_prefix_1809 st in
    Ok (Some {| offset := pos; prefix := 0x1809; prefix_type := PREFIX_1809;
                data := DataValue value; size := 4 |}, 4, st).

Definition _parse_prefix_1907 (data : bytes) (pos : Z) (st : stats) : parsed :=
  if pos + 4 >? len data then Ok (None, 0, st)
  else
    value <- unpack_H (slice data (pos + 2) (pos + 4)) ;;
    let st := bump K_prefix_1907 st in
    Ok (Some {| offset := pos; prefix := 0x1907; prefix_type := PREFIX_1907;
                data := DataValue value; size := 4 |}, 4, st).

Definition _parse_prefix_0c18 (data : bytes) (pos : Z) (st : stats) : parsed :=
  if pos + 4 >? len data then Ok (None, 0, st)
  else
    value <- unpack_H (slice data (pos + 2) (pos + 4)) ;;
    Ok (Some {| offset := pos; prefix := 0x0C18; prefix_type := PREFIX_0C18;
                data := DataValue value; size := 4 |}, 4, st).

Definition _parse_prefix_1013 (data : bytes) (pos : Z) (st : stats) : parsed :=
  if pos + 4 >? len data then Ok (None, 0, st)
  else
    value <- unpack_H (slice data (pos + 2) (pos + 4)) ;;
    Ok (Some {| offset := pos; prefix := 0x1013; prefix_type := UNKNOWN;
                data := DataValue value; size := 4 |}, 4, st).

Definition _parse_prefix_1830 (data : bytes) (pos : Z) (st : stats) : parsed :=
  if pos + 4 >? len data then Ok (None, 0, st)
  else
    value <- unpack_H (slice data (pos + 2) (pos + 4)) ;;
    Ok (Some {| offset := pos; prefix := 0x1830; prefix_type := UNKNOWN;
                data := DataValue value; size := 4 |}, 4, st).

Definition _parse_prefix_140e (data : bytes) (pos : Z) (st : stats) : parsed :=
  if pos + 4 >? len data then Ok (None, 0, st)
  else
    value <- unpack_H (slice data (pos + 2) (pos + 4)) ;;
    Ok (Some {| offset := pos; prefix := 0x140E; prefix_type := UNKNOWN;
                data := DataValue value; size := 4 |}, 4, st).

Definition _parse_prefix_1902 (data : bytes) (pos : Z) (st : stats) : parsed :=
  if pos + 4 >? len data then Ok (None, 0, st)
  else
    value <- unpack_H (slice data (pos + 2) (pos + 4)) ;;
    let st := bump K_prefix_1902 st in
    Ok (Some {| offset := pos; prefix := 0x1902; prefix_type := UNKNOWN;
                data := DataValue value; size := 4 |}, 4, st).

Definition _parse_prefix_16e1 (data : bytes) (pos : Z) (st : stats) : parsed :=
  if pos + 4 >? len data then Ok (None, 0, st)
  else
    value <- unpack_H (slice data (pos + 2) (pos + 4)) ;;
    let st := bump K_prefix_16e1 st in
    Ok (Some {| offset := pos; prefix := 0x16E1; prefix_type := UNKNOWN;
                data := DataValue value; size := 4 |}, 4, st).

(** The sixteen two-byte prefixes tested by [_parse_entry], in its order. *)
Definition known_prefixes : list (Z * Z) :=
  [(0x08, 0x03); (0x1C, 0x04); (0x17, 0x3C); (0x15, 0x00); (0x12, 0x00);
   (0x05, 0x02); (0x14, 0x05); (0x10, 0x06); (0x18, 0x09); (0x19, 0x07);
   (0x0C, 0x18); (0x10, 0x13); (0x18, 0x30); (0x14, 0x0E); (0x19, 0x02);
   (0x16, 0xE1)].

Definition is_known_prefix (b0 b1 : Z) : bool :=
  existsb (fun p => (b0 =? fst p) && (b1 =? snd p)) known_prefixes.

Definition marker_entry (pos b : Z) (marker : string) (value : option Z)
  : ParsedEntry :=
  {| offset := pos; prefix := b; prefix_type := UNKNOWN;
     data := DataMarker marker value; size := 1 |}.

Definition _parse_entry (data : bytes) (pos : Z) (st : stats) : parsed :=
  if pos >=? len data - 1 then Ok (None, 0, st)
  else
    let b0 := byte_at data pos in
    let b1 := byte_at data (pos + 1) in
    if (b0 =? 0x08) && (b1 =? 0x03) then _parse_table_ref data pos st
    else if (b0 =? 0x1C) && (b1 =? 0x04) then _parse_extended_1c data pos st
    else if (b0 =? 0x17) && (b1 =? 0x3C) then _parse_array_element data pos st
    else if (b0 =? 0x15) && (b1 =? 0x00) then _parse_value_15 data pos st
    else if (b0 =? 0x12) && (b1 =? 0x00) then _parse_value_12 data pos st
    else if (b0 =? 0x05) && (b1 =? 0x02) then _parse_fixed32 data pos st
    else if (b0 =? 0x14) && (b1 =? 0x05) then _parse_varint data pos st
    else if (b0 =? 0x10) && (b1 =? 0x06) then _parse_type_ref data pos st
    else if (b0 =? 0x18) && (b1 =? 0x09) then _parse_prefix_1809 data pos st
    else if (b0 =? 0x19) && (b1 =? 0x07) then _parse_prefix_1907 data pos st
    else if (b0 =? 0x0C) && (b1 =? 0x18) then _parse_prefix_0c18 data pos st
    else if (b0 =? 0x10) && (b1 =? 0x13) then _parse_prefix_1013 data pos st
    else if (b0 =? 0x18) && (b1 =? 0x30) then _parse_prefix_1830 data pos st
    else if (b0 =? 0x14) && (b1 =? 0x0E) then _parse_prefix_140e data pos st
    else if (b0 =? 0x19) && (b1 =? 0x02) then _parse_prefix_1902 data pos st
    else if (b0 =? 0x16) && (b1 =? 0xE1) then _parse_prefix_16e1 data pos st
    else
      let b := byte_at data pos in
      if b =? MARKER_TRUE then
        Ok (Some (marker_entry pos b "TRUE" (Some 1)), 1, bump K_marker_6D st)
      else if b =? MARKER_FALSE then
        Ok (Some (marker_entry pos b "FALSE" (Some 0)), 1, bump K_marker_DB st)
      else if b =? MARKER_CD then
        Ok (Some (marker_entry pos b "CD" None), 1, bump K_marker_CD st)
      else Ok (None, 1, st).

(** The main [while pos < len(data) - 1] loop of [parse].  Every iteration
    advances [pos] by at least one, so [length data] iterations suffice
    (lemma [parse_loop_fuel]). *)
Fixpoint parse_loop (fuel : nat) (data : bytes) (pos : Z) (st : stats)
    (entries : list ParsedEntry) : result (list ParsedEntry * Z * stats) :=
  match fuel with
  | O => Ok (entries, pos, st)
  | S fuel' =>
      if pos <? len data - 1 then
        r <- _parse_entry data pos st ;;
        let '(entry, consumed, st) := r in
        match entry with
        | Some e => parse_loop fuel' data (pos + consumed) st (entries ++ [e])
        | None => parse_loop fuel' data (pos + 1) (bump K_unknown st) entries
        end
      else Ok (entries, pos, st)
  end.

Record CompactBlock : Type := {
  header : CompactHeader;
  preamble : bytes;
  entries : list ParsedEntry;
  raw_data : bytes;
  block_table_refs : list entry_data;
  extended_values : list entry_data;
  array_elements : list entry_data;
  fixed_values : list entry_data;
  unknown_regions : list (Z * Z * bytes)
}.

Definition prefix_type_eqb (a b : PrefixType) : bool :=
  match a, b with
  | TABLE_REF, TABLE_REF | VARINT, VARINT | FIXED32, FIXED32
  | VALUE_15, VALUE_15 | VALUE_12, VALUE_12 | EXTENDED_1C, EXTENDED_1C
  | ARRAY_ELEM, ARRAY_ELEM | TYPE_REF_10, TYPE_REF_10
  | PREFIX_1809, PREFIX_1809 | PREFIX_1907, PREFIX_1907
  | PREFIX_16E1, PREFIX_16E1 | PREFIX_0C18, PREFIX_0C18
  | UNKNOWN, UNKNOWN => true
  | _, _ => false
  end.

(** The bucket filled by the categorising loop of [parse]. *)
Definition bucket (kinds : list PrefixType) (entries : list ParsedEntry)
  : list entry_data :=
  map data (filter (fun e => existsb (prefix_type_eqb (prefix_type e)) kinds) entries).

(** [CompactFormatParser.parse(data)] on a parser whose [self.stats] is [st]:
    the block returned and the counters left in the parser. *)
Definition parse (data : bytes) (st : stats) : result (CompactBlock * stats) :=
  header <- CompactHeader_parse data 0 ;;
  let preamble_end := _find_first_table_ref data in
  let preamble := slice data 8 preamble_end in
  r <- parse_loop (length data) data preamble_end st [] ;;
  let '(entries, _, st) := r in
  Ok ({| header := header;
         preamble := preamble;
         entries := entries;
         raw_data := data;
         block_table_refs := bucket [TABLE_REF] entries;
         extended_values := bucket [EXTENDED_1C] entries;
         array_elements := bucket [ARRAY_ELEM] entries;
         fixed_values := bucket [VALUE_15; VALUE_12; FIXED32] entries;
         unknown_regions := [] |}, st).

End CompactFormat.

(** ** compact_format_parser.py: the analysis functions

    [analyze_table_refs], [analyze_extended_values] and
    [analyze_array_elements] print what they compute from a parsed block; the
    values they compute before printing are defined here.  A dict keeps its
    keys in insertion order and is an association list. *)

Module CompactAnalysis.

Import CompactFormat.

(** The idiom of lines 871-874, 901-904 and 953-956:
    [if k not in d: d[k] = []] followed by [d[k].append(x)]. *)
Fixpoint dict_append {A : Type} (d : list (Z * list A)) (k : Z) (x : A)
  : list (Z * list A) :=
  match d with
  | [] => [(k, [x])]
  | (k', xs) :: d' =>
      if k' =? k then (k', xs ++ [x]) :: d' else (k', xs) :: dict_append d' k x
  end.

(** The loop [for x in l: ...] around that idiom, from an empty dict. *)
Definition group_by {A : Type} (key : A -> Z) (l : list A) : list (Z * list A) :=
  fold_left (fun d x => dict_append d (key x) x) l [].

(** [d[k]] for a key that may be absent. *)
Fixpoint dict_get {A : Type} (d : list (Z * list A)) (k : Z) : option (list A) :=
  match d with
  | [] => None
  | (k', xs) :: d' => if k' =? k then Some xs else dict_get d' k
  end.

(** [by_table] of [analyze_table_refs] (lines 869-874). *)
Definition by_table (table_refs : list TableRef) : list (Z * list TableRef) :=
  group_by table_id table_refs.

(** [by_subtype] of [analyze_extended_values] (lines 899-904). *)
Definition by_subtype (extended_values : list ExtendedValue)
  : list (Z * list ExtendedValue) :=
  group_by subtype extended_values.

(** [by_type] of one cluster in [analyze_array_elements] (lines 951-956). *)
Definition by_type (cluster : list ArrayElement) : list (Z * list ArrayElement) :=
  group_by element_type cluster.

(** [sorted(block.array_elements, key=lambda e: e.offset)] (line 931): the
    stable sort by offset, as an insertion sort that keeps elements of equal
    offset in their order. *)
Fixpoint insert_by_offset (e : ArrayElement) (l : list ArrayElement)
  : list ArrayElement :=
  match l with
  | [] => [e]
  | x :: l' =>
      if ae_offset e <=? ae_offset x then e :: l else x :: insert_by_offset e l'
  end.

Definition sorted_by_offset (l : list ArrayElement) : list ArrayElement :=
  fold_right insert_by_offset [] l.

(** The body of the loop of lines 939-944 on the pair
    [(clusters, current_cluster)]; [current_cluster[-1]] is the last element
    of a list that is never empty. *)
Definition cluster_step (state : list (list ArrayElement) * list ArrayElement)
    (e : ArrayElement) : list (list ArrayElement) * list ArrayElement :=
  let '(clusters, current_cluster) := state in
  if ae_offset e - ae_offset (last current_cluster e) <? 100
  then (clusters, current_cluster ++ [e])
  else (clusters ++ [current_cluster], [e]).

(** Lines 935-945 on the sorted [elements]: the list [clusters] after the
    final [clusters.append(current_cluster)]. *)
Definition find_clusters (elements : list ArrayElement) : list (list ArrayElement) :=
  match elements with
  | [] => []
  | first :: rest =>
      let '(clusters, current_cluster) :=
        fold_left cluster_step rest ([], [first]) in
      clusters ++ [current_cluster]
  end.

(** [analyze_array_elements]: nothing is clustered when there is no element
    (the early return of lines 926-928); otherwise the clusters of the
    elements sorted by offset. *)
Definition analyze_array_elements (array_elements : list ArrayElement)
  : option (list (list ArrayElement)) :=
  match array_elements with
  | [] => None
  | _ => Some (find_clusters (sorted_by_offset array_elements))
  end.

End CompactAnalysis.

(** * Vocabulary of the statements *)

Import CapeUnlocker.

Definition is_byte (x : Z) : bool := (0 <=? x) && (x <? 256).

(** The invariant of a Python [bytes] value. *)
Definition is_bytes (b : bytes) : bool := forallb is_byte b.

(** A recorded region lies at or after the scan start, leaves more than eight
    bytes to the end of the buffer, and has a plausible size. *)
Definition region_in_range (data : bytes) (pos : Z) (r : Z * Z) : Prop :=
  pos <= fst r < len data - 8 /\ 0 < snd r < 50000.

(** A small container used to exercise the definitions: two 44-byte headers
    declaring payloads of 2 and 3 bytes, a Block 3 made of four regions of
    declared sizes 1, 2, 3 and 4 with some filler in front of each, a 4-byte
    Block 4 and a 3-byte Block 5. *)
Definition sample_header (size : Z) : bytes :=
  repeat 0x00 32 ++ [size; 0x00; 0x00; 0x00] ++ repeat 0x00 8.

Definition sample_region (size : Z) (fill : Z) : bytes :=
  [0x01; size; 0x00; 0x00; 0x00; 0x00; 0x80; 0x00]
  ++ repeat fill (Z.to_nat size) ++ [0x00; 0x10; 0x20; 0x30; 0x40].

(** Block 3 of the sample containers: four regions of declared sizes 1, 2, 3
    and [size4], with filler in front of the first, second and fourth; the
    trailer of the fourth holds [checksum]. *)
Definition sample_block3 (size4 checksum : Z) : bytes :=
  [0x11; 0x22] ++ sample_region 1 0xC1
  ++ [0x33] ++ sample_region 2 0xC2
  ++ sample_region 3 0xC3
  ++ [0x44; 0x55; 0x66]
  ++ [0x01; size4 mod 256; (size4 / 256) mod 256; (size4 / 65536) mod 256;
      0x00; 0x00; 0x80; 0x00]
  ++ [0x00; checksum mod 256; (checksum / 256) mod 256;
      (checksum / 65536) mod 256; (checksum / 16777216) mod 256].

Definition sample_container (block4 : bytes) : bytes :=
  sample_header 2 ++ [0xA1; 0xA2]
  ++ sample_header 3 ++ [0xB1; 0xB2; 0xB3]
  ++ sample_block3 (len block4) 0x40302010
  ++ block4
  ++ [0xE1; 0xE2; 0xE3].

Definition sample_sav : bytes := sample_container [0xD1; 0xD2; 0xD3; 0xD4].

(** Block 4 payloads long enough to hold both cape flags, with the flags
    clear and with the flags set. *)
Definition locked_block4 : bytes := repeat 0x00 (Z.to_nat 20723).

Definition unlocked_block4 : bytes :=
  repeat 0x00 (Z.to_nat 20704) ++ [0x01] ++ repeat 0x00 17 ++ [0x01].

Definition sample_locked_sav : bytes := sample_container locked_block4.

(** What [parse_sav_blocks] returns for it. *)
Definition sample_locked_blocks : sav_blocks :=
  {| block1_compressed := [0xA1; 0xA2];
     block2_compressed := [0xB1; 0xB2; 0xB3];
     block3_raw := sample_block3 20723 0x40302010;
     block4_compressed := locked_block4;
     block5_raw := [0xE1; 0xE2; 0xE3];
     region4_offset_in_block3 := 51 |}.

(** Stand-ins for the external collaborators, used to run the patch on the
    sample containers: a codec that stores the bytes as they are, one whose
    compressor appends a byte, the Adler-32 sum, and header builders that
    write the compressed size at offset 0x20 (and, for Block 2, the running
    total at offset 0x24). *)
Definition stored_decompress (b : bytes) : result bytes := Ok b.

Definition stored_compress (b : bytes) : bytes := b.

Definition padding_compress (b : bytes) : bytes := b ++ [0x00].

Definition sample_adler32 (b : bytes) : Z :=
  let '(lo, hi) :=
    fold_left (fun acc x =>
                 let lo := (fst acc + x) mod 65521 in
                 (lo, (snd acc + lo) mod 65521)) b (1, 0) in
  hi * 65536 + lo.

Definition sample_build_block1_header (compressed : bytes) (decompressed_size : Z)
  : bytes :=
  sample_header (len compressed).

Definition sample_build_block2_header (compressed : bytes)
    (decompressed_size remaining : Z) : bytes :=
  repeat 0x00 32 ++ [len compressed; 0x00; 0x00; 0x00]
  ++ [remaining mod 256; (remaining / 256) mod 256; (remaining / 65536) mod 256;
      (remaining / 16777216) mod 256]
  ++ repeat 0x00 4.

(** The pieces written when the sample is patched with the storing
    decompressor, the padding compressor and the sample builders. *)
Definition padded_patch_output : sav_output :=
  {| out_block1_header := sample_header 3;
     out_block1 := [0xA1; 0xA2; 0x00];
     out_block2_header := sample_build_block2_header [0xB1; 0xB2; 0xB3; 0x00] 3 20839;
     out_block2 := [0xB1; 0xB2; 0xB3; 0x00];
     out_block3 := sample_block3 20724 (sample_adler32 (unlocked_block4 ++ [0x00]));
     out_block4 := unlocked_block4 ++ [0x00];
     out_block5 := [0xE1; 0xE2; 0xE3] |}.

(** The same with the storing compressor: the file a first patch writes. *)
Definition stored_patch_output : sav_output :=
  {| out_block1_header := sample_header 2;
     out_block1 := [0xA1; 0xA2];
     out_block2_header := sample_build_block2_header [0xB1; 0xB2; 0xB3] 3 20837;
     out_block2 := [0xB1; 0xB2; 0xB3];
     out_block3 := sample_block3 20723 (sample_adler32 unlocked_block4);
     out_block4 := unlocked_block4;
     out_block5 := [0xE1; 0xE2; 0xE3] |}.

(** What [parse_sav_blocks] returns for that file. *)
Definition sample_unlocked_blocks : sav_blocks :=
  {| block1_compressed := [0xA1; 0xA2];
     block2_compressed := [0xB1; 0xB2; 0xB3];
     block3_raw := sample_block3 20723 (sample_adler32 unlocked_block4);
     block4_compressed := unlocked_block4;
     block5_raw := [0xE1; 0xE2; 0xE3];
     region4_offset_in_block3 := 51 |}.

(** A file system holding the locked sample and nothing else. *)
Definition sample_fs : filesystem :=
  fun path => if String.eqb path "save.SAV" then Some sample_locked_sav else None.

(** A buffer whose headers are readable but which holds no region. *)
Definition sample_no_region : bytes := repeat 0x00 88.

(** Boolean comparisons, used to check a run of the functions on a container
    by evaluation. *)
Definition sav_blocks_eqb (a b : sav_blocks) : bool :=
  bytes_eqb (block1_compressed a) (block1_compressed b)
  && bytes_eqb (block2_compressed a) (block2_compressed b)
  && bytes_eqb (block3_raw a) (block3_raw b)
  && bytes_eqb (block4_compressed a) (block4_compressed b)
  && bytes_eqb (block5_raw a) (block5_raw b)
  && (region4_offset_in_block3 a =? region4_offset_in_block3 b).

Definition sav_output_eqb (a b : sav_output) : bool :=
  bytes_eqb (out_block1_header a) (out_block1_header b)
  && bytes_eqb (out_block1 a) (out_block1 b)
  && bytes_eqb (out_block2_header a) (out_block2_header b)
  && bytes_eqb (out_block2 a) (out_block2 b)
  && bytes_eqb (out_block3 a) (out_block3 b)
  && bytes_eqb (out_block4 a) (out_block4 b)
  && bytes_eqb (out_block5 a) (out_block5 b).

Definition option_eqb {A : Type} (eqb : A -> A -> bool) (a b : option A) : bool :=
  match a, b with
  | Some x, Some y => eqb x y
  | None, None => true
  | _, _ => false
  end.

(** [r] is [Ok y] for some [y] equal to [x]. *)
Definition returns {A : Type} (eqb : A -> A -> bool) (r : result A) (x : A) : bool :=
  match r with
  | Ok y => eqb y x
  | Raise _ => false
  end.

(** *** Synthetic Block 3 buffers

    The eight header bytes of a region of declared size [size]. *)
Definition region_header (size : Z) : bytes :=
  [0x01; size mod 256; (size / 256) mod 256; (size / 65536) mod 256;
   0x00; 0x00; 0x80; 0x00].

(** The whole test made by the scan at one position: the signature, and a size
    strictly between 0 and 50000. *)
Definition region_match (data : bytes) (pos : Z) : bool :=
  region_signature data pos
  && ((0 <? region_size_at data pos) && (region_size_at data pos <? 50000)).

(** No position of the filler, taken on its own, passes the test. *)
Definition no_signature (filler : bytes) : bool :=
  forallb (fun i => negb (region_match filler (Z.of_nat i))) (seq 0 (length filler)).

(** A region of the layout: the filler in front of it, its declared size, and
    the bytes that follow its header (payload and 5-byte trailer). *)
Record region : Type := {
  r_filler : bytes;
  r_size : Z;
  r_body : bytes
}.

Definition well_formed_region (r : region) : Prop :=
  no_signature (r_filler r) = true
  /\ 0 < r_size r < 50000
  /\ len (r_body r) = r_size r + 5.

Fixpoint layout (regions : list region) (tail : bytes) : bytes :=
  match regions with
  | [] => tail
  | r :: regions' =>
      r_filler r ++ region_header (r_size r) ++ r_body r ++ layout regions' tail
  end.

(** The (offset, size) pairs of the layout placed at offset [base], and the
    offset just past its last region. *)
Fixpoint expected_regions (base : Z) (regions : list region) : list (Z * Z) :=
  match regions with
  | [] => []
  | r :: regions' =>
      let offset := base + len (r_filler r) in
      (offset, r_size r) :: expected_regions (offset + 8 + r_size r + 5) regions'
  end.

Fixpoint end_of_regions (base : Z) (regions : list region) : Z :=
  match regions with
  | [] => base
  | r :: regions' =>
      end_of_regions (base + len (r_filler r) + 8 + r_size r + 5) regions'
  end.

(** The test of the scan read off the bytes from the cursor on. *)
Definition match8 (l : bytes) : bool :=
  match l with
  | b0 :: b1 :: b2 :: b3 :: b4 :: b5 :: b6 :: b7 :: _ =>
      ((b0 =? 0x01)
       && ((b4 =? 0x00) && ((b5 =? 0x00) && ((b6 =? 0x80) && ((b7 =? 0x00) && true)))))
      && ((0 <? le_uint [b1; b2; b3; 0x00]) && (le_uint [b1; b2; b3; 0x00] <? 50000))
  | _ => false
  end.

Definition size8 (l : bytes) : Z :=
  match l with
  | _ :: b1 :: b2 :: b3 :: _ => le_uint [b1; b2; b3; 0x00]
  | _ => 0
  end.

(** Four regions with fillers of different lengths, for running the scan. *)
Definition sample_regions : list region :=
  [ {| r_filler := [0x11; 0x22; 0x01; 0x00]; r_size := 1;
       r_body := [0xC1; 0x00; 0x10; 0x20; 0x30; 0x40] |};
    {| r_filler := []; r_size := 2;
       r_body := [0xC2; 0xC2; 0x00; 0x10; 0x20; 0x30; 0x40] |};
    {| r_filler := repeat 0x01 9; r_size := 300;
       r_body := repeat 0x01 300 ++ [0x00; 0x10; 0x20; 0x30; 0x40] |};
    {| r_filler := [0x00; 0x00; 0x80; 0x00; 0x01]; r_size := 4;
       r_body := [0xC4; 0xC4; 0xC4; 0xC4; 0x00; 0x10; 0x20; 0x30; 0x40] |} ].

(** *** The compact-format decoder *)

Import CompactFormat.

(** The payload of the concrete scenario: an 8-byte header, a TABLE_REF, a
    VALUE_15 and a final byte 0x6D. *)
Definition sample_payload : bytes :=
  [0x01; 0x00; 0x80; 0x00; 0x00; 0x00; 0x80; 0x00;
   0x08; 0x03; 0x05; 0x02;
   0x15; 0x00; 0xAA; 0xBB; 0xCC; 0xDD;
   0x6D].

(** A VARINT entry whose first six varint bytes all carry the continuation
    bit. *)
Definition long_varint : bytes :=
  [0x14; 0x05; 0xFF; 0xFF; 0xFF; 0xFF; 0xFF; 0xFF; 0xFF; 0x01].

(** A header, one byte that is neither a prefix nor a marker, a TABLE_REF and
    a closing byte. *)
Definition payload_with_unknown_byte : bytes :=
  [0x01; 0x00; 0x80; 0x00; 0x00; 0x00; 0x80; 0x00;
   0xFF;
   0x08; 0x03; 0x05; 0x02;
   0x00].

(** Counter-wise sum of two statistics records. *)
Definition stats_add (a b : stats) : stats :=
  {| table_refs := table_refs a + table_refs b;
     extended_1c04 := extended_1c04 a + extended_1c04 b;
     array_173c := array_173c a + array_173c b;
     value_1500 := value_1500 a + value_1500 b;
     value_1200 := value_1200 a + value_1200 b;
     fixed32_0502 := fixed32_0502 a + fixed32_0502 b;
     varint_1405 := varint_1405 a + varint_1405 b;
     type_ref_1006 := type_ref_1006 a + type_ref_1006 b;
     prefix_1809 := prefix_1809 a + prefix_1809 b;
     prefix_1907 := prefix_1907 a + prefix_1907 b;
     prefix_1902 := prefix_1902 a + prefix_1902 b;
     prefix_16e1 := prefix_16e1 a + prefix_16e1 b;
     unknown := unknown a + unknown b;
     marker_6D := marker_6D a + marker_6D b;
     marker_DB := marker_DB a + marker_DB b;
     marker_CD := marker_CD a + marker_CD b |}.

(** The outcome of a step, of the loop and of [parse] when the parser already
    held the counters [st] on entry. *)
Definition shift_parsed (st : stats) (r : parsed) : parsed :=
  match r with
  | Ok (e, c, d) => Ok (e, c, stats_add st d)
  | Raise x => Raise x
  end.

Definition shift_loop (st : stats) (r : result (list ParsedEntry * Z * stats))
  : result (list ParsedEntry * Z * stats) :=
  match r with
  | Ok (es, p, d) => Ok (es, p, stats_add st d)
  | Raise x => Raise x
  end.

Definition shift_block (st : stats) (r : result (CompactBlock * stats))
  : result (CompactBlock * stats) :=
  match r with
  | Ok (b, d) => Ok (b, stats_add st d)
  | Raise x => Raise x
  end.

(** The main loop of [parse] entered with the cursor at [pos]. *)
Definition decode_from (data : bytes) (pos : Z) (st : stats)
    (entries : list ParsedEntry) : result (list ParsedEntry * Z * stats) :=
  parse_loop (length data) data pos st entries.

(** *** Layout of the decoded entries *)

(** Entries laid end to end from [pos] on: each one starts at or after the
    end of the one before it and takes at least one byte. *)
Fixpoint in_order (pos : Z) (es : list ParsedEntry) : bool :=
  match es with
  | [] => true
  | e :: es' =>
      (pos <=? offset e) && (1 <=? size e) && in_order (offset e + size e) es'
  end.

(** The bytes of an entry lie inside the buffer. *)
Definition inside (data : bytes) (e : ParsedEntry) : bool :=
  (0 <=? offset e) && (offset e + size e <=? len data).

Definition total_size (es : list ParsedEntry) : Z :=
  fold_right (fun e n => size e + n) 0 es.

(** The buffer ends three bytes into the four-byte value of an ARRAY_ELEM of
    element type 0x00. *)
Definition truncated_array (data : bytes) : bool :=
  (byte_at data (len data - 6) =? 0x17)
  && (byte_at data (len data - 5) =? 0x3C)
  && (byte_at data (len data - 4) =? 0x00).

(** Base-128 little-endian value of a run of varint bytes, the high bit of
    each byte left out. *)
Fixpoint varint_value (bs : bytes) : Z :=
  match bs with
  | [] => 0
  | b :: bs' => b mod 128 + 128 * varint_value bs'
  end.

(** A header followed by an ARRAY_ELEM of element type 0x00 that lacks the
    last byte of its value. *)
Definition payload_with_truncated_array : bytes :=
  [0x01; 0x00; 0x80; 0x00; 0x00; 0x00; 0x80; 0x00;
   0x17; 0x3C; 0x00; 0xAA; 0xBB; 0xCC].

(** A header, a two-byte preamble, a TABLE_REF, an EXTENDED_1C with a
    variable-length reference, an ARRAY_ELEM, a VARINT and a FIXED32. *)
Definition mixed_payload : bytes :=
  [0x01; 0x00; 0x80; 0x00; 0x00; 0x00; 0x80; 0x00;
   0xEE; 0xEF;
   0x08; 0x03; 0x07; 0x01;
   0x1C; 0x04; 0x24; 0x41; 0x42; 0x43;
   0x17; 0x3C; 0x08; 0x2A;
   0x14; 0x05; 0x96; 0x01;
   0x05; 0x02; 0x01; 0x02; 0x03; 0x04;
   0x77; 0x00].

(** 1 when the categorising loop of [parse] puts the entry into the bucket of
    [kinds], 0 otherwise. *)
Definition is_kind (kinds : list PrefixType) (e : ParsedEntry) : Z :=
  if existsb (prefix_type_eqb (prefix_type e)) kinds then 1 else 0.

(** What a step of the decoder at [pos] may return: an entry recorded at
    [pos] that takes between one and eight bytes, all of them inside the
    buffer, with the counter of its bucket stepped and the count of
    unclassified bytes untouched; or no entry, and then no counter moves. *)
Definition well_placed (data : bytes) (pos : Z) (st : stats)
    (r : option ParsedEntry * Z * stats) : Prop :=
  match r with
  | (Some e, c, st') =>
      offset e = pos /\ size e = c /\ 1 <= c <= 8 /\ pos + c <= len data
      /\ unknown st' = unknown st
      /\ table_refs st' = table_refs st + is_kind [TABLE_REF] e
      /\ extended_1c04 st' = extended_1c04 st + is_kind [EXTENDED_1C] e
      /\ array_173c st' = array_173c st + is_kind [ARRAY_ELEM] e
      /\ value_1500 st' + value_1200 st' + fixed32_0502 st'
         = value_1500 st + value_1200 st + fixed32_0502 st
           + is_kind [VALUE_15; VALUE_12; FIXED32] e
  | (None, c, st') => st' = st /\ 0 <= c <= 1
  end.

(** The bytes each two-byte prefix needs before its parser returns an
    entry: the guard at the head of the parser. *)
Definition needed_bytes : list (Z * Z * Z) :=
  [(0x08, 0x03, 4); (0x1C, 0x04, 3); (0x17, 0x3C, 3); (0x15, 0x00, 6);
   (0x12, 0x00, 6); (0x05, 0x02, 6); (0x14, 0x05, 3); (0x10, 0x06, 4);
   (0x18, 0x09, 4); (0x19, 0x07, 4); (0x0C, 0x18, 4); (0x10, 0x13, 4);
   (0x18, 0x30, 4); (0x14, 0x0E, 4); (0x19, 0x02, 4); (0x16, 0xE1, 4)].

(** The three prefixes followed by a 32-bit value. *)
Definition fixed_prefixes : list (Z * Z) :=
  [(0x15, 0x00); (0x12, 0x00); (0x05, 0x02)].

(** A buffer that ends two bytes into a VALUE_15. *)
Definition payload_with_cut_value : bytes :=
  [0x01; 0x00; 0x80; 0x00; 0x00; 0x00; 0x80; 0x00;
   0x08; 0x03; 0x05; 0x02;
   0x15; 0x00; 0xAA; 0xBB].

(** A header, a marker of each kind and a closing byte. *)
Definition payload_with_markers : bytes :=
  [0x01; 0x00; 0x80; 0x00; 0x00; 0x00; 0x80; 0x00;
   0x6D; 0xDB; 0xCD; 0x6D].

(** The four prefixes whose parsers step no counter. *)
Definition uncounted_prefixes : list (Z * Z) :=
  [(0x0C, 0x18); (0x10, 0x13); (0x18, 0x30); (0x14, 0x0E)].

(** A header followed by a PREFIX_1830 entry, a TYPE_REF entry and a closing
    byte. *)
Definition payload_with_uncounted : bytes :=
  [0x01; 0x00; 0x80; 0x00; 0x00; 0x00; 0x80; 0x00;
   0x18; 0x30; 0x34; 0x12;
   0x10; 0x06; 0x07; 0x09;
   0x00].

(** *** The scan on an arbitrary buffer *)

(** No position from [lo] up to [hi] passes the test of the scan. *)
Definition no_header_between (data : bytes) (lo hi : Z) : Prop :=
  forall i, lo <= i < hi -> region_match data i = false.

(** [rs] lists, from [pos] on, the first position that passes the test, then
    the first one after the end of that region (header, declared payload and
    5-byte trailer), and so on; each size is the one declared at the
    position. *)
Fixpoint first_headers (data : bytes) (pos : Z) (rs : list (Z * Z)) : Prop :=
  match rs with
  | [] => True
  | (o, s) :: rs' =>
      pos <= o < len data - 8
      /\ no_header_between data pos o
      /\ region_match data o = true
      /\ s = region_size_at data o
      /\ first_headers data (o + 8 + s + 5) rs'
  end.

(** Where the scan resumes after the regions [rs]. *)
Fixpoint regions_end (pos : Z) (rs : list (Z * Z)) : Z :=
  match rs with
  | [] => pos
  | (o, s) :: rs' => regions_end (o + 8 + s + 5) rs'
  end.

(** The sample container cut off inside its second header. *)
Definition sample_cut_in_header2 : bytes := firstn 60 sample_sav.

(** A file system holding the small sample container, whose Block 4 is four
    bytes long. *)
Definition small_fs : filesystem :=
  fun path => if String.eqb path "small.SAV" then Some sample_sav else None.

(** A decompressor that rejects the stream of Block 1 of the sample
    containers as corrupt and stores every other stream. *)
Definition strict_decompress (b : bytes) : result bytes :=
  if bytes_eqb b [0xA1; 0xA2] then Raise CorruptStream else Ok b.

(** *** The analysis functions *)

Import CompactAnalysis.

(** Consecutive elements of the run are less than 100 bytes apart. *)
Fixpoint close_run (l : list ArrayElement) : bool :=
  match l with
  | x :: (y :: _) as l' => (ae_offset y - ae_offset x <? 100) && close_run l'
  | _ => true
  end.

(** Each cluster starts at least 100 bytes after the last element of the
    cluster before it; [prev] is that element for the first cluster of the
    list, if there is one. *)
Fixpoint far_apart (prev : option ArrayElement) (cs : list (list ArrayElement))
  : bool :=
  match cs with
  | [] => true
  | c :: cs' =>
      match prev, c with
      | Some p, x :: _ => 100 <=? ae_offset x - ae_offset p
      | _, _ => true
      end
      && far_apart (match c with
                    | [] => prev
                    | x :: _ => Some (last c x)
                    end) cs'
  end.

Definition non_empty {A : Type} (l : list A) : bool :=
  match l with
  | [] => false
  | _ => true
  end.

(** An array element with only its offset and type filled in. *)
Definition element_at (offset type : Z) : ArrayElement :=
  {| ae_offset := offset; element_type := type; ae_value := PyNone;
     ae_raw_bytes := [] |}.

Definition sample_elements : list ArrayElement :=
  [element_at 500 0x08; element_at 20 0x00; element_at 90 0x08;
   element_at 450 0x1A; element_at 180 0x00].

Definition sample_table_refs : list TableRef :=
  [new_TableRef 8 0x05 0x02; new_TableRef 12 0x16 0x01; new_TableRef 16 0x05 0x07].

(** The last element of the last non-empty cluster of [cs], or [prev]. *)
Fixpoint last_seen (prev : option ArrayElement) (cs : list (list ArrayElement))
  : option ArrayElement :=
  match cs with
  | [] => prev
  | c :: cs' =>
      last_seen (match c with
                 | [] => prev
                 | x :: _ => Some (last c x)
                 end) cs'
  end.

(** The three conditions together. *)
Definition well_clustered (cs : list (list ArrayElement)) : bool :=
  forallb non_empty cs && forallb close_run cs && far_apart None cs.

Definition by_offset (a b : ArrayElement) : Prop := ae_offset a <= ae_offset b.

(** * Properties *)

(** ** Byte strings *)

Lemma len_nonneg (b : bytes) : 0 <= len b.
Proof. unfold len. lia. Qed.

Lemma len_app (a b : bytes) : len (a ++ b) = len a + len b.
Proof. unfold len. rewrite length_app. lia. Qed.

Lemma len_skipn (b : bytes) (n : Z) :
  0 <= n <= len b -> len (skipn (Z.to_nat n) b) = len b - n.
Proof. unfold len. intros H. rewrite length_skipn. lia. Qed.

Lemma len_slice (b : bytes) (lo hi : Z) :
  0 <= lo <= hi -> hi <= len b -> len (slice b lo hi) = hi - lo.
Proof.
  unfold slice, len. intros H1 H2.
  rewrite length_firstn, length_skipn. lia.
Qed.

Lemma length_slice_le (b : bytes) (lo hi : Z) :
  (length (slice b lo hi) <= Z.to_nat (hi - lo))%nat.
Proof. unfold slice. rewrite length_firstn. lia. Qed.

(** A slice is as long as requested only if it lies inside the buffer. *)
Lemma slice_full_inside (b : bytes) (lo hi : Z) (n : nat) :
  0 <= lo -> (0 < n)%nat -> hi - lo = Z.of_nat n ->
  length (slice b lo hi) = n -> hi <= len b.
Proof.
  unfold slice, len. intros Hlo Hn Hd.
  rewrite length_firstn, length_skipn. intros Hl. lia.
Qed.

(** Consecutive slices tile the rest of the buffer, clamped or not. *)
Lemma slice_tile (b : bytes) (lo hi : Z) :
  0 <= lo <= hi -> slice b lo hi ++ slice_from b hi = slice_from b lo.
Proof.
  unfold slice, slice_from. intros H.
  replace (Z.to_nat hi) with (Z.to_nat (hi - lo) + Z.to_nat lo)%nat by lia.
  rewrite <- skipn_skipn. apply firstn_skipn.
Qed.

Lemma slice_from_0 (b : bytes) : slice_from b 0 = b.
Proof. reflexivity. Qed.

Lemma is_bytes_skipn (b : bytes) (n : nat) :
  is_bytes b = true -> is_bytes (skipn n b) = true.
Proof.
  revert b. induction n as [|n IH]; intros [|x b]; simpl; auto.
  intros H. apply andb_true_iff in H. apply IH, H.
Qed.

Lemma is_bytes_firstn (b : bytes) (n : nat) :
  is_bytes b = true -> is_bytes (firstn n b) = true.
Proof.
  revert b. induction n as [|n IH]; intros [|x b]; simpl; auto.
  intros H. apply andb_true_iff in H. destruct H as [Hx Hb].
  rewrite Hx. simpl. apply IH, Hb.
Qed.

Lemma is_bytes_slice (b : bytes) (lo hi : Z) :
  is_bytes b = true -> is_bytes (slice b lo hi) = true.
Proof. intros H. unfold slice. apply is_bytes_firstn, is_bytes_skipn, H. Qed.

Lemma le_uint_nonneg (bs : bytes) : is_bytes bs = true -> 0 <= le_uint bs.
Proof.
  induction bs as [|x bs IH]; [simpl; lia|].
  intros H. cbn [is_bytes forallb] in H.
  apply andb_true_iff in H. destruct H as [Hx Hb].
  unfold is_byte in Hx. apply andb_true_iff in Hx. destruct Hx as [Hx _].
  apply Z.leb_le in Hx. specialize (IH Hb). cbn [le_uint]. lia.
Qed.

Lemma unpack_I_ok (bs : bytes) (v : Z) :
  unpack_I bs = Ok v -> length bs = 4%nat /\ v = le_uint bs.
Proof.
  unfold unpack_I. destruct (Nat.eqb_spec (length bs) 4); [|discriminate].
  intros H. inversion H. auto.
Qed.

Lemma bytes_eqb_eq (a b : bytes) : bytes_eqb a b = true <-> a = b.
Proof.
  revert b. induction a as [|x a IH]; intros [|y b]; simpl; split;
    try discriminate; auto.
  - intros H. apply andb_true_iff in H. destruct H as [H1 H2].
    apply Z.eqb_eq in H1. apply IH in H2. congruence.
  - intros H. inversion H. subst. rewrite Z.eqb_refl. simpl. apply IH. reflexivity.
Qed.

(** ** The region scan *)

Lemma find_region_found (fuel : nat) (data : bytes) (pos p s pos' : Z) :
  find_region fuel data pos = (Some (p, s), pos') ->
  pos <= p < len data - 8 /\ 0 < s < 50000 /\ pos' = p + 8 + s + 5
  /\ region_signature data p = true /\ s = region_size_at data p.
Proof.
  revert pos. induction fuel as [|fuel IH]; simpl; intros pos H; [discriminate|].
  destruct (Z.ltb_spec pos (len data - 8)) as [Hlt|]; [|discriminate].
  destruct (region_signature data pos) eqn:Hsig.
  - destruct ((0 <? region_size_at data pos) && (region_size_at data pos <? 50000))
      eqn:Hsize.
    + inversion H; subst. apply andb_true_iff in Hsize. destruct Hsize as [H0 H1].
      apply Z.ltb_lt in H0. apply Z.ltb_lt in H1. repeat split; auto; lia.
    + apply IH in H. intuition lia.
  - apply IH in H. intuition lia.
Qed.

Lemma find_region_advances (fuel : nat) (data : bytes) (pos pos' : Z)
    (found : option (Z * Z)) :
  find_region fuel data pos = (found, pos') -> pos <= pos'.
Proof.
  revert pos. induction fuel as [|fuel IH]; simpl; intros pos H.
  - inversion H. lia.
  - destruct (Z.ltb_spec pos (len data - 8)) as [Hlt|]; [|inversion H; lia].
    destruct (region_signature data pos).
    + destruct ((0 <? region_size_at data pos) && (region_size_at data pos <? 50000))
        eqn:Hsize.
      * inversion H; subst. apply andb_true_iff in Hsize. destruct Hsize as [H0 _].
        apply Z.ltb_lt in H0. lia.
      * apply IH in H. lia.
    + apply IH in H. lia.
Qed.

(** The fuel is only a bound: any two amounts that cover the distance to
    [total_size - 8] give the same result. *)
Lemma find_region_fuel (data : bytes) (f1 f2 : nat) (pos : Z) :
  len data - 8 - pos <= Z.of_nat f1 -> len data - 8 - pos <= Z.of_nat f2 ->
  find_region f1 data pos = find_region f2 data pos.
Proof.
  revert f2 pos. induction f1 as [|f1 IH]; intros [|f2] pos H1 H2; simpl;
    try reflexivity.
  - destruct (Z.ltb_spec pos (len data - 8)); [lia | reflexivity].
  - destruct (Z.ltb_spec pos (len data - 8)); [lia | reflexivity].
  - destruct (Z.ltb_spec pos (len data - 8)); [|reflexivity].
    rewrite (IH f2 (pos + 1)) by lia. reflexivity.
Qed.

(** Line 57 cannot raise: under the loop guard the size slice has 3 bytes. *)
Lemma region_size_slice_length (data : bytes) (search_pos : Z) :
  0 <= search_pos < len data - 8 ->
  length (slice data (search_pos + 1) (search_pos + 4) ++ [0x00]) = 4%nat.
Proof.
  intros H. rewrite length_app. unfold slice, len in *.
  rewrite length_firstn, length_skipn. simpl. lia.
Qed.

Lemma scan_loop_spec (n : nat) (data : bytes) (pos final : Z)
    (regions : list (Z * Z)) :
  scan_loop n data pos = (regions, final) ->
  (length regions <= n)%nat /\ pos <= final
  /\ Forall (region_in_range data pos) regions.
Proof.
  revert pos final regions. induction n as [|n IH]; simpl; intros pos final regions H.
  - inversion H. simpl. repeat split; auto; lia.
  - destruct (find_region (length data) data pos) as [found pos'] eqn:Hf.
    destruct (scan_loop n data pos') as [regions' final'] eqn:Hs.
    inversion H; subst; clear H.
    apply IH in Hs. destruct Hs as (Hlen & Hle & Hall).
    pose proof (find_region_advances _ _ _ _ _ Hf) as Hadv.
    assert (Hweak : Forall (region_in_range data pos) regions').
    { eapply Forall_impl; [|exact Hall]. unfold region_in_range. intros r Hr. lia. }
    destruct found as [[p s]|]; simpl.
    + apply find_region_found in Hf.
      repeat split; try lia. constructor; auto.
      unfold region_in_range. simpl. lia.
    + repeat split; auto; lia.
Qed.

Lemma scan_regions_length (data : bytes) (block3_offset : Z) :
  (length (scan_regions data block3_offset) <= 4)%nat.
Proof.
  unfold scan_regions.
  destruct (scan_loop 4 data block3_offset) as [regions final] eqn:H.
  apply scan_loop_spec in H. simpl. tauto.
Qed.

Lemma scan_regions_in_range (data : bytes) (block3_offset : Z) :
  Forall (region_in_range data block3_offset) (scan_regions data block3_offset).
Proof.
  unfold scan_regions.
  destruct (scan_loop 4 data block3_offset) as [regions final] eqn:H.
  apply scan_loop_spec in H. simpl. tauto.
Qed.

(** ** parse_sav_blocks *)

Lemma read_block_sizes_ok (data : bytes) (s1 s2 : Z) :
  is_bytes data = true ->
  read_block_sizes data = Ok (s1, s2) ->
  0 <= s1 /\ 0 <= s2 /\ 0x2C + s1 + 0x24 <= len data.
Proof.
  intros Hb H. unfold read_block_sizes in H.
  destruct (unpack_I (slice data 0x20 0x24)) as [a|] eqn:H1; cbn [bind] in H;
    [|discriminate].
  destruct (unpack_I (slice data (0x2C + a + 0x20) (0x2C + a + 0x24))) as [b|] eqn:H2;
    cbn [bind] in H; [|discriminate].
  injection H as Ha Hb'. subst a b.
  apply unpack_I_ok in H1. destruct H1 as [L1 V1].
  apply unpack_I_ok in H2. destruct H2 as [L2 V2].
  assert (0 <= s1) by (subst s1; apply le_uint_nonneg, is_bytes_slice, Hb).
  assert (0 <= s2) by (subst s2; apply le_uint_nonneg, is_bytes_slice, Hb).
  repeat split; auto.
  apply (slice_full_inside data (0x2C + s1 + 0x20) (0x2C + s1 + 0x24) 4); auto; lia.
Qed.

(** What an accepted container looks like: the two sizes were read, the scan
    recorded four regions, and the blocks are the slices the fourth one
    determines. *)
Lemma parse_sav_blocks_inv (data : bytes) (blk : sav_blocks) :
  parse_sav_blocks data = Ok blk ->
  exists s1 s2 o4 s4,
    read_block_sizes data = Ok (s1, s2)
    /\ length (scan_regions data (0x2C + s1 + 44 + s2)) = 4%nat
    /\ nth 3 (scan_regions data (0x2C + s1 + 44 + s2)) (0, 0) = (o4, s4)
    /\ region_in_range data (0x2C + s1 + 44 + s2) (o4, s4)
    /\ blk = {| block1_compressed := slice data 0x2C (0x2C + s1);
                block2_compressed := slice data (0x2C + s1 + 44) (0x2C + s1 + 44 + s2);
                block3_raw := slice data (0x2C + s1 + 44 + s2) (o4 + 8 + 5);
                block4_compressed := slice data (o4 + 8 + 5) (o4 + 8 + 5 + s4);
                block5_raw := slice_from data (o4 + 8 + 5 + s4);
                region4_offset_in_block3 := o4 - (0x2C + s1 + 44 + s2) |}.
Proof.
  unfold parse_sav_blocks. intros H.
  destruct (read_block_sizes data) as [[s1 s2]|] eqn:Hsz; cbn [bind] in H;
    [|discriminate].
  set (b3 := 44 + s1 + 44 + s2) in *.
  destruct (Nat.leb_spec 4 (length (scan_regions data b3))) as [H4|]; [|discriminate].
  destruct (nth 3 (scan_regions data b3) (0, 0)) as [o4 s4] eqn:Hn.
  exists s1, s2, o4, s4.
  pose proof (scan_regions_length data b3) as Hle.
  pose proof (scan_regions_in_range data b3) as Hall.
  assert (Hin : In (o4, s4) (scan_regions data b3)).
  { rewrite <- Hn. apply nth_In. lia. }
  rewrite Forall_forall in Hall. specialize (Hall _ Hin).
  injection H as <-.
  replace (b3 + (o4 + 8 + 5 - b3)) with (o4 + 8 + 5) by lia.
  subst b3.
  split; [reflexivity|]. split; [lia|]. split; [exact Hn|]. split; [exact Hall|].
  reflexivity.
Qed.

Lemma parse_sav_blocks_few_regions (data : bytes) (s1 s2 : Z) :
  read_block_sizes data = Ok (s1, s2) ->
  (length (scan_regions data (0x2C + s1 + 44 + s2)) < 4)%nat ->
  parse_sav_blocks data
  = Raise (ValueError (length (scan_regions data (0x2C + s1 + 44 + s2)))).
Proof.
  intros Hsz Hlt. unfold parse_sav_blocks. rewrite Hsz. cbn [bind].
  destruct (Nat.leb_spec 4 (length (scan_regions data (44 + s1 + 44 + s2))));
    [lia | reflexivity].
Qed.

Lemma parse_sav_blocks_four_regions (data : bytes) (s1 s2 : Z) :
  read_block_sizes data = Ok (s1, s2) ->
  length (scan_regions data (0x2C + s1 + 44 + s2)) = 4%nat ->
  exists blk, parse_sav_blocks data = Ok blk.
Proof.
  intros Hsz H4. unfold parse_sav_blocks. rewrite Hsz. cbn [bind].
  rewrite H4. cbn [Nat.leb].
  destruct (nth 3 (scan_regions data (44 + s1 + 44 + s2)) (0, 0)) as [o4 s4].
  eexists. reflexivity.
Qed.

(** C6. Once the two block sizes have been read, the outcome of
    [parse_sav_blocks] is decided by the number of regions the scan records:
    with fewer than four the call raises the [ValueError] that carries that
    number, and nothing is returned; with four the call returns the blocks;
    and the scan never records more than four. *)
Theorem parse_fails_iff_fewer_than_four_regions
    (data : bytes) (block3_offset : Z) :
  block3_offset_of data = Ok block3_offset ->
  let found := length (scan_regions data block3_offset) in
  ((found < 4)%nat -> parse_sav_blocks data = Raise (ValueError found))
  /\ (found = 4%nat -> exists blk, parse_sav_blocks data = Ok blk)
  /\ (found <= 4)%nat.
Proof.
  unfold block3_offset_of. intros H.
  destruct (read_block_sizes data) as [[s1 s2]|] eqn:Hsz; cbn [bind fst snd] in H;
    [|discriminate].
  injection H as <-.
  cbv zeta. repeat split.
  - apply parse_sav_blocks_few_regions, Hsz.
  - apply parse_sav_blocks_four_regions, Hsz.
  - apply scan_regions_length.
Qed.

Lemma parse_fails_iff_fewer_than_four_regions_witness :
  block3_offset_of sample_no_region = Ok 88
  /\ parse_sav_blocks sample_no_region = Raise (ValueError 0)
  /\ exists blk, parse_sav_blocks sample_sav = Ok blk.
Proof.
  split; [reflexivity|]. split.
  - apply (proj1 (parse_fails_iff_fewer_than_four_regions sample_no_region 88 eq_refl)).
    vm_compute. lia.
  - apply (proj1 (proj2 (parse_fails_iff_fewer_than_four_regions sample_sav 93 eq_refl))).
    reflexivity.
Defined.

(** C1 (as amended). The five byte ranges returned for an accepted container
    are consecutive and disjoint, and together with the two 44-byte block
    headers, which are not returned, they tile the input: header 1, Block 1,
    header 2, Block 2, Block 3, Block 4, Block 5. *)
Theorem parse_sav_blocks_tiles_with_headers (data : bytes) (blk : sav_blocks) :
  is_bytes data = true ->
  parse_sav_blocks data = Ok blk ->
  let header2_offset := 0x2C + len (block1_compressed blk) in
  data = slice data 0 0x2C ++ block1_compressed blk
         ++ slice data header2_offset (header2_offset + 44)
         ++ block2_compressed blk ++ block3_raw blk
         ++ block4_compressed blk ++ block5_raw blk.
Proof.
  intros Hb H. apply parse_sav_blocks_inv in H.
  destruct H as (s1 & s2 & o4 & s4 & Hsz & _ & _ & Hr & ->).
  destruct (read_block_sizes_ok _ _ _ Hb Hsz) as (Hs1 & Hs2 & Hin).
  unfold region_in_range in Hr. cbn [fst snd] in Hr. destruct Hr as [Ho Hs].
  cbn [block1_compressed block2_compressed
    block3_raw block4_compressed block5_raw]. cbv zeta.
  rewrite (len_slice data 44 (44 + s1)) by lia.
  replace (44 + (44 + s1 - 44)) with (44 + s1) by lia.
  rewrite (slice_tile data (o4 + 8 + 5) (o4 + 8 + 5 + s4)) by lia.
  rewrite (slice_tile data (44 + s1 + 44 + s2) (o4 + 8 + 5)) by lia.
  rewrite (slice_tile data (44 + s1 + 44) (44 + s1 + 44 + s2)) by lia.
  rewrite (slice_tile data (44 + s1) (44 + s1 + 44)) by lia.
  rewrite (slice_tile data 44 (44 + s1)) by lia.
  rewrite (slice_tile data 0 44) by lia.
  reflexivity.
Qed.

Lemma parse_sav_blocks_tiles_with_headers_witness :
  exists blk,
    parse_sav_blocks sample_sav = Ok blk
    /\ sample_sav
       = slice sample_sav 0 0x2C ++ block1_compressed blk
         ++ slice sample_sav (0x2C + len (block1_compressed blk))
                             (0x2C + len (block1_compressed blk) + 44)
         ++ block2_compressed blk ++ block3_raw blk
         ++ block4_compressed blk ++ block5_raw blk.
Proof.
  eexists. split; [reflexivity|].
  apply (parse_sav_blocks_tiles_with_headers sample_sav _ eq_refl eq_refl).
Defined.

(** C1 (as stated) fails: on the sample container the five returned ranges
    concatenate to 76 bytes, 88 fewer than the 164 bytes of the input. *)
Lemma five_blocks_do_not_cover_the_input :
  exists blk,
    parse_sav_blocks sample_sav = Ok blk
    /\ block1_compressed blk ++ block2_compressed blk ++ block3_raw blk
       ++ block4_compressed blk ++ block5_raw blk <> sample_sav.
Proof.
  eexists. split; [reflexivity|].
  intros H. apply (f_equal (@length Z)) in H. vm_compute in H. discriminate.
Qed.

(** ** Packing, unpacking and in-place writes *)

Lemma le_uint_app_zero (bs : bytes) : le_uint (bs ++ [0x00]) = le_uint bs.
Proof. induction bs as [|b bs IH]; cbn [le_uint app]; lia. Qed.

Lemma byte_digits (n : Z) :
  n = n mod 256 + 256 * ((n / 256) mod 256) + 65536 * ((n / 65536) mod 256)
      + 16777216 * (n / 16777216).
Proof.
  pose proof (Z.div_mod n 256 ltac:(lia)) as E0.
  pose proof (Z.div_mod (n / 256) 256 ltac:(lia)) as E1.
  pose proof (Z.div_mod (n / 65536) 256 ltac:(lia)) as E2.
  rewrite Z.div_div in E1 by lia.
  rewrite Z.div_div in E2 by lia.
  change (256 * 256) with 65536 in E1.
  change (65536 * 256) with 16777216 in E2.
  lia.
Qed.

Lemma pack_I_ok (n : Z) (bs : bytes) :
  pack_I n = Ok bs ->
  0 <= n < 4294967296
  /\ bs = [n mod 256; (n / 256) mod 256; (n / 65536) mod 256; (n / 16777216) mod 256].
Proof.
  unfold pack_I.
  destruct (Z.leb_spec 0 n); destruct (Z.ltb_spec n 4294967296);
    cbn [andb]; try discriminate.
  intros E. injection E as <-. split; [lia | reflexivity].
Qed.

(** [unpack('<I', pack('<I', n)) = n]. *)
Lemma le_uint_pack_I (n : Z) (bs : bytes) :
  pack_I n = Ok bs -> le_uint bs = n /\ length bs = 4%nat.
Proof.
  intros H. apply pack_I_ok in H. destruct H as [Hn ->].
  split; [|reflexivity]. cbn [le_uint].
  pose proof (byte_digits n) as E.
  assert (0 <= n / 16777216 < 256).
  { split; [apply Z.div_pos; lia | apply Z.div_lt_upper_bound; lia]. }
  rewrite (Z.mod_small (n / 16777216) 256) by lia. lia.
Qed.

(** The three low bytes of [pack('<I', n)] hold [n] modulo 2^24. *)
Lemma le_uint_pack_I_low3 (n : Z) (bs : bytes) :
  pack_I n = Ok bs ->
  le_uint (firstn 3 bs) = n mod 16777216 /\ length (firstn 3 bs) = 3%nat.
Proof.
  intros H. apply pack_I_ok in H. destruct H as [Hn ->].
  split; [|reflexivity]. cbn [le_uint firstn].
  pose proof (byte_digits n) as E.
  pose proof (Z.mod_pos_bound n 256 ltac:(lia)).
  pose proof (Z.mod_pos_bound (n / 256) 256 ltac:(lia)).
  pose proof (Z.mod_pos_bound (n / 65536) 256 ltac:(lia)).
  apply (Z.mod_unique n 16777216 (n / 16777216)); lia.
Qed.

Lemma le_uint_bound (bs : bytes) :
  is_bytes bs = true -> 0 <= le_uint bs < 256 ^ Z.of_nat (length bs).
Proof.
  induction bs as [|x bs IH]; intros H.
  - cbn. lia.
  - cbn [is_bytes forallb] in H. apply andb_true_iff in H. destruct H as [Hx Hb].
    unfold is_byte in Hx. apply andb_true_iff in Hx. destruct Hx as [Hx0 Hx1].
    apply Z.leb_le in Hx0. apply Z.ltb_lt in Hx1.
    specialize (IH Hb). cbn [le_uint length].
    rewrite Nat2Z.inj_succ, Z.pow_succ_r by lia. lia.
Qed.

(** Reading back a slice that was just assigned. *)
Lemma slice_set_slice_same (b v : bytes) (lo hi : Z) :
  0 <= lo <= hi -> hi <= len b -> len v = hi - lo ->
  slice (set_slice b lo hi v) lo hi = v.
Proof.
  unfold slice, set_slice, len. intros H1 H2 H3.
  rewrite skipn_app, length_firstn.
  rewrite (skipn_all2 (firstn _ b)) by (rewrite length_firstn; lia).
  replace (Z.to_nat lo - Nat.min (Z.to_nat lo) (length b))%nat with 0%nat by lia.
  cbn [app skipn]. rewrite firstn_app.
  replace (Z.to_nat (hi - lo) - length v)%nat with 0%nat by lia.
  cbn [firstn]. rewrite app_nil_r. apply firstn_all2. lia.
Qed.

Lemma length_set_slice (b v : bytes) (lo hi : Z) :
  0 <= lo <= hi -> hi <= len b -> len v = hi - lo ->
  len (set_slice b lo hi v) = len b.
Proof.
  unfold set_slice, len. intros H1 H2 H3.
  rewrite !length_app, length_firstn, length_skipn. lia.
Qed.

(** A slice assignment leaves the bytes before and after it alone. *)
Lemma slice_set_slice_before (b v : bytes) (lo hi a c : Z) :
  0 <= a <= c -> c <= lo -> lo <= hi -> hi <= len b ->
  slice (set_slice b lo hi v) a c = slice b a c.
Proof.
  unfold slice, set_slice, len. intros H1 H2 H3 H4.
  rewrite skipn_app, firstn_app, length_skipn, !length_firstn.
  replace (Z.to_nat (c - a) - (Nat.min (Z.to_nat lo) (length b) - Z.to_nat a))%nat
    with 0%nat by lia.
  cbn [firstn]. rewrite app_nil_r.
  rewrite skipn_firstn_comm, firstn_firstn. f_equal. lia.
Qed.

Lemma slice_set_slice_after (b v : bytes) (lo hi a c : Z) :
  0 <= lo <= hi -> hi <= a -> a <= c -> hi <= len b -> len v = hi - lo ->
  slice (set_slice b lo hi v) a c = slice b a c.
Proof.
  unfold slice, set_slice, len. intros H1 H2 H3 H4 H5.
  rewrite !skipn_app, !length_firstn.
  rewrite (skipn_all2 (firstn _ b)) by (rewrite length_firstn; lia).
  rewrite (skipn_all2 v) by lia.
  cbn [app]. rewrite skipn_skipn. do 2 f_equal. lia.
Qed.

Lemma is_bytes_app (a b : bytes) :
  is_bytes (a ++ b) = is_bytes a && is_bytes b.
Proof. apply forallb_app. Qed.

(** Single-byte writes. *)
Lemma index_ok (b : bytes) (i v : Z) :
  index b i = Ok v -> 0 <= i < len b /\ v = byte_at b i.
Proof.
  unfold index.
  destruct (Z.leb_spec 0 i); destruct (Z.ltb_spec i (len b));
    cbn [andb]; try discriminate.
  intros E. injection E as <-. split; [lia | reflexivity].
Qed.

Lemma set_index_ok (b b' : bytes) (i v : Z) :
  set_index b i v = Ok b' ->
  0 <= i < len b /\ len b' = len b /\ byte_at b' i = v
  /\ forall j, 0 <= j -> j <> i -> byte_at b' j = byte_at b j.
Proof.
  unfold set_index, len.
  destruct (Z.leb_spec 0 i); destruct (Z.ltb_spec i (Z.of_nat (length b)));
    cbn [andb]; try discriminate.
  intros Hb. injection Hb as <-. split; [lia|].
  assert (Hf : length (firstn (Z.to_nat i) b) = Z.to_nat i)
    by (rewrite length_firstn; lia).
  split; [|split].
  - rewrite length_app. cbn [length]. rewrite Hf, length_skipn. lia.
  - unfold byte_at. rewrite app_nth2 by lia. rewrite Hf, Nat.sub_diag. reflexivity.
  - intros j Hj Hne. unfold byte_at.
    destruct (Z.ltb_spec j i) as [Hlt|Hge].
    + rewrite app_nth1 by lia. rewrite nth_firstn.
      destruct (Nat.ltb_spec (Z.to_nat j) (Z.to_nat i)); [reflexivity | lia].
    + rewrite app_nth2 by lia. rewrite Hf.
      replace (Z.to_nat j - Z.to_nat i)%nat with (S (Z.to_nat j - Z.to_nat (i + 1)))
        by lia.
      cbn [nth]. rewrite nth_skipn. f_equal. lia.
Qed.

Lemma index_in_range (b : bytes) (i : Z) :
  0 <= i < len b -> index b i = Ok (byte_at b i).
Proof.
  intros Hi. unfold index.
  destruct (Z.leb_spec 0 i); destruct (Z.ltb_spec i (len b)); cbn [andb];
    try lia. reflexivity.
Qed.

(** ** unlock_capes *)

Section PatchFacts.

Variable decompress : bytes -> result bytes.
Variable compress_lzss_lazy : bytes -> bytes.
Variable adler32 : bytes -> Z.
Variable build_block1_header : bytes -> Z -> bytes.
Variable build_block2_header : bytes -> Z -> Z -> bytes.

Local Arguments firstn : simpl never.
Local Arguments skipn : simpl never.

Local Notation "'rebuild'" :=
  (rebuild_sav decompress compress_lzss_lazy adler32
               build_block1_header build_block2_header).
Local Notation "'unlock'" :=
  (unlock_capes decompress compress_lzss_lazy adler32
                build_block1_header build_block2_header).

(** What a successful [patch_region4] leaves in Block 3. *)
Lemma patch_region4_spec (block3 block3' block4 : bytes) (r : Z) :
  0 <= r ->
  patch_region4 adler32 block3 r block4 = Ok block3' ->
  r + 13 <= len block3
  /\ len block3' = len block3
  /\ (le_uint (slice block3' (r + 1) (r + 4)) = len block4
      \/ le_uint (slice block3' (r + 1) (r + 4)) = len block4 mod 16777216)
  /\ le_uint (slice block3' (r + 9) (r + 13)) = adler32 block4.
Proof.
  intros Hr H. unfold patch_region4 in H.
  destruct (unpack_I (slice block3 (r + 1) (r + 4) ++ [0x00])) as [old|] eqn:Hold;
    cbn [bind] in H; [|discriminate].
  apply unpack_I_ok in Hold. destruct Hold as [Lold Vold].
  rewrite length_app in Lold. cbn [length] in Lold.
  assert (Hin4 : r + 4 <= len block3).
  { apply (slice_full_inside block3 (r + 1) (r + 4) 3); lia. }
  rewrite le_uint_app_zero in Vold.
  destruct ((if negb (old =? len block4)
     then
       packed <- pack_I (len block4) ;;
       Ok (set_slice block3 (r + 1) (r + 4) (firstn 3 packed))
     else Ok block3)) as [b1|] eqn:Hb1; cbn [bind] in H; [|discriminate].
  assert (Hsize : len b1 = len block3
       /\ (le_uint (slice b1 (r + 1) (r + 4)) = len block4
           \/ le_uint (slice b1 (r + 1) (r + 4)) = len block4 mod 16777216)).
  { destruct (Z.eqb_spec old (len block4)) as [Heq|Hne]; cbn [negb] in Hb1.
    - injection Hb1 as <-. split; [reflexivity|]. left. congruence.
    - destruct (pack_I (len block4)) as [packed|] eqn:Hp; cbn [bind] in Hb1;
        [|discriminate].
      injection Hb1 as <-.
      apply le_uint_pack_I_low3 in Hp. destruct Hp as [Vp Lp].
      assert (len (firstn 3 packed) = (r + 4) - (r + 1)) by (unfold len; lia).
      split.
      + apply length_set_slice; lia.
      + right. rewrite slice_set_slice_same by lia. exact Vp. }
  destruct Hsize as [Hlen1 Hfield1].
  destruct (unpack_I (slice b1 (r + 9) (r + 13))) as [oldc|] eqn:Holdc;
    cbn [bind] in H; [|discriminate].
  apply unpack_I_ok in Holdc. destruct Holdc as [Lc Vc].
  assert (Hin13 : r + 13 <= len b1).
  { apply (slice_full_inside b1 (r + 9) (r + 13) 4); lia. }
  destruct (Z.eqb_spec oldc (adler32 block4)) as [Heq|Hne]; cbn [negb] in H.
  - injection H as <-. repeat split; try lia; auto; congruence.
  - destruct (pack_I (adler32 block4)) as [packed|] eqn:Hp; cbn [bind] in H;
      [|discriminate].
    injection H as <-.
    apply le_uint_pack_I in Hp. destruct Hp as [Vp Lp].
    assert (len packed = (r + 13) - (r + 9)) by (unfold len; lia).
    split; [lia|]. split; [rewrite length_set_slice; lia|]. split.
    + rewrite slice_set_slice_before by lia. exact Hfield1.
    + rewrite slice_set_slice_same by lia. exact Vp.
Qed.

(** The run of [rebuild_sav] that reaches the assembly. *)
Lemma rebuild_sav_inv (sav_data : bytes) (o : sav_output) :
  rebuild sav_data = Ok (Some o) ->
  exists blk d1 d2 d4 d4a d4b,
    parse_sav_blocks sav_data = Ok blk
    /\ decompress (block1_compressed blk) = Ok d1
    /\ decompress (block2_compressed blk) = Ok d2
    /\ decompress (block4_compressed blk) = Ok d4
    /\ set_index d4 CAPE1_OFFSET 0x01 = Ok d4a
    /\ set_index d4a CAPE2_OFFSET 0x01 = Ok d4b
    /\ patch_region4 adler32 (block3_raw blk) (region4_offset_in_block3 blk)
         (compress_lzss_lazy d4b) = Ok (out_block3 o)
    /\ out_block1 o = compress_lzss_lazy d1
    /\ out_block2 o = compress_lzss_lazy d2
    /\ out_block4 o = compress_lzss_lazy d4b
    /\ out_block5 o = block5_raw blk
    /\ out_block1_header o = build_block1_header (out_block1 o) (len d1)
    /\ out_block2_header o =
       build_block2_header (out_block2 o) (len d2)
         (remaining_after_block2_header
            (out_block2 o) (out_block3 o) (out_block4 o) (out_block5 o)).
Proof.
  unfold rebuild_sav. intros H.
  destruct (parse_sav_blocks sav_data) as [blk|] eqn:Hp; cbn [bind] in H;
    [|discriminate].
  destruct (decompress (block1_compressed blk)) as [d1|] eqn:H1; cbn [bind] in H;
    [|discriminate].
  destruct (decompress (block2_compressed blk)) as [d2|] eqn:H2; cbn [bind] in H;
    [|discriminate].
  destruct (decompress (block4_compressed blk)) as [d4|] eqn:H4; cbn [bind] in H;
    [|discriminate].
  destruct (index d4 CAPE1_OFFSET) as [c1|]; cbn [bind] in H; [|discriminate].
  destruct (index d4 CAPE2_OFFSET) as [c2|]; cbn [bind] in H; [|discriminate].
  destruct ((c1 =? 1) && (c2 =? 1)); [discriminate|].
  destruct (set_index d4 CAPE1_OFFSET 1) as [d4a|] eqn:Hs1; cbn [bind] in H;
    [|discriminate].
  destruct (set_index d4a CAPE2_OFFSET 1) as [d4b|] eqn:Hs2; cbn [bind] in H;
    [|discriminate].
  destruct (patch_region4 adler32 (block3_raw blk) (region4_offset_in_block3 blk)
              (compress_lzss_lazy d4b)) as [b3'|] eqn:Hpatch; cbn [bind] in H;
    [|discriminate].
  injection H as <-.
  exists blk, d1, d2, d4, d4a, d4b.
  cbn [out_block1 out_block2 out_block3 out_block4 out_block5
       out_block1_header out_block2_header].
  repeat split; assumption || reflexivity.
Qed.

(** The converse, used to run the function on a given container. *)
Lemma rebuild_sav_patched (sav_data : bytes) (blk : sav_blocks)
    (d1 d2 d4 d4a d4b b3' : bytes) (c1 c2 : Z) :
  parse_sav_blocks sav_data = Ok blk ->
  decompress (block1_compressed blk) = Ok d1 ->
  decompress (block2_compressed blk) = Ok d2 ->
  decompress (block4_compressed blk) = Ok d4 ->
  index d4 CAPE1_OFFSET = Ok c1 ->
  index d4 CAPE2_OFFSET = Ok c2 ->
  (c1 =? 0x01) && (c2 =? 0x01) = false ->
  set_index d4 CAPE1_OFFSET 0x01 = Ok d4a ->
  set_index d4a CAPE2_OFFSET 0x01 = Ok d4b ->
  patch_region4 adler32 (block3_raw blk) (region4_offset_in_block3 blk)
    (compress_lzss_lazy d4b) = Ok b3' ->
  rebuild sav_data
  = Ok (Some
      {| out_block1_header := build_block1_header (compress_lzss_lazy d1) (len d1);
         out_block1 := compress_lzss_lazy d1;
         out_block2_header :=
           build_block2_header (compress_lzss_lazy d2) (len d2)
             (remaining_after_block2_header (compress_lzss_lazy d2) b3'
                (compress_lzss_lazy d4b) (block5_raw blk));
         out_block2 := compress_lzss_lazy d2;
         out_block3 := b3';
         out_block4 := compress_lzss_lazy d4b;
         out_block5 := block5_raw blk |}).
Proof.
  intros Hp H1 H2 H4 Hc1 Hc2 Hc Hs1 Hs2 Hpatch.
  unfold rebuild_sav. rewrite Hp. cbn [bind]. rewrite H1. cbn [bind].
  rewrite H2. cbn [bind]. rewrite H4. cbn [bind]. rewrite Hc1. cbn [bind].
  rewrite Hc2. cbn [bind]. rewrite Hc. rewrite Hs1. cbn [bind].
  rewrite Hs2. cbn [bind]. rewrite Hpatch. cbn [bind]. reflexivity.
Qed.

(** The early return. *)
Lemma rebuild_sav_already_unlocked (sav_data : bytes) (blk : sav_blocks)
    (d1 d2 d4 : bytes) :
  parse_sav_blocks sav_data = Ok blk ->
  decompress (block1_compressed blk) = Ok d1 ->
  decompress (block2_compressed blk) = Ok d2 ->
  decompress (block4_compressed blk) = Ok d4 ->
  index d4 CAPE1_OFFSET = Ok 0x01 ->
  index d4 CAPE2_OFFSET = Ok 0x01 ->
  rebuild sav_data = Ok None.
Proof.
  intros Hp H1 H2 H4 Hc1 Hc2.
  unfold rebuild_sav. rewrite Hp. cbn [bind]. rewrite H1. cbn [bind].
  rewrite H2. cbn [bind]. rewrite H4. cbn [bind]. rewrite Hc1. cbn [bind].
  rewrite Hc2. cbn [bind]. reflexivity.
Qed.

Lemma region4_offset_nonneg (sav_data : bytes) (blk : sav_blocks) :
  parse_sav_blocks sav_data = Ok blk -> 0 <= region4_offset_in_block3 blk.
Proof.
  intros H. apply parse_sav_blocks_inv in H.
  destruct H as (s1 & s2 & o4 & s4 & _ & _ & _ & Hr & ->).
  unfold region_in_range in Hr. cbn [fst snd] in Hr.
  cbn [region4_offset_in_block3]. lia.
Qed.

End PatchFacts.

Section PatchClaims.

Variable decompress : bytes -> result bytes.
Variable compress_lzss_lazy : bytes -> bytes.
Variable adler32 : bytes -> Z.
Variable build_block1_header : bytes -> Z -> bytes.
Variable build_block2_header : bytes -> Z -> Z -> bytes.

Local Notation "'rebuild'" :=
  (rebuild_sav decompress compress_lzss_lazy adler32
               build_block1_header build_block2_header).
Local Notation "'unlock'" :=
  (unlock_capes decompress compress_lzss_lazy adler32
                build_block1_header build_block2_header).

(** C3. After a patch that wrote output, in the produced Block 3 the size
    field of region 4 (3 bytes, little-endian, at region-4 offset + 1) equals
    the length of the recompressed Block 4, and the checksum field (4 bytes,
    little-endian, at region-4 offset + 9) equals the checksum of the
    recompressed Block 4.  The recompressed length is the compressor's to
    choose; it is taken below 2^24, the range of the three-byte field.  The
    two fields hold these values when the length changed and when it did
    not. *)
Theorem region4_fields_after_patch (sav_data : bytes) (blk : sav_blocks)
    (o : sav_output) :
  parse_sav_blocks sav_data = Ok blk ->
  rebuild sav_data = Ok (Some o) ->
  len (out_block4 o) < 16777216 ->
  let r := region4_offset_in_block3 blk in
  let size_field := le_uint (slice (out_block3 o) (r + 1) (r + 4)) in
  let checksum_field := le_uint (slice (out_block3 o) (r + 9) (r + 13)) in
  size_field = len (out_block4 o)
  /\ checksum_field = adler32 (out_block4 o).
Proof.
  intros Hp Hr Hsmall. apply rebuild_sav_inv in Hr.
  destruct Hr as (blk0 & d1 & d2 & d4 & d4a & d4b & Hp0 & _ & _ & _ & _ & _
                  & Hpatch & _ & _ & E4 & _).
  rewrite Hp in Hp0. injection Hp0 as <-.
  rewrite <- E4 in Hpatch.
  apply patch_region4_spec in Hpatch; [|eapply region4_offset_nonneg; eassumption].
  destruct Hpatch as (_ & _ & Hsize & Hsum).
  cbv zeta. split; [|assumption].
  destruct Hsize as [E|E]; [exact E|].
  rewrite E. apply Z.mod_small. pose proof (len_nonneg (out_block4 o)). lia.
Qed.

(** C4 (as amended). The total handed to the Block 2 header builder is 44
    plus the recompressed length of Block 2, the length of Block 3 (which the
    patch does not change), the recompressed length of Block 4 and the length
    of Block 5 (which is passed through). *)
Theorem block2_header_total_includes_44 (sav_data : bytes) (blk : sav_blocks)
    (o : sav_output) :
  parse_sav_blocks sav_data = Ok blk ->
  rebuild sav_data = Ok (Some o) ->
  exists d2,
    decompress (block2_compressed blk) = Ok d2
    /\ out_block2 o = compress_lzss_lazy d2
    /\ len (out_block3 o) = len (block3_raw blk)
    /\ out_block5 o = block5_raw blk
    /\ out_block2_header o
       = build_block2_header (out_block2 o) (len d2)
           (44 + len (out_block2 o) + len (block3_raw blk)
            + len (out_block4 o) + len (block5_raw blk)).
Proof.
  intros Hp Hr. apply rebuild_sav_inv in Hr.
  destruct Hr as (blk0 & d1 & d2 & d4 & d4a & d4b & Hp0 & _ & H2 & _ & _ & _
                  & Hpatch & _ & E2 & _ & E5 & _ & Eh).
  rewrite Hp in Hp0. injection Hp0 as <-.
  apply patch_region4_spec in Hpatch; [|eapply region4_offset_nonneg; eassumption].
  destruct Hpatch as (_ & Hlen & _).
  exists d2. repeat split; auto.
  rewrite Eh. unfold remaining_after_block2_header. rewrite Hlen, E5. reflexivity.
Qed.

End PatchClaims.

(** *** The patch on the sample containers *)

(** Equalities between long byte strings are checked through the boolean
    comparisons, which evaluate to [true]. *)
Lemma sav_blocks_eqb_eq (a b : sav_blocks) : sav_blocks_eqb a b = true -> a = b.
Proof.
  unfold sav_blocks_eqb. intros H.
  repeat (apply andb_true_iff in H; destruct H as [H ?]).
  destruct a, b; cbn in *.
  repeat match goal with
         | E : bytes_eqb _ _ = true |- _ => apply bytes_eqb_eq in E
         | E : (_ =? _) = true |- _ => apply Z.eqb_eq in E
         end.
  congruence.
Qed.

Lemma sav_output_eqb_eq (a b : sav_output) : sav_output_eqb a b = true -> a = b.
Proof.
  unfold sav_output_eqb. intros H.
  repeat (apply andb_true_iff in H; destruct H as [H ?]).
  destruct a, b; cbn in *.
  repeat match goal with
         | E : bytes_eqb _ _ = true |- _ => apply bytes_eqb_eq in E
         end.
  congruence.
Qed.

Lemma option_eqb_eq {A : Type} (eqb : A -> A -> bool) (a b : option A) :
  (forall x y, eqb x y = true -> x = y) -> option_eqb eqb a b = true -> a = b.
Proof.
  intros Heq. destruct a, b; cbn; intros H; try discriminate; auto.
  f_equal. apply Heq, H.
Qed.

Lemma returns_sound {A : Type} (eqb : A -> A -> bool) (r : result A) (x : A) :
  (forall y z, eqb y z = true -> y = z) -> returns eqb r x = true -> r = Ok x.
Proof.
  intros Heq. destruct r; cbn; intros H; [|discriminate].
  f_equal. apply Heq, H.
Qed.

Lemma returns_bytes (r : result bytes) (x : bytes) :
  returns bytes_eqb r x = true -> r = Ok x.
Proof. apply returns_sound. intros y z. apply bytes_eqb_eq. Qed.

Lemma parse_sample_locked_sav :
  parse_sav_blocks sample_locked_sav = Ok sample_locked_blocks.
Proof.
  apply (returns_sound sav_blocks_eqb _ _ sav_blocks_eqb_eq).
  vm_compute. reflexivity.
Qed.

Lemma rebuild_sample_padded :
  rebuild_sav stored_decompress padding_compress sample_adler32
    sample_build_block1_header sample_build_block2_header sample_locked_sav
  = Ok (Some padded_patch_output).
Proof.
  apply (returns_sound (option_eqb sav_output_eqb)).
  - intros y z. apply option_eqb_eq, sav_output_eqb_eq.
  - vm_compute. reflexivity.
Qed.

Lemma region4_fields_after_patch_witness :
  parse_sav_blocks sample_locked_sav = Ok sample_locked_blocks
  /\ rebuild_sav stored_decompress padding_compress sample_adler32
       sample_build_block1_header sample_build_block2_header sample_locked_sav
     = Ok (Some padded_patch_output)
  /\ len (block4_compressed sample_locked_blocks) = 20723
  /\ len (out_block4 padded_patch_output) = 20724
  /\ le_uint (slice (out_block3 padded_patch_output) (51 + 1) (51 + 4))
     = len (out_block4 padded_patch_output)
  /\ le_uint (slice (out_block3 padded_patch_output) (51 + 9) (51 + 13))
     = sample_adler32 (out_block4 padded_patch_output).
Proof.
  split; [exact parse_sample_locked_sav|].
  split; [exact rebuild_sample_padded|].
  split; [vm_compute; reflexivity|].
  split; [vm_compute; reflexivity|].
  apply (region4_fields_after_patch
           stored_decompress padding_compress sample_adler32
           sample_build_block1_header sample_build_block2_header
           sample_locked_sav sample_locked_blocks padded_patch_output
           parse_sample_locked_sav rebuild_sample_padded).
  vm_compute. reflexivity.
Defined.

Lemma block2_header_total_includes_44_witness :
  parse_sav_blocks sample_locked_sav = Ok sample_locked_blocks
  /\ rebuild_sav stored_decompress padding_compress sample_adler32
       sample_build_block1_header sample_build_block2_header sample_locked_sav
     = Ok (Some padded_patch_output)
  /\ exists d2,
       stored_decompress (block2_compressed sample_locked_blocks) = Ok d2
       /\ out_block2 padded_patch_output = padding_compress d2
       /\ len (out_block3 padded_patch_output) = len (block3_raw sample_locked_blocks)
       /\ out_block5 padded_patch_output = block5_raw sample_locked_blocks
       /\ out_block2_header padded_patch_output
          = sample_build_block2_header (out_block2 padded_patch_output) (len d2)
              (44 + len (out_block2 padded_patch_output)
               + len (block3_raw sample_locked_blocks)
               + len (out_block4 padded_patch_output)
               + len (block5_raw sample_locked_blocks)).
Proof.
  split; [exact parse_sample_locked_sav|].
  split; [exact rebuild_sample_padded|].
  apply (block2_header_total_includes_44
           stored_decompress padding_compress sample_adler32
           sample_build_block1_header sample_build_block2_header
           sample_locked_sav sample_locked_blocks padded_patch_output
           parse_sample_locked_sav rebuild_sample_padded).
Defined.

(** C4 (as stated) fails: the builder that records its third argument shows
    a total 44 larger than the sum of the four lengths. *)
Lemma header_total_is_not_the_bare_sum :
  rebuild_sav stored_decompress padding_compress sample_adler32
    sample_build_block1_header sample_build_block2_header sample_locked_sav
  = Ok (Some padded_patch_output)
  /\ out_block2_header padded_patch_output
     <> sample_build_block2_header (out_block2 padded_patch_output) 3
          (len (out_block2 padded_patch_output) + len (out_block3 padded_patch_output)
           + len (out_block4 padded_patch_output)
           + len (out_block5 padded_patch_output)).
Proof.
  split; [exact rebuild_sample_padded|].
  intros H. apply (f_equal (fun h => nth 36 h 0)) in H. vm_compute in H.
  discriminate H.
Qed.

Lemma rebuild_sample_stored :
  rebuild_sav stored_decompress stored_compress sample_adler32
    sample_build_block1_header sample_build_block2_header sample_locked_sav
  = Ok (Some stored_patch_output).
Proof.
  apply (returns_sound (option_eqb sav_output_eqb)).
  - intros y z. apply option_eqb_eq, sav_output_eqb_eq.
  - vm_compute. reflexivity.
Qed.

Lemma parse_sample_patched :
  parse_sav_blocks (assemble stored_patch_output) = Ok sample_unlocked_blocks.
Proof.
  apply (returns_sound sav_blocks_eqb _ _ sav_blocks_eqb_eq).
  vm_compute. reflexivity.
Qed.

(** ** The region scan on a synthetic Block 3 *)

Lemma region_match_view (data : bytes) (pos : Z) :
  0 <= pos -> region_match data pos = match8 (skipn (Z.to_nat pos) data).
Proof.
  intros Hpos.
  unfold region_match, region_signature, region_size_at, byte_at, slice.
  replace (Z.to_nat (pos + 4)) with (4 + Z.to_nat pos)%nat by lia.
  replace (Z.to_nat (pos + 1)) with (1 + Z.to_nat pos)%nat by lia.
  replace (Z.to_nat (pos + 8 - (pos + 4))) with 4%nat by lia.
  replace (Z.to_nat (pos + 4 - (pos + 1))) with 3%nat by lia.
  rewrite <- !skipn_skipn.
  replace (nth (Z.to_nat pos) data 0) with (nth 0 (skipn (Z.to_nat pos) data) 0)
    by (rewrite nth_skipn; f_equal; lia).
  generalize (skipn (Z.to_nat pos) data) as l. intros l.
  destruct l as [|b0 [|b1 [|b2 [|b3 [|b4 [|b5 [|b6 [|b7 l]]]]]]]];
    cbn [skipn firstn nth bytes_eqb match8 app];
    rewrite ?andb_false_r; reflexivity.
Qed.

Lemma region_size_view (data : bytes) (pos : Z) :
  0 <= pos -> pos < len data - 8 ->
  region_size_at data pos = size8 (skipn (Z.to_nat pos) data).
Proof.
  intros Hpos Hlt.
  unfold region_size_at, slice.
  replace (Z.to_nat (pos + 1)) with (1 + Z.to_nat pos)%nat by lia.
  replace (Z.to_nat (pos + 4 - (pos + 1))) with 3%nat by lia.
  rewrite <- skipn_skipn.
  assert (Hl : (8 < length (skipn (Z.to_nat pos) data))%nat).
  { rewrite length_skipn. unfold len in Hlt. lia. }
  revert Hl. generalize (skipn (Z.to_nat pos) data) as l. intros l Hl.
  destruct l as [|b0 [|b1 [|b2 [|b3 l]]]]; cbn [length] in Hl; try lia.
  reflexivity.
Qed.

Lemma match8_app_long (l rest : bytes) :
  (8 <= length l)%nat -> match8 (l ++ rest) = match8 l.
Proof.
  intros H.
  destruct l as [|b0 [|b1 [|b2 [|b3 [|b4 [|b5 [|b6 [|b7 l]]]]]]]];
    cbn [length] in H; try lia.
  reflexivity.
Qed.

Lemma le_uint_size_bytes (size : Z) :
  0 <= size < 16777216 ->
  le_uint [size mod 256; (size / 256) mod 256; (size / 65536) mod 256; 0x00] = size.
Proof.
  intros H. cbn [le_uint]. pose proof (byte_digits size) as E.
  rewrite (Z.div_small size 16777216) in E by lia. lia.
Qed.

(** A position whose eight bytes run from the filler into the next header
    never passes the test, whatever the filler holds. *)
Lemma match8_straddle (l rest : bytes) (size : Z) :
  (0 < length l < 8)%nat -> 0 < size < 50000 ->
  match8 (l ++ region_header size ++ rest) = false.
Proof.
  intros Hl Hs. unfold region_header.
  rewrite (Z.div_small size 65536) by lia.
  change (0 mod 256) with 0.
  destruct l as [|b0 [|b1 [|b2 [|b3 [|b4 [|b5 [|b6 [|b7 l]]]]]]]];
    cbn [length] in Hl; try lia;
    cbn [app match8];
    repeat match goal with
           | |- context [?x =? ?y] =>
               lazymatch x with
               | Z0 => fail
               | Zpos _ => fail
               | _ => destruct (x =? y)
               end
           end;
    reflexivity.
Qed.

Lemma match8_header (rest : bytes) (size : Z) :
  0 < size < 50000 ->
  match8 (region_header size ++ rest) = true
  /\ size8 (region_header size ++ rest) = size.
Proof.
  intros Hs. unfold region_header. cbn [app match8 size8].
  rewrite le_uint_size_bytes by lia.
  split; [|reflexivity].
  destruct (Z.ltb_spec 0 size); destruct (Z.ltb_spec size 50000);
    reflexivity || lia.
Qed.

Lemma no_signature_at (filler : bytes) (j : nat) :
  no_signature filler = true -> (j < length filler)%nat ->
  match8 (skipn j filler) = false.
Proof.
  unfold no_signature. intros H Hj.
  rewrite forallb_forall in H.
  specialize (H j ltac:(apply in_seq; lia)).
  apply negb_true_iff in H.
  rewrite region_match_view in H by lia.
  rewrite Nat2Z.id in H. exact H.
Qed.

Lemma len_cons (x : Z) (l : bytes) : len (x :: l) = len l + 1.
Proof. unfold len. cbn [length]. lia. Qed.

Lemma len_region_header (size : Z) : len (region_header size) = 8.
Proof. reflexivity. Qed.

(** One step of the [while] loop. *)
Lemma find_region_miss (fuel : nat) (data : bytes) (pos : Z) :
  pos < len data - 8 -> region_match data pos = false ->
  find_region (S fuel) data pos = find_region fuel data (pos + 1).
Proof.
  intros Hlt Hm. cbn [find_region].
  destruct (Z.ltb_spec pos (len data - 8)); [|lia].
  unfold region_match in Hm.
  destruct (region_signature data pos); [|reflexivity].
  cbn [andb] in Hm. rewrite Hm. reflexivity.
Qed.

Lemma find_region_hit (fuel : nat) (data : bytes) (pos : Z) :
  pos < len data - 8 -> region_match data pos = true ->
  find_region (S fuel) data pos
  = (Some (pos, region_size_at data pos), pos + 8 + region_size_at data pos + 5).
Proof.
  intros Hlt Hm. cbn [find_region].
  destruct (Z.ltb_spec pos (len data - 8)); [|lia].
  unfold region_match in Hm. apply andb_true_iff in Hm. destruct Hm as [Hsig Hsz].
  rewrite Hsig, Hsz. reflexivity.
Qed.

Lemma skipn_len_app (a b : bytes) (j : nat) :
  skipn (Z.to_nat (len a + Z.of_nat j)) (a ++ b) = skipn j b.
Proof.
  unfold len. replace (Z.to_nat (Z.of_nat (length a) + Z.of_nat j))
    with (length a + j)%nat by lia.
  rewrite skipn_app, skipn_all2 by lia.
  cbn [app]. f_equal. lia.
Qed.

(** The scan walks through a filler and stops on the header behind it. *)
Lemma find_region_through_filler (pre filler body rest : bytes) (size : Z)
    (k fuel : nat) :
  no_signature filler = true -> 0 < size < 50000 -> body <> [] ->
  (k <= length filler)%nat ->
  let data := pre ++ filler ++ region_header size ++ body ++ rest in
  let offset := len pre + len filler in
  find_region (k + S fuel) data (offset - Z.of_nat k)
  = (Some (offset, size), offset + 8 + size + 5).
Proof.
  intros Hf Hs Hbody. cbv zeta. induction k as [|k IH]; intros Hk.
  - (* on the header *)
    cbn [Nat.add]. rewrite Z.sub_0_r.
    assert (Hlt : len pre + len filler
                  < len (pre ++ filler ++ region_header size ++ body ++ rest) - 8).
    { rewrite !len_app, len_region_header.
      destruct body; [contradiction|]. rewrite len_cons.
      pose proof (len_nonneg rest). pose proof (len_nonneg body). lia. }
    assert (Hview : skipn (Z.to_nat (len pre + len filler))
                      (pre ++ filler ++ region_header size ++ body ++ rest)
                    = region_header size ++ body ++ rest).
    { rewrite app_assoc. rewrite <- len_app.
      replace (len (pre ++ filler)) with (len (pre ++ filler) + Z.of_nat 0) by lia.
      rewrite skipn_len_app. reflexivity. }
    pose proof (len_nonneg pre). pose proof (len_nonneg filler).
    destruct (match8_header (body ++ rest) size Hs) as [Hm Hz].
    rewrite find_region_hit; [|exact Hlt|].
    + rewrite region_size_view by lia. rewrite Hview, Hz. reflexivity.
    + rewrite region_match_view by lia. rewrite Hview. exact Hm.
  - (* inside the filler *)
    cbn [Nat.add].
    pose proof (len_nonneg pre). pose proof (len_nonneg filler).
    assert (Hpos : len pre + len filler - Z.of_nat (S k)
                   = len pre + Z.of_nat (length filler - S k)).
    { unfold len. lia. }
    rewrite find_region_miss.
    + replace (len pre + len filler - Z.of_nat (S k) + 1)
        with (len pre + len filler - Z.of_nat k) by lia.
      apply IH. lia.
    + rewrite !len_app, len_region_header.
      destruct body; [contradiction|]. rewrite len_cons.
      pose proof (len_nonneg rest). pose proof (len_nonneg body). lia.
    + rewrite region_match_view by lia. rewrite Hpos, skipn_len_app.
      destruct (Nat.leb_spec 8 (S k)) as [Hlong|Hshort].
      * rewrite skipn_app.
        replace (length filler - S k - length filler)%nat with 0%nat by lia.
        cbn [skipn]. rewrite match8_app_long by (rewrite length_skipn; lia).
        apply no_signature_at; [exact Hf | lia].
      * rewrite skipn_app.
        replace (length filler - S k - length filler)%nat with 0%nat by lia.
        cbn [skipn]. apply match8_straddle; [rewrite length_skipn; lia | exact Hs].
Qed.

Lemma len_layout_cons (r : region) (regions : list region) (tail : bytes) :
  len (layout (r :: regions) tail)
  = len (r_filler r) + 8 + len (r_body r) + len (layout regions tail).
Proof. cbn [layout]. rewrite !len_app, len_region_header. lia. Qed.

Lemma well_formed_body (r : region) : well_formed_region r -> r_body r <> [].
Proof.
  intros (_ & Hs & Hb) E. rewrite E in Hb. unfold len in Hb. cbn [length] in Hb. lia.
Qed.

(** Started anywhere in the filler in front of a region, [k] bytes before its
    header, the [while] loop records that region and leaves the cursor just
    past its trailer. *)
Lemma find_region_in_layout (pre tail : bytes) (r : region) (regions : list region)
    (k : nat) :
  well_formed_region r -> (k <= length (r_filler r))%nat ->
  let data := pre ++ layout (r :: regions) tail in
  let offset := len pre + len (r_filler r) in
  find_region (length data) data (offset - Z.of_nat k)
  = (Some (offset, r_size r), offset + 8 + r_size r + 5).
Proof.
  intros Hwf Hk. cbv zeta. pose proof (well_formed_body r Hwf) as Hbody.
  destruct Hwf as (Hf & Hs & Hb). cbn [layout].
  assert (Hlen : (length (pre ++ r_filler r ++ region_header (r_size r)
                          ++ r_body r ++ layout regions tail)
                  = k + S (length pre + (length (r_filler r) - k) + 7
                           + length (r_body r ++ layout regions tail)))%nat).
  { rewrite !length_app. unfold region_header. cbn [length]. lia. }
  rewrite Hlen at 1.
  apply (find_region_through_filler pre (r_filler r) (r_body r)
           (layout regions tail) (r_size r) k); assumption.
Qed.

Lemma scan_loop_layout (regions : list region) (pre tail : bytes) :
  Forall well_formed_region regions ->
  scan_loop (length regions) (pre ++ layout regions tail) (len pre)
  = (expected_regions (len pre) regions, end_of_regions (len pre) regions).
Proof.
  revert pre. induction regions as [|r regions IH]; intros pre Hall.
  - reflexivity.
  - inversion Hall as [|? ? Hwf Hrest]; subst.
    cbn [length scan_loop expected_regions end_of_regions].
    pose proof (find_region_in_layout pre tail r regions (length (r_filler r))
                  Hwf (Nat.le_refl _)) as Hfind.
    cbv zeta in Hfind.
    replace (len pre + len (r_filler r) - Z.of_nat (length (r_filler r)))
      with (len pre) in Hfind by (unfold len; lia).
    rewrite Hfind.
    destruct Hwf as (_ & _ & Hb).
    assert (Hdata : pre ++ layout (r :: regions) tail
                    = (pre ++ r_filler r ++ region_header (r_size r) ++ r_body r)
                      ++ layout regions tail).
    { cbn [layout]. rewrite <- !app_assoc. reflexivity. }
    assert (Hpre : len (pre ++ r_filler r ++ region_header (r_size r) ++ r_body r)
                   = len pre + len (r_filler r) + 8 + r_size r + 5).
    { rewrite !len_app, len_region_header, Hb. lia. }
    rewrite Hdata, <- Hpre, (IH _ Hrest). reflexivity.
Qed.

(** A scan started on the header of any region of the layout records that
    region and jumps past header, payload and trailer. *)
Lemma find_region_on_each_header (regions : list region) (pre tail : bytes) :
  Forall well_formed_region regions ->
  let data := pre ++ layout regions tail in
  Forall (fun r => find_region (length data) data (fst r)
                   = (Some r, fst r + 8 + snd r + 5))
         (expected_regions (len pre) regions).
Proof.
  revert pre. induction regions as [|r regions IH]; intros pre Hall; cbv zeta.
  - constructor.
  - inversion Hall as [|? ? Hwf Hrest]; subst.
    cbn [expected_regions]. constructor.
    + cbn [fst snd].
      pose proof (find_region_in_layout pre tail r regions 0 Hwf (Nat.le_0_l _)) as H.
      cbv zeta in H. rewrite Z.sub_0_r in H. exact H.
    + destruct Hwf as (_ & _ & Hb).
      assert (Hdata : pre ++ layout (r :: regions) tail
                      = (pre ++ r_filler r ++ region_header (r_size r) ++ r_body r)
                        ++ layout regions tail).
      { cbn [layout]. rewrite <- !app_assoc. reflexivity. }
      assert (Hpre : len (pre ++ r_filler r ++ region_header (r_size r) ++ r_body r)
                     = len pre + len (r_filler r) + 8 + r_size r + 5).
      { rewrite !len_app, len_region_header, Hb. lia. }
      rewrite Hdata, <- Hpre. apply (IH _ Hrest).
Qed.

Lemma expected_regions_from_base (regions : list region) (base : Z) :
  Forall well_formed_region regions ->
  Forall (fun r => base <= fst r) (expected_regions base regions).
Proof.
  revert base. induction regions as [|r regions IH]; intros base Hall.
  - constructor.
  - inversion Hall as [|? ? Hwf Hrest]; subst. cbn [expected_regions].
    pose proof (len_nonneg (r_filler r)). destruct Hwf as (_ & Hs & _).
    constructor; [cbn [fst]; lia|].
    eapply Forall_impl; [|apply (IH _ Hrest)]. cbn beta. intros a Ha. lia.
Qed.

Lemma expected_regions_increasing (regions : list region) (base : Z) :
  Forall well_formed_region regions ->
  StronglySorted (fun a b => fst a < fst b) (expected_regions base regions).
Proof.
  revert base. induction regions as [|r regions IH]; intros base Hall.
  - constructor.
  - inversion Hall as [|? ? Hwf Hrest]; subst. cbn [expected_regions].
    constructor; [apply (IH _ Hrest)|].
    destruct Hwf as (_ & Hs & _).
    eapply Forall_impl; [|apply (expected_regions_from_base _ _ Hrest)].
    cbn beta. intros a Ha. cbn [fst]. lia.
Qed.

(** C5. A buffer made of four well-formed regions, each behind a filler that
    holds no matching signature, and followed by anything: started at the
    first filler, the scan records exactly the four (offset, size) pairs of
    the layout, in increasing order of offset, whatever the lengths of the
    fillers; it ends just past the fourth region; and at each header the
    cursor jumps by 8 + size + 5. *)
Theorem scan_records_the_four_regions (pre tail : bytes) (regions : list region) :
  length regions = 4%nat ->
  Forall well_formed_region regions ->
  let data := pre ++ layout regions tail in
  let start := len pre in
  scan_regions data start = expected_regions start regions
  /\ scan_loop 4 data start
     = (expected_regions start regions, end_of_regions start regions)
  /\ StronglySorted (fun a b => fst a < fst b) (expected_regions start regions)
  /\ Forall (fun r => find_region (length data) data (fst r)
                      = (Some r, fst r + 8 + snd r + 5))
            (expected_regions start regions).
Proof.
  intros H4 Hall. cbv zeta.
  pose proof (scan_loop_layout regions pre tail Hall) as Hscan.
  rewrite H4 in Hscan.
  split; [unfold scan_regions; rewrite Hscan; reflexivity|].
  split; [exact Hscan|].
  split; [apply expected_regions_increasing, Hall|].
  apply find_region_on_each_header, Hall.
Qed.

Lemma sample_regions_well_formed : Forall well_formed_region sample_regions.
Proof.
  unfold sample_regions.
  repeat constructor; cbn [r_filler r_size r_body]; vm_compute; congruence.
Qed.

Lemma scan_records_the_four_regions_witness :
  scan_regions (repeat 0x00 88 ++ layout sample_regions [0xD1; 0xD2; 0x01]) 88
  = [(92, 1); (106, 2); (130, 300); (448, 4)].
Proof.
  exact (proj1 (scan_records_the_four_regions
                  (repeat 0x00 88) [0xD1; 0xD2; 0x01] sample_regions
                  eq_refl sample_regions_well_formed)).
Defined.

(** ** The compact-format decoder *)

Lemma bump_stats_add (k : counter) (a s : stats) :
  bump k (stats_add a s) = stats_add a (bump k s).
Proof.
  destruct a, s. unfold stats_add.
  cbn [table_refs extended_1c04 array_173c value_1500 value_1200 fixed32_0502
       varint_1405 type_ref_1006 prefix_1809 prefix_1907 prefix_1902 prefix_16e1
       unknown marker_6D marker_DB marker_CD].
  destruct k; cbn [bump table_refs extended_1c04 array_173c value_1500 value_1200
       fixed32_0502 varint_1405 type_ref_1006 prefix_1809 prefix_1907 prefix_1902
       prefix_16e1 unknown marker_6D marker_DB marker_CD];
    rewrite Z.add_assoc; reflexivity.
Qed.

Lemma stats_add_init_r (a : stats) : stats_add a init_stats = a.
Proof.
  destruct a. unfold stats_add, init_stats.
  cbn [table_refs extended_1c04 array_173c value_1500 value_1200 fixed32_0502
       varint_1405 type_ref_1006 prefix_1809 prefix_1907 prefix_1902 prefix_16e1
       unknown marker_6D marker_DB marker_CD].
  rewrite !Z.add_0_r. reflexivity.
Qed.

Lemma stats_add_init_l (a : stats) : stats_add init_stats a = a.
Proof. destruct a. reflexivity. Qed.

(** *** The counters only accumulate

    Every [_parse_*] method touches [self.stats] by increments alone, so a
    step run on a parser that already holds counters yields the same entry
    and the same increments on top of them. *)

Ltac shift_cases :=
  repeat (match goal with
          | |- context [if ?c then _ else _] => destruct c
          | |- context [bind ?r _] => destruct r
          | |- context [let '(_, _) := ?p in _] => destruct p
          end; cbv beta iota; cbn [bind]);
  cbn [shift_parsed]; rewrite <- ?bump_stats_add; reflexivity.

Lemma _parse_table_ref_shift (data : bytes) (pos : Z) (a s : stats) :
  _parse_table_ref data pos (stats_add a s)
  = shift_parsed a (_parse_table_ref data pos s).
Proof. unfold _parse_table_ref. shift_cases. Qed.

Lemma _parse_extended_1c_shift (data : bytes) (pos : Z) (a s : stats) :
  _parse_extended_1c data pos (stats_add a s)
  = shift_parsed a (_parse_extended_1c data pos s).
Proof.
  unfold _parse_extended_1c.
  destruct (pos + 3 >? len data); [reflexivity|].
  match goal with |- context [bind ?r _] => destruct r as [[v c]|] end;
    cbn [bind shift_parsed]; rewrite <- ?bump_stats_add; reflexivity.
Qed.

Lemma _parse_array_element_shift (data : bytes) (pos : Z) (a s : stats) :
  _parse_array_element data pos (stats_add a s)
  = shift_parsed a (_parse_array_element data pos s).
Proof.
  unfold _parse_array_element.
  destruct (pos + 3 >? len data); [reflexivity|].
  match goal with |- context [bind ?r _] => destruct r as [[v c]|] end;
    cbn [bind shift_parsed]; rewrite <- ?bump_stats_add; reflexivity.
Qed.

Lemma _parse_value_15_shift (data : bytes) (pos : Z) (a s : stats) :
  _parse_value_15 data pos (stats_add a s)
  = shift_parsed a (_parse_value_15 data pos s).
Proof. unfold _parse_value_15. shift_cases. Qed.

Lemma _parse_value_12_shift (data : bytes) (pos : Z) (a s : stats) :
  _parse_value_12 data pos (stats_add a s)
  = shift_parsed a (_parse_value_12 data pos s).
Proof. unfold _parse_value_12. shift_cases. Qed.

Lemma _parse_fixed32_shift (data : bytes) (pos : Z) (a s : stats) :
  _parse_fixed32 data pos (stats_add a s)
  = shift_parsed a (_parse_fixed32 data pos s).
Proof. unfold _parse_fixed32. shift_cases. Qed.

Lemma _parse_varint_shift (data : bytes) (pos : Z) (a s : stats) :
  _parse_varint data pos (stats_add a s)
  = shift_parsed a (_parse_varint data pos s).
Proof. unfold _parse_varint. shift_cases. Qed.

Lemma _parse_type_ref_shift (data : bytes) (pos : Z) (a s : stats) :
  _parse_type_ref data pos (stats_add a s)
  = shift_parsed a (_parse_type_ref data pos s).
Proof.
  unfold _parse_type_ref.
  destruct (pos + 4 >? len data); [reflexivity|].
  cbn [shift_parsed]. rewrite <- bump_stats_add. reflexivity.
Qed.

Lemma _parse_prefix_1809_shift (data : bytes) (pos : Z) (a s : stats) :
  _parse_prefix_1809 data pos (stats_add a s)
  = shift_parsed a (_parse_prefix_1809 data pos s).
Proof. unfold _parse_prefix_1809. shift_cases. Qed.

Lemma _parse_prefix_1907_shift (data : bytes) (pos : Z) (a s : stats) :
  _parse_prefix_1907 data pos (stats_add a s)
  = shift_parsed a (_parse_prefix_1907 data pos s).
Proof. unfold _parse_prefix_1907. shift_cases. Qed.

Lemma _parse_prefix_0c18_shift (data : bytes) (pos : Z) (a s : stats) :
  _parse_prefix_0c18 data pos (stats_add a s)
  = shift_parsed a (_parse_prefix_0c18 data pos s).
Proof. unfold _parse_prefix_0c18. shift_cases. Qed.

Lemma _parse_prefix_1013_shift (data : bytes) (pos : Z) (a s : stats) :
  _parse_prefix_1013 data pos (stats_add a s)
  = shift_parsed a (_parse_prefix_1013 data pos s).
Proof. unfold _parse_prefix_1013. shift_cases. Qed.

Lemma _parse_prefix_1830_shift (data : bytes) (pos : Z) (a s : stats) :
  _parse_prefix_1830 data pos (stats_add a s)
  = shift_parsed a (_parse_prefix_1830 data pos s).
Proof. unfold _parse_prefix_1830. shift_cases. Qed.

Lemma _parse_prefix_140e_shift (data : bytes) (pos : Z) (a s : stats) :
  _parse_prefix_140e data pos (stats_add a s)
  = shift_parsed a (_parse_prefix_140e data pos s).
Proof. unfold _parse_prefix_140e. shift_cases. Qed.

Lemma _parse_prefix_1902_shift (data : bytes) (pos : Z) (a s : stats) :
  _parse_prefix_1902 data pos (stats_add a s)
  = shift_parsed a (_parse_prefix_1902 data pos s).
Proof. unfold _parse_prefix_1902. shift_cases. Qed.

Lemma _parse_prefix_16e1_shift (data : bytes) (pos : Z) (a s : stats) :
  _parse_prefix_16e1 data pos (stats_add a s)
  = shift_parsed a (_parse_prefix_16e1 data pos s).
Proof. unfold _parse_prefix_16e1. shift_cases. Qed.

Create HintDb shift.

#[local] Hint Resolve
  _parse_table_ref_shift _parse_extended_1c_shift _parse_array_element_shift
  _parse_value_15_shift _parse_value_12_shift _parse_fixed32_shift
  _parse_varint_shift _parse_type_ref_shift _parse_prefix_1809_shift
  _parse_prefix_1907_shift _parse_prefix_0c18_shift _parse_prefix_1013_shift
  _parse_prefix_1830_shift _parse_prefix_140e_shift _parse_prefix_1902_shift
  _parse_prefix_16e1_shift : shift.

Lemma _parse_entry_shift (data : bytes) (pos : Z) (a s : stats) :
  _parse_entry data pos (stats_add a s) = shift_parsed a (_parse_entry data pos s).
Proof.
  unfold _parse_entry.
  destruct (pos >=? len data - 1); [reflexivity|].
  repeat match goal with
         | |- (if ?c then _ else _) = _ =>
             destruct c; [solve [auto with shift]|]
         end.
  repeat match goal with
         | |- (if ?c then _ else _) = _ =>
             destruct c;
             [cbn [shift_parsed]; rewrite <- bump_stats_add; reflexivity|]
         end.
  reflexivity.
Qed.

Lemma parse_loop_shift (fuel : nat) (data : bytes) (pos : Z) (a s : stats)
    (acc : list ParsedEntry) :
  parse_loop fuel data pos (stats_add a s) acc
  = shift_loop a (parse_loop fuel data pos s acc).
Proof.
  revert pos s acc. induction fuel as [|fuel IH]; intros pos s acc.
  - reflexivity.
  - cbn [parse_loop]. destruct (pos <? len data - 1); [|reflexivity].
    rewrite _parse_entry_shift.
    destruct (_parse_entry data pos s) as [[[e c] d]|]; cbn [shift_parsed bind];
      [|reflexivity].
    destruct e as [e|].
    + apply IH.
    + rewrite bump_stats_add. apply IH.
Qed.

Lemma parse_shift (data : bytes) (a s : stats) :
  parse data (stats_add a s) = shift_block a (parse data s).
Proof.
  unfold parse.
  destruct (CompactHeader_parse data 0) as [h|]; cbn [bind]; [|reflexivity].
  rewrite parse_loop_shift.
  destruct (parse_loop (length data) data (_find_first_table_ref data) s [])
    as [[[es p] d]|]; reflexivity.
Qed.

(** C8 (as amended). The block decoded from a buffer, its entry sequence
    included, does not depend on the counters the parser holds on entry, and
    the counters it holds on return are those it held on entry plus the
    counts of this decode.  Two decodes on fresh parsers therefore agree on
    entries and counts, while on one parser the counts of the first decode
    stay in the second one's. *)
Theorem parse_adds_to_the_counters (data : bytes) (st : stats) :
  parse data st
  = match parse data init_stats with
    | Ok (block, counts) => Ok (block, stats_add st counts)
    | Raise e => Raise e
    end.
Proof.
  rewrite <- (stats_add_init_r st) at 1. apply parse_shift.
Qed.

(** C8 (as stated) fails: decoded again on the same parser, the sample payload
    is reported with twice the counts. *)
Lemma counters_persist_between_calls :
  exists block st1 st2,
    parse sample_payload init_stats = Ok (block, st1)
    /\ parse sample_payload st1 = Ok (block, st2)
    /\ table_refs st1 = 1 /\ table_refs st2 = 2
    /\ value_1500 st1 = 1 /\ value_1500 st2 = 2
    /\ st1 <> st2.
Proof.
  do 3 eexists.
  split; [vm_compute; reflexivity|].
  split; [vm_compute; reflexivity|].
  repeat (split; [reflexivity|]).
  discriminate.
Qed.

(** *** The sample payload *)

(** C2 (as amended). The 19-byte payload decodes without error to exactly two
    entries, the TABLE_REF with table 0x05 and property 0x02 and the VALUE_15
    with value 0xDDCCBBAA, and no byte is counted as unclassified; its last
    byte, 0x6D, lies at [len(data) - 1], where the loop has already stopped,
    so no marker entry is produced and the 0x6D counter stays at zero. *)
Theorem sample_payload_decodes_to_two_entries :
  exists block st,
    parse sample_payload init_stats = Ok (block, st)
    /\ map (fun e => (offset e, prefix_type e, size e)) (entries block)
       = [(8, TABLE_REF, 4); (12, VALUE_15, 6)]
    /\ map data (entries block)
       = [DataTableRef {| tr_offset := 8; table_id := 0x05; property_id := 0x02;
                          type_hash := Some 0x0B1CA4FF;
                          type_name := Some "CompactType_05"%string |};
          DataFixed {| fv_offset := 12; fv_prefix := 0x1500;
                       fv_value := 0xDDCCBBAA;
                       fv_raw_bytes := [0x15; 0x00; 0xAA; 0xBB; 0xCC; 0xDD] |}]
    /\ unknown st = 0
    /\ marker_6D st = 0.
Proof.
  do 2 eexists. split; [vm_compute; reflexivity|].
  repeat split; reflexivity.
Qed.

(** C2 (as stated) fails: the decode of the payload has no third entry. *)
Lemma sample_payload_has_no_third_entry :
  ~ exists block st,
      parse sample_payload init_stats = Ok (block, st)
      /\ length (entries block) = 3%nat.
Proof.
  intros (block & st & H & L). vm_compute in H.
  injection H as <- _. cbn [entries length] in L. discriminate L.
Qed.

(** *** Variable-length integers *)

Lemma read_varint_loop_bound (fuel : nat) (data : bytes) (pos r sh c : Z) :
  0 <= c <= 5 ->
  c <= snd (read_varint_loop fuel data pos r sh c) <= 6.
Proof.
  revert r sh c. induction fuel as [|fuel IH]; intros r sh c Hc.
  - cbn [read_varint_loop snd]. lia.
  - cbn [read_varint_loop].
    destruct (pos + c <? len data); [|cbn [snd]; lia].
    destruct (Z.land (byte_at data (pos + c)) 128 =? 0); [cbn [snd]; lia|].
    destruct (Z.gtb_spec (c + 1) 5); [cbn [snd]; lia|].
    specialize (IH (Z.lor r (Z.shiftl (Z.land (byte_at data (pos + c)) 127) sh))
                   (sh + 7) (c + 1) ltac:(lia)).
    lia.
Qed.

(** C9. The code contradicts the cap of five bytes: on a varint whose bytes
    all carry the continuation bit, [_read_varint] consumes six bytes, and
    the VARINT entry built on it consumes eight. *)
Theorem varint_consumes_six_bytes :
  _read_varint long_varint 2 = (4398046511103, 6)
  /\ exists e st,
       _parse_varint long_varint 0 init_stats = Ok (Some e, 8, st)
       /\ size e = 8
       /\ data e = DataVarint 4398046511103
                     [0x14; 0x05; 0xFF; 0xFF; 0xFF; 0xFF; 0xFF; 0xFF].
Proof.
  split; [vm_compute; reflexivity|].
  do 2 eexists. split; [vm_compute; reflexivity|].
  split; reflexivity.
Qed.

(** *** Every step advances the cursor *)

Lemma read_u8_or_none_consumed (data : bytes) (pos c : Z) (v : pyvalue) :
  read_u8_or_none data pos = Ok (v, c) -> 3 <= c <= 5.
Proof.
  unfold read_u8_or_none. destruct (pos + 4 <=? len data);
    intros H; injection H; intros; lia.
Qed.

Lemma read_u16_or_none_consumed (data : bytes) (pos c : Z) (v : pyvalue) :
  read_u16_or_none data pos = Ok (v, c) -> 3 <= c <= 5.
Proof.
  unfold read_u16_or_none. destruct (pos + 5 <=? len data).
  - destruct (unpack_H (slice data (pos + 3) (pos + 5))); cbn [bind];
      intros H; [injection H; intros; lia | discriminate H].
  - intros H. injection H; intros; lia.
Qed.

Lemma extended_scan_bounds (fuel : nat) (data : bytes) (pos e : Z) :
  e <= pos + 8 ->
  e <= extended_scan fuel data pos e <= pos + 8.
Proof.
  revert e. induction fuel as [|fuel IH]; intros e He; cbn [extended_scan].
  - lia.
  - destruct (Z.ltb_spec e (len data)); destruct (Z.ltb_spec e (pos + 8));
      cbn [andb]; try lia.
    destruct (is_prefix_lead (byte_at data e)); [lia|].
    destruct (is_marker (byte_at data e)); [lia|].
    specialize (IH (e + 1) ltac:(lia)). lia.
Qed.

#[local] Arguments extended_scan : simpl never.

Ltac consumed_cases H :=
  repeat (match type of H with
          | context [if ?c then _ else _] => destruct c
          | context [bind ?r _] => destruct r
          end; cbv beta iota in H; cbn [bind] in H);
  try discriminate H; injection H; intros; lia.

Lemma _parse_extended_1c_consumed (data : bytes) (pos c : Z) (st st' : stats)
    (e : ParsedEntry) :
  _parse_extended_1c data pos st = Ok (Some e, c, st') -> 3 <= c <= 8.
Proof.
  unfold _parse_extended_1c. intros H.
  destruct (pos + 3 >? len data); [discriminate H|].
  match type of H with
  | context [bind ?r _] => destruct r as [[v c0]|] eqn:Hvc
  end; cbn [bind] in H; [|discriminate H].
  assert (Hc0 : 3 <= c0 <= 8).
  { destruct (byte_at data (pos + 2) =? 8);
      [apply read_u8_or_none_consumed in Hvc; lia|].
    destruct (existsb (Z.eqb (byte_at data (pos + 2))) [10; 11]);
      [apply read_u16_or_none_consumed in Hvc; lia|].
    destruct (existsb (Z.eqb (byte_at data (pos + 2))) [36; 37; 33; 35]);
      [|apply read_u16_or_none_consumed in Hvc; lia].
    injection Hvc as _ <-.
    pose proof (extended_scan_bounds 5 data pos (pos + 3) ltac:(lia)). lia. }
  injection H; intros; lia.
Qed.

Lemma _parse_array_element_consumed (data : bytes) (pos c : Z) (st st' : stats)
    (e : ParsedEntry) :
  _parse_array_element data pos st = Ok (Some e, c, st') -> 3 <= c <= 7.
Proof.
  unfold _parse_array_element. intros H.
  destruct (pos + 3 >? len data); [discriminate H|].
  match type of H with
  | context [bind ?r _] => destruct r as [[v c0]|] eqn:Hvc
  end; cbn [bind] in H; [|discriminate H].
  assert (Hc0 : 3 <= c0 <= 7).
  { destruct (byte_at data (pos + 2) =? 0).
    - destruct (pos + 6 <=? len data).
      + destruct (unpack_I (slice data (pos + 3) (pos + 7))); cbn [bind] in Hvc;
          [injection Hvc; intros; lia | discriminate Hvc].
      + injection Hvc; intros; lia.
    - assert (3 <= c0 <= 5); [|lia].
      destruct (byte_at data (pos + 2) =? 8);
        [eapply read_u8_or_none_consumed; eassumption|].
      destruct (byte_at data (pos + 2) =? 26);
        [eapply read_u16_or_none_consumed; eassumption|].
      destruct (existsb (Z.eqb (byte_at data (pos + 2))) [10; 11; 14]);
        eapply read_u16_or_none_consumed; eassumption. }
  injection H; intros; lia.
Qed.

Lemma _read_varint_consumed (data : bytes) (pos : Z) :
  0 <= snd (_read_varint data pos) <= 6.
Proof. unfold _read_varint. apply read_varint_loop_bound. lia. Qed.

Lemma _parse_varint_consumed (data : bytes) (pos c : Z) (st st' : stats)
    (e : ParsedEntry) :
  _parse_varint data pos st = Ok (Some e, c, st') -> 2 <= c <= 8.
Proof.
  unfold _parse_varint. intros H.
  destruct (pos + 3 >? len data); [discriminate H|].
  pose proof (_read_varint_consumed data (pos + 2)) as Hb.
  destruct (_read_varint data (pos + 2)) as [v n]. cbn [snd] in Hb.
  cbv beta iota zeta in H.
  assert (2 + n = c) by congruence. lia.
Qed.

(** An entry always consumes between 1 and 8 bytes. *)
Lemma _parse_entry_consumed (data : bytes) (pos c : Z) (st st' : stats)
    (e : ParsedEntry) :
  _parse_entry data pos st = Ok (Some e, c, st') -> 1 <= c <= 8.
Proof.
  unfold _parse_entry. intros H.
  destruct (pos >=? len data - 1); [discriminate H|].
  destruct (_ && _) in H;
    [unfold _parse_table_ref in H; consumed_cases H|].
  destruct (_ && _) in H;
    [apply _parse_extended_1c_consumed in H; lia|].
  destruct (_ && _) in H;
    [apply _parse_array_element_consumed in H; lia|].
  destruct (_ && _) in H;
    [unfold _parse_value_15 in H; consumed_cases H|].
  destruct (_ && _) in H;
    [unfold _parse_value_12 in H; consumed_cases H|].
  destruct (_ && _) in H;
    [unfold _parse_fixed32 in H; consumed_cases H|].
  destruct (_ && _) in H;
    [apply _parse_varint_consumed in H; lia|].
  destruct (_ && _) in H;
    [unfold _parse_type_ref in H;
     destruct (pos + 4 >? len data); [discriminate H | injection H; intros; lia]|].
  destruct (_ && _) in H;
    [unfold _parse_prefix_1809 in H; consumed_cases H|].
  destruct (_ && _) in H;
    [unfold _parse_prefix_1907 in H; consumed_cases H|].
  destruct (_ && _) in H;
    [unfold _parse_prefix_0c18 in H; consumed_cases H|].
  destruct (_ && _) in H;
    [unfold _parse_prefix_1013 in H; consumed_cases H|].
  destruct (_ && _) in H;
    [unfold _parse_prefix_1830 in H; consumed_cases H|].
  destruct (_ && _) in H;
    [unfold _parse_prefix_140e in H; consumed_cases H|].
  destruct (_ && _) in H;
    [unfold _parse_prefix_1902 in H; consumed_cases H|].
  destruct (_ && _) in H;
    [unfold _parse_prefix_16e1 in H; consumed_cases H|].
  consumed_cases H.
Qed.

(** The fuel of [parse_loop] is only a bound: any two amounts that cover the
    distance to [len(data) - 1] give the same result, so the loop of [parse]
    always runs to its exit. *)
Lemma parse_loop_fuel (data : bytes) (f1 f2 : nat) (pos : Z) (st : stats)
    (acc : list ParsedEntry) :
  len data - 1 - pos <= Z.of_nat f1 -> len data - 1 - pos <= Z.of_nat f2 ->
  parse_loop f1 data pos st acc = parse_loop f2 data pos st acc.
Proof.
  revert f2 pos st acc.
  induction f1 as [|f1 IH]; intros [|f2] pos st acc H1 H2; cbn [parse_loop];
    try reflexivity.
  - destruct (Z.ltb_spec pos (len data - 1)); [lia | reflexivity].
  - destruct (Z.ltb_spec pos (len data - 1)); [lia | reflexivity].
  - destruct (Z.ltb_spec pos (len data - 1)); [|reflexivity].
    destruct (_parse_entry data pos st) as [[[e c] st']|] eqn:He; cbn [bind];
      [|reflexivity].
    destruct e as [e|].
    + apply _parse_entry_consumed in He. apply IH; lia.
    + apply IH; lia.
Qed.

(** *** Bytes that match nothing *)

Lemma unknown_byte_step (data : bytes) (pos : Z) (st : stats) :
  pos < len data - 1 ->
  is_known_prefix (byte_at data pos) (byte_at data (pos + 1)) = false ->
  is_marker (byte_at data pos) = false ->
  _parse_entry data pos st = Ok (None, 1, st).
Proof.
  intros Hpos Hk Hm. unfold _parse_entry.
  destruct (Z.geb_spec pos (len data - 1)); [lia|].
  unfold is_known_prefix, known_prefixes in Hk. cbn [existsb fst snd] in Hk.
  repeat (apply orb_false_iff in Hk; destruct Hk as [?Hp Hk]).
  repeat match goal with
         | E : ?c = false |- context [if ?c then _ else _] => rewrite E
         end.
  unfold is_marker, MARKER_TRUE, MARKER_FALSE, MARKER_CD in *.
  cbn [existsb] in Hm.
  repeat (apply orb_false_iff in Hm; destruct Hm as [?Hq Hm]).
  repeat match goal with
         | E : ?c = false |- context [if ?c then _ else _] => rewrite E
         end.
  reflexivity.
Qed.

(** C10. A byte under the cursor that starts no known prefix and is no marker
    does not make the decode fail: [_parse_entry] returns no entry, the loop
    counts one unclassified byte and moves the cursor by one, and the decode
    goes on exactly as a decode entered at the next byte. *)
Theorem unknown_byte_is_counted_and_skipped (data : bytes) (pos : Z) (st : stats)
    (acc : list ParsedEntry) :
  0 <= pos < len data - 1 ->
  is_known_prefix (byte_at data pos) (byte_at data (pos + 1)) = false ->
  is_marker (byte_at data pos) = false ->
  _parse_entry data pos st = Ok (None, 1, st)
  /\ decode_from data pos st acc
     = decode_from data (pos + 1) (bump K_unknown st) acc
  /\ unknown (bump K_unknown st) = unknown st + 1.
Proof.
  intros Hpos Hk Hm.
  pose proof (unknown_byte_step data pos st (proj2 Hpos) Hk Hm) as Hstep.
  split; [exact Hstep|]. split; [|destruct st; reflexivity].
  unfold decode_from.
  destruct (length data) as [|n] eqn:Hn; [unfold len in Hpos; lia|].
  rewrite (parse_loop_fuel data (S n) n (pos + 1))
    by (unfold len in *; lia).
  cbn [parse_loop].
  destruct (Z.ltb_spec pos (len data - 1)); [|lia].
  rewrite Hstep. reflexivity.
Qed.

Lemma unknown_byte_is_counted_and_skipped_witness :
  _parse_entry payload_with_unknown_byte 8 init_stats = Ok (None, 1, init_stats)
  /\ decode_from payload_with_unknown_byte 8 init_stats []
     = decode_from payload_with_unknown_byte 9 (bump K_unknown init_stats) []
  /\ exists es st,
       decode_from payload_with_unknown_byte 8 init_stats [] = Ok (es, 13, st)
       /\ map prefix_type es = [TABLE_REF]
       /\ unknown st = 1.
Proof.
  destruct (unknown_byte_is_counted_and_skipped payload_with_unknown_byte 8
              init_stats []) as (H1 & H2 & _).
  - vm_compute. split; congruence.
  - reflexivity.
  - reflexivity.
  - split; [exact H1|]. split; [exact H2|].
    do 2 eexists. split; [vm_compute; reflexivity|]. split; reflexivity.
Defined.

(** ** The decoder, step by step *)

Lemma Ok_inj {A : Type} (a b : A) : Ok a = Ok b -> a = b.
Proof. congruence. Qed.

Lemma length_slice_inside (b : bytes) (lo hi : Z) :
  0 <= lo <= hi -> hi <= len b -> length (slice b lo hi) = Z.to_nat (hi - lo).
Proof.
  intros H1 H2. pose proof (len_slice b lo hi H1 H2) as H. unfold len in H. lia.
Qed.

Lemma length_slice_short (b : bytes) (lo hi : Z) :
  0 <= lo < hi -> len b < hi -> (length (slice b lo hi) < Z.to_nat (hi - lo))%nat.
Proof.
  intros H1 H2. unfold slice, len in *.
  rewrite length_firstn, length_skipn. lia.
Qed.

Lemma unpack_I_inside (b : bytes) (lo hi : Z) :
  0 <= lo -> hi - lo = 4 -> hi <= len b ->
  unpack_I (slice b lo hi) = Ok (le_uint (slice b lo hi)).
Proof.
  intros H1 H2 H3. unfold unpack_I.
  rewrite length_slice_inside by lia. rewrite H2. reflexivity.
Qed.

Lemma unpack_I_short (b : bytes) (lo hi : Z) :
  0 <= lo -> hi - lo = 4 -> len b < hi ->
  unpack_I (slice b lo hi) = Raise StructError.
Proof.
  intros H1 H2 H3. unfold unpack_I.
  pose proof (length_slice_short b lo hi ltac:(lia) H3) as H. rewrite H2 in H.
  destruct (Nat.eqb_spec (length (slice b lo hi)) 4); [lia | reflexivity].
Qed.

Lemma unpack_H_inside (b : bytes) (lo hi : Z) :
  0 <= lo -> hi - lo = 2 -> hi <= len b ->
  unpack_H (slice b lo hi) = Ok (le_uint (slice b lo hi)).
Proof.
  intros H1 H2 H3. unfold unpack_H.
  rewrite length_slice_inside by lia. rewrite H2. reflexivity.
Qed.

Lemma read_varint_loop_inside (fuel : nat) (data : bytes) (pos r sh c : Z) :
  pos + c <= len data ->
  pos + snd (read_varint_loop fuel data pos r sh c) <= len data.
Proof.
  revert r sh c. induction fuel as [|fuel IH]; intros r sh c Hc;
    cbn [read_varint_loop].
  - cbn [snd]. lia.
  - destruct (Z.ltb_spec (pos + c) (len data)); [|cbn [snd]; lia].
    destruct (Z.land (byte_at data (pos + c)) 128 =? 0); [cbn [snd]; lia|].
    destruct (c + 1 >? 5); [cbn [snd]; lia|].
    apply IH. lia.
Qed.

Lemma _read_varint_inside (data : bytes) (pos : Z) :
  pos <= len data -> pos + snd (_read_varint data pos) <= len data.
Proof. intros H. apply read_varint_loop_inside. lia. Qed.

Lemma _read_varint_starts (data : bytes) (pos : Z) :
  0 <= pos < len data -> 1 <= snd (_read_varint data pos).
Proof.
  intros H. unfold _read_varint.
  destruct (length data) as [|n] eqn:Hn; [unfold len in H; lia|].
  cbn [read_varint_loop]. rewrite Z.add_0_r.
  destruct (Z.ltb_spec pos (len data)); [|lia].
  destruct (Z.land (byte_at data pos) 128 =? 0); [cbn [snd]; lia|].
  destruct (0 + 1 >? 5); [cbn [snd]; lia|].
  pose proof (read_varint_loop_bound n data pos
                (Z.lor 0 (Z.shiftl (Z.land (byte_at data pos) 127) 0))
                (0 + 7) (0 + 1) ltac:(lia)).
  lia.
Qed.

Lemma extended_scan_0 (data : bytes) (pos e : Z) :
  extended_scan 0 data pos e = e.
Proof. reflexivity. Qed.

Lemma extended_scan_S (fuel : nat) (data : bytes) (pos e : Z) :
  extended_scan (S fuel) data pos e
  = if (e <? len data) && (e <? pos + 8) then
      if is_prefix_lead (byte_at data e) then e
      else if is_marker (byte_at data e) then e
      else extended_scan fuel data pos (e + 1)
    else e.
Proof. reflexivity. Qed.

Lemma extended_scan_inside (fuel : nat) (data : bytes) (pos e : Z) :
  e <= len data -> extended_scan fuel data pos e <= len data.
Proof.
  revert e. induction fuel as [|fuel IH]; intros e He;
    [rewrite extended_scan_0 | rewrite extended_scan_S].
  - lia.
  - destruct (Z.ltb_spec e (len data)); cbn [andb]; [|lia].
    destruct (e <? pos + 8); [|lia].
    destruct (is_prefix_lead (byte_at data e)); [lia|].
    destruct (is_marker (byte_at data e)); [lia|].
    apply IH. lia.
Qed.

Lemma read_u8_or_none_inside (data : bytes) (pos c : Z) (v : pyvalue) :
  pos + 3 <= len data ->
  read_u8_or_none data pos = Ok (v, c) -> 3 <= c <= 5 /\ pos + c <= len data.
Proof.
  unfold read_u8_or_none. intros Hl H.
  destruct (Z.leb_spec (pos + 4) (len data));
    apply Ok_inj in H; injection H as _ <-; lia.
Qed.

Lemma read_u16_or_none_inside (data : bytes) (pos c : Z) (v : pyvalue) :
  pos + 3 <= len data ->
  read_u16_or_none data pos = Ok (v, c) -> 3 <= c <= 5 /\ pos + c <= len data.
Proof.
  unfold read_u16_or_none. intros Hl H.
  destruct (Z.leb_spec (pos + 5) (len data)).
  - destruct (unpack_H (slice data (pos + 3) (pos + 5))); cbn [bind] in H;
      [|discriminate H].
    apply Ok_inj in H. injection H as _ <-. lia.
  - apply Ok_inj in H. injection H as _ <-. lia.
Qed.

#[local] Arguments extended_scan : simpl never.
#[local] Arguments _read_varint : simpl never.

Ltac finish_step st :=
  unfold well_placed;
  cbn [offset size prefix_type];
  repeat split; try reflexivity; try lia;
  destruct st;
  cbn [bump unknown table_refs extended_1c04 array_173c value_1500 value_1200
       fixed32_0502 is_kind prefix_type existsb prefix_type_eqb orb];
  lia.

Ltac fixed_step H st :=
  match type of H with
  | context [if ?g >? ?l then _ else _] => destruct (Z.gtb_spec g l)
  end;
  [apply Ok_inj in H; subst; unfold well_placed; split; [reflexivity | lia]|];
  try (match type of H with
       | context [bind ?r _] => destruct r
       end; cbn [bind] in H; [|discriminate H]);
  cbv zeta in H; apply Ok_inj in H; subst; finish_step st.

Lemma _parse_table_ref_step (data : bytes) (pos : Z) (st : stats)
    (r : option ParsedEntry * Z * stats) :
  0 <= pos -> _parse_table_ref data pos st = Ok r -> well_placed data pos st r.
Proof. intros Hp H. unfold _parse_table_ref in H. fixed_step H st. Qed.

Lemma _parse_value_15_step (data : bytes) (pos : Z) (st : stats)
    (r : option ParsedEntry * Z * stats) :
  0 <= pos -> _parse_value_15 data pos st = Ok r -> well_placed data pos st r.
Proof. intros Hp H. unfold _parse_value_15 in H. fixed_step H st. Qed.

Lemma _parse_value_12_step (data : bytes) (pos : Z) (st : stats)
    (r : option ParsedEntry * Z * stats) :
  0 <= pos -> _parse_value_12 data pos st = Ok r -> well_placed data pos st r.
Proof. intros Hp H. unfold _parse_value_12 in H. fixed_step H st. Qed.

Lemma _parse_fixed32_step (data : bytes) (pos : Z) (st : stats)
    (r : option ParsedEntry * Z * stats) :
  0 <= pos -> _parse_fixed32 data pos st = Ok r -> well_placed data pos st r.
Proof. intros Hp H. unfold _parse_fixed32 in H. fixed_step H st. Qed.

Lemma _parse_type_ref_step (data : bytes) (pos : Z) (st : stats)
    (r : option ParsedEntry * Z * stats) :
  0 <= pos -> _parse_type_ref data pos st = Ok r -> well_placed data pos st r.
Proof. intros Hp H. unfold _parse_type_ref in H. fixed_step H st. Qed.

Lemma _parse_prefix_1809_step (data : bytes) (pos : Z) (st : stats)
    (r : option ParsedEntry * Z * stats) :
  0 <= pos -> _parse_prefix_1809 data pos st = Ok r -> well_placed data pos st r.
Proof. intros Hp H. unfold _parse_prefix_1809 in H. fixed_step H st. Qed.

Lemma _parse_prefix_1907_step (data : bytes) (pos : Z) (st : stats)
    (r : option ParsedEntry * Z * stats) :
  0 <= pos -> _parse_prefix_1907 data pos st = Ok r -> well_placed data pos st r.
Proof. intros Hp H. unfold _parse_prefix_1907 in H. fixed_step H st. Qed.

Lemma _parse_prefix_0c18_step (data : bytes) (pos : Z) (st : stats)
    (r : option ParsedEntry * Z * stats) :
  0 <= pos -> _parse_prefix_0c18 data pos st = Ok r -> well_placed data pos st r.
Proof. intros Hp H. unfold _parse_prefix_0c18 in H. fixed_step H st. Qed.

Lemma _parse_prefix_1013_step (data : bytes) (pos : Z) (st : stats)
    (r : option ParsedEntry * Z * stats) :
  0 <= pos -> _parse_prefix_1013 data pos st = Ok r -> well_placed data pos st r.
Proof. intros Hp H. unfold _parse_prefix_1013 in H. fixed_step H st. Qed.

Lemma _parse_prefix_1830_step (data : bytes) (pos : Z) (st : stats)
    (r : option ParsedEntry * Z * stats) :
  0 <= pos -> _parse_prefix_1830 data pos st = Ok r -> well_placed data pos st r.
Proof. intros Hp H. unfold _parse_prefix_1830 in H. fixed_step H st. Qed.

Lemma _parse_prefix_140e_step (data : bytes) (pos : Z) (st : stats)
    (r : option ParsedEntry * Z * stats) :
  0 <= pos -> _parse_prefix_140e data pos st = Ok r -> well_placed data pos st r.
Proof. intros Hp H. unfold _parse_prefix_140e in H. fixed_step H st. Qed.

Lemma _parse_prefix_1902_step (data : bytes) (pos : Z) (st : stats)
    (r : option ParsedEntry * Z * stats) :
  0 <= pos -> _parse_prefix_1902 data pos st = Ok r -> well_placed data pos st r.
Proof. intros Hp H. unfold _parse_prefix_1902 in H. fixed_step H st. Qed.

Lemma _parse_prefix_16e1_step (data : bytes) (pos : Z) (st : stats)
    (r : option ParsedEntry * Z * stats) :
  0 <= pos -> _parse_prefix_16e1 data pos st = Ok r -> well_placed data pos st r.
Proof. intros Hp H. unfold _parse_prefix_16e1 in H. fixed_step H st. Qed.

Lemma _parse_extended_1c_step (data : bytes) (pos : Z) (st : stats)
    (r : option ParsedEntry * Z * stats) :
  0 <= pos -> _parse_extended_1c data pos st = Ok r -> well_placed data pos st r.
Proof.
  intros Hp H. unfold _parse_extended_1c in H.
  destruct (Z.gtb_spec (pos + 3) (len data)) as [Hg|Hg];
    [apply Ok_inj in H; subst; unfold well_placed; split; [reflexivity | lia]|].
  cbv zeta in H.
  match type of H with
  | context [bind ?c _] => destruct c as [[v c0]|] eqn:Hvc
  end; cbn [bind] in H; [|discriminate H].
  assert (Hc0 : 3 <= c0 <= 8 /\ pos + c0 <= len data).
  { destruct (byte_at data (pos + 2) =? 8);
      [apply read_u8_or_none_inside in Hvc; lia|].
    destruct (existsb (Z.eqb (byte_at data (pos + 2))) [10; 11]);
      [apply read_u16_or_none_inside in Hvc; lia|].
    destruct (existsb (Z.eqb (byte_at data (pos + 2))) [36; 37; 33; 35]);
      [|apply read_u16_or_none_inside in Hvc; lia].
    apply Ok_inj in Hvc. injection Hvc as _ <-.
    pose proof (extended_scan_bounds 5 data pos (pos + 3) ltac:(lia)).
    pose proof (extended_scan_inside 5 data pos (pos + 3) ltac:(lia)).
    lia. }
  cbv beta iota zeta in H. apply Ok_inj in H. subst. finish_step st.
Qed.

Lemma _parse_array_element_step (data : bytes) (pos : Z) (st : stats)
    (r : option ParsedEntry * Z * stats) :
  0 <= pos -> _parse_array_element data pos st = Ok r -> well_placed data pos st r.
Proof.
  intros Hp H. unfold _parse_array_element in H.
  destruct (Z.gtb_spec (pos + 3) (len data)) as [Hg|Hg];
    [apply Ok_inj in H; subst; unfold well_placed; split; [reflexivity | lia]|].
  cbv zeta in H.
  match type of H with
  | context [bind ?c _] => destruct c as [[v c0]|] eqn:Hvc
  end; cbn [bind] in H; [|discriminate H].
  assert (Hc0 : 3 <= c0 <= 7 /\ pos + c0 <= len data).
  { destruct (byte_at data (pos + 2) =? 0).
    - destruct (pos + 6 <=? len data).
      + destruct (unpack_I (slice data (pos + 3) (pos + 7))) as [w|] eqn:Hw;
          cbn [bind] in Hvc; [|discriminate Hvc].
        apply unpack_I_ok in Hw. destruct Hw as [Hw _].
        apply (slice_full_inside data (pos + 3) (pos + 7) 4) in Hw; try lia.
        apply Ok_inj in Hvc. injection Hvc as _ <-. lia.
      + apply Ok_inj in Hvc. injection Hvc as _ <-. lia.
    - assert (3 <= c0 <= 5 /\ pos + c0 <= len data); [|lia].
      destruct (byte_at data (pos + 2) =? 8);
        [apply read_u8_or_none_inside in Hvc; lia|].
      destruct (byte_at data (pos + 2) =? 26);
        [apply read_u16_or_none_inside in Hvc; lia|].
      destruct (existsb (Z.eqb (byte_at data (pos + 2))) [10; 11; 14]);
        apply read_u16_or_none_inside in Hvc; lia. }
  cbv beta iota zeta in H. apply Ok_inj in H. subst. finish_step st.
Qed.

Lemma _parse_varint_step (data : bytes) (pos : Z) (st : stats)
    (r : option ParsedEntry * Z * stats) :
  0 <= pos -> _parse_varint data pos st = Ok r -> well_placed data pos st r.
Proof.
  intros Hp H. unfold _parse_varint in H.
  destruct (Z.gtb_spec (pos + 3) (len data)) as [Hg|Hg];
    [apply Ok_inj in H; subst; unfold well_placed; split; [reflexivity | lia]|].
  pose proof (_read_varint_consumed data (pos + 2)) as H1.
  pose proof (_read_varint_inside data (pos + 2) ltac:(lia)) as H2.
  pose proof (_read_varint_starts data (pos + 2) ltac:(lia)) as H3.
  destruct (_read_varint data (pos + 2)) as [v n]. cbn [snd] in H1, H2, H3.
  cbv beta iota zeta in H. apply Ok_inj in H. subst. finish_step st.
Qed.

(** Whatever [_parse_entry] returns at a cursor inside the buffer is well
    placed. *)
Lemma _parse_entry_step (data : bytes) (pos : Z) (st : stats)
    (r : option ParsedEntry * Z * stats) :
  0 <= pos -> _parse_entry data pos st = Ok r -> well_placed data pos st r.
Proof.
  intros Hp H. unfold _parse_entry in H.
  destruct (Z.geb_spec pos (len data - 1)) as [Hg|Hg];
    [apply Ok_inj in H; subst; unfold well_placed; split; [reflexivity | lia]|].
  cbv zeta in H.
  destruct (_ && _) in H; [eapply _parse_table_ref_step; eassumption|].
  destruct (_ && _) in H; [eapply _parse_extended_1c_step; eassumption|].
  destruct (_ && _) in H; [eapply _parse_array_element_step; eassumption|].
  destruct (_ && _) in H; [eapply _parse_value_15_step; eassumption|].
  destruct (_ && _) in H; [eapply _parse_value_12_step; eassumption|].
  destruct (_ && _) in H; [eapply _parse_fixed32_step; eassumption|].
  destruct (_ && _) in H; [eapply _parse_varint_step; eassumption|].
  destruct (_ && _) in H; [eapply _parse_type_ref_step; eassumption|].
  destruct (_ && _) in H; [eapply _parse_prefix_1809_step; eassumption|].
  destruct (_ && _) in H; [eapply _parse_prefix_1907_step; eassumption|].
  destruct (_ && _) in H; [eapply _parse_prefix_0c18_step; eassumption|].
  destruct (_ && _) in H; [eapply _parse_prefix_1013_step; eassumption|].
  destruct (_ && _) in H; [eapply _parse_prefix_1830_step; eassumption|].
  destruct (_ && _) in H; [eapply _parse_prefix_140e_step; eassumption|].
  destruct (_ && _) in H; [eapply _parse_prefix_1902_step; eassumption|].
  destruct (_ && _) in H; [eapply _parse_prefix_16e1_step; eassumption|].
  unfold marker_entry in H.
  destruct (byte_at data pos =? MARKER_TRUE);
    [apply Ok_inj in H; subst; finish_step st|].
  destruct (byte_at data pos =? MARKER_FALSE);
    [apply Ok_inj in H; subst; finish_step st|].
  destruct (byte_at data pos =? MARKER_CD);
    [apply Ok_inj in H; subst; finish_step st|].
  apply Ok_inj in H. subst. unfold well_placed. split; [reflexivity | lia].
Qed.

(** ** The decoder loop *)

Lemma bucket_cons (kinds : list PrefixType) (e : ParsedEntry)
    (es : list ParsedEntry) :
  Z.of_nat (length (bucket kinds (e :: es)))
  = is_kind kinds e + Z.of_nat (length (bucket kinds es)).
Proof.
  unfold bucket, is_kind. cbn [filter].
  destruct (existsb (prefix_type_eqb (prefix_type e)) kinds);
    cbn [map length]; lia.
Qed.

Lemma bucket_fixed_split (es : list ParsedEntry) :
  Z.of_nat (length (bucket [VALUE_15; VALUE_12; FIXED32] es))
  = Z.of_nat (length (bucket [VALUE_15] es))
    + Z.of_nat (length (bucket [VALUE_12] es))
    + Z.of_nat (length (bucket [FIXED32] es)).
Proof.
  induction es as [|e es IH]; [reflexivity|].
  rewrite !bucket_cons, IH. unfold is_kind.
  destruct (prefix_type e); cbn [existsb prefix_type_eqb orb]; lia.
Qed.

(** The state of the loop when it is left, in terms of the state in which it
    was entered. *)
Lemma parse_loop_inv (fuel : nat) (data : bytes) (pos : Z) (st : stats)
    (acc es : list ParsedEntry) (final : Z) (st' : stats) :
  0 <= pos -> len data - 1 - pos <= Z.of_nat fuel ->
  parse_loop fuel data pos st acc = Ok (es, final, st') ->
  exists new,
    es = acc ++ new
    /\ in_order pos new = true
    /\ forallb (inside data) new = true
    /\ pos <= final
    /\ (len data - 1 <= pos -> final = pos)
    /\ (pos < len data - 1 -> len data - 1 <= final <= len data)
    /\ final - pos = total_size new + (unknown st' - unknown st)
    /\ table_refs st' = table_refs st + Z.of_nat (length (bucket [TABLE_REF] new))
    /\ extended_1c04 st'
       = extended_1c04 st + Z.of_nat (length (bucket [EXTENDED_1C] new))
    /\ array_173c st' = array_173c st + Z.of_nat (length (bucket [ARRAY_ELEM] new))
    /\ value_1500 st' + value_1200 st' + fixed32_0502 st'
       = value_1500 st + value_1200 st + fixed32_0502 st
         + Z.of_nat (length (bucket [VALUE_15; VALUE_12; FIXED32] new)).
Proof.
  revert pos st acc.
  induction fuel as [|fuel IH]; intros pos st acc Hp Hf H; cbn [parse_loop] in H.
  - apply Ok_inj in H. injection H as <- <- <-.
    exists []. rewrite app_nil_r. cbn [in_order forallb total_size fold_right
      bucket filter map length]. repeat split; try reflexivity; lia.
  - destruct (Z.ltb_spec pos (len data - 1)) as [Hl|Hl].
    + destruct (_parse_entry data pos st) as [[[e c] st1]|] eqn:He;
        cbn [bind] in H; [|discriminate H].
      apply _parse_entry_step in He; [|exact Hp].
      destruct e as [e|]; cbn [well_placed] in He.
      * destruct He as (Ho & Hs & Hc & Hin & Hu & T1 & T2 & T3 & T4).
        apply IH in H; [|lia|lia].
        destruct H as (new & -> & Hord & Hall & Hfin & Hstop & Hrun & Hacc
                       & C1 & C2 & C3 & C4).
        exists (e :: new). rewrite <- app_assoc. cbn [app].
        split; [reflexivity|].
        cbn [in_order forallb total_size fold_right].
        rewrite !bucket_cons.
        split; [rewrite Ho, Hs, Hord;
                destruct (Z.leb_spec pos pos); [|lia];
                destruct (Z.leb_spec 1 c); [reflexivity | lia]|].
        split; [rewrite Hall; unfold inside; rewrite Ho, Hs;
                destruct (Z.leb_spec 0 pos); [|lia];
                destruct (Z.leb_spec (pos + c) (len data)); [reflexivity | lia]|].
        split; [lia|]. split; [lia|].
        split; [intros _; destruct (Z.lt_ge_cases (pos + c) (len data - 1));
                [lia | rewrite Hstop by lia; lia]|].
        fold (total_size new). repeat split; lia.
      * destruct He as [-> _].
        apply IH in H; [|lia|lia].
        destruct H as (new & -> & Hord & Hall & Hfin & Hstop & Hrun & Hacc
                       & C1 & C2 & C3 & C4).
        exists new. split; [reflexivity|].
        assert (Hb : unknown (bump K_unknown st) = unknown st + 1
                     /\ table_refs (bump K_unknown st) = table_refs st
                     /\ extended_1c04 (bump K_unknown st) = extended_1c04 st
                     /\ array_173c (bump K_unknown st) = array_173c st
                     /\ value_1500 (bump K_unknown st) = value_1500 st
                     /\ value_1200 (bump K_unknown st) = value_1200 st
                     /\ fixed32_0502 (bump K_unknown st) = fixed32_0502 st)
          by (destruct st; repeat split; reflexivity).
        destruct Hb as (B0 & B1 & B2 & B3 & B4 & B5 & B6).
        split; [destruct new as [|e new]; [reflexivity|];
                cbn [in_order] in *;
                destruct (Z.leb_spec (pos + 1) (offset e)); [|discriminate Hord];
                destruct (Z.leb_spec pos (offset e)); [exact Hord | lia]|].
        split; [exact Hall|]. split; [lia|]. split; [lia|].
        split; [intros _; destruct (Z.lt_ge_cases (pos + 1) (len data - 1));
                [lia | rewrite Hstop by lia; lia]|].
        repeat split; lia.
    + apply Ok_inj in H. injection H as <- <- <-.
      exists []. rewrite app_nil_r. cbn [in_order forallb total_size fold_right
        bucket filter map length]. repeat split; try reflexivity; lia.
Qed.

(** *** _find_first_table_ref *)

Lemma range_spec (lo hi i : Z) : In i (range lo hi) <-> lo <= i < hi.
Proof.
  unfold range. rewrite in_map_iff. split.
  - intros (k & <- & Hk). apply in_seq in Hk. lia.
  - intros H. exists (Z.to_nat (i - lo)). split; [lia|]. apply in_seq. lia.
Qed.

Lemma find_first (A : Type) (f : A -> bool) (l : list A) (x : A) :
  find f l = Some x ->
  exists l1 l2, l = l1 ++ x :: l2 /\ f x = true /\ forall y, In y l1 -> f y = false.
Proof.
  induction l as [|a l IH]; cbn [find]; [discriminate|].
  destruct (f a) eqn:Ha.
  - intros H. injection H as <-. exists [], l. repeat split; [exact Ha|].
    intros y [].
  - intros H. destruct (IH H) as (l1 & l2 & -> & Hx & Hl1).
    exists (a :: l1), l2. repeat split; [exact Hx|].
    intros y [<-|Hy]; [exact Ha | exact (Hl1 y Hy)].
Qed.

Lemma range_app_inv (lo hi x : Z) (l1 l2 : list Z) :
  range lo hi = l1 ++ x :: l2 -> forall i, lo <= i < x -> In i l1.
Proof.
  unfold range. remember (Z.to_nat (hi - lo)) as n eqn:Hn. clear Hn.
  revert lo l1. induction n as [|n IH]; intros lo l1 H i Hi.
  - destruct l1; discriminate H.
  - cbn [seq map] in H. rewrite <- seq_shift, map_map in H.
    destruct l1 as [|a l1].
    + cbn [app] in H. injection H as H _. cbn in H. lia.
    + cbn [app] in H. injection H as Ha H. cbn in Ha.
      destruct (Z.eq_dec i lo) as [->|Hne]; [left; lia|].
      right. apply (IH (lo + 1)); [|lia].
      rewrite <- H. apply map_ext. intros k. lia.
Qed.

Lemma _find_first_table_ref_spec (data : bytes) :
  let p := _find_first_table_ref data in
  (p = 8 \/ 8 < p < len data - 1)
  /\ (p <> 8 -> byte_at data p = 0x08 /\ byte_at data (p + 1) = 0x03)
  /\ (forall i, 8 <= i < p ->
        (byte_at data i =? 0x08) && (byte_at data (i + 1) =? 0x03) = false).
Proof.
  cbv zeta. unfold _find_first_table_ref.
  destruct (find _ (range 8 (len data - 1))) as [p|] eqn:Hf.
  - apply find_first in Hf. destruct Hf as (l1 & l2 & Hr & Hp & Hl1).
    assert (Hin : In p (range 8 (len data - 1)))
      by (rewrite Hr; apply in_or_app; right; left; reflexivity).
    apply range_spec in Hin.
    apply andb_true_iff in Hp. destruct Hp as [H0 H1].
    apply Z.eqb_eq in H0. apply Z.eqb_eq in H1.
    split; [lia|]. split; [intros _; split; assumption|].
    intros i Hi. apply Hl1. eapply range_app_inv; eassumption.
  - split; [left; reflexivity|]. split; [intros H; contradiction|].
    intros i Hi. lia.
Qed.

(** *** parse *)

Lemma parse_inv (data : bytes) (st st' : stats) (block : CompactBlock) :
  parse data st = Ok (block, st') ->
  exists h final,
    CompactHeader_parse data 0 = Ok h
    /\ decode_from data (_find_first_table_ref data) st []
       = Ok (entries block, final, st')
    /\ header block = h
    /\ preamble block = slice data 8 (_find_first_table_ref data)
    /\ raw_data block = data
    /\ block_table_refs block = bucket [TABLE_REF] (entries block)
    /\ extended_values block = bucket [EXTENDED_1C] (entries block)
    /\ array_elements block = bucket [ARRAY_ELEM] (entries block)
    /\ fixed_values block = bucket [VALUE_15; VALUE_12; FIXED32] (entries block).
Proof.
  unfold parse, decode_from. intros H.
  destruct (CompactHeader_parse data 0) as [h|]; cbn [bind] in H; [|discriminate H].
  destruct (parse_loop (length data) data (_find_first_table_ref data) st [])
    as [[[es final] st1]|]; cbn [bind] in H; [|discriminate H].
  apply Ok_inj in H. injection H as <- <-.
  exists h, final. cbn [entries header preamble raw_data block_table_refs
    extended_values array_elements fixed_values]. repeat split; reflexivity.
Qed.

Lemma CompactHeader_parse_length (data : bytes) (h : CompactHeader) :
  CompactHeader_parse data 0 = Ok h -> 8 <= len data.
Proof.
  unfold CompactHeader_parse. intros H.
  repeat (match type of H with
          | context [bind ?r _] => destruct r eqn:?
          end; cbn [bind] in H; [|discriminate H]).
  match goal with
  | E : unpack_I _ = Ok _ |- _ => apply unpack_I_ok in E; destruct E as [E _]
  end.
  match goal with
  | E : length (slice (slice data 0 (0 + 8)) 4 8) = 4%nat |- _ =>
      unfold slice in E;
      repeat (rewrite length_firstn in E || rewrite length_skipn in E)
  end.
  unfold len. lia.
Qed.

(** ** Properties of a decode *)

Lemma _find_first_table_ref_range (data : bytes) (h : CompactHeader) :
  CompactHeader_parse data 0 = Ok h ->
  8 <= _find_first_table_ref data <= len data.
Proof.
  intros H. apply CompactHeader_parse_length in H.
  destruct (_find_first_table_ref_spec data) as [[E|E] _]; lia.
Qed.

Lemma parse_loop_of_parse (data : bytes) (st st' : stats) (block : CompactBlock) :
  parse data st = Ok (block, st') ->
  8 <= _find_first_table_ref data <= len data
  /\ exists final,
       parse_loop (length data) data (_find_first_table_ref data) st []
       = Ok (entries block, final, st').
Proof.
  intros H. apply parse_inv in H.
  destruct H as (h & final & Hh & Hl & _).
  split; [eapply _find_first_table_ref_range; eassumption|].
  exists final. exact Hl.
Qed.

(** The entries of a decoded block are listed in the order of their offsets
    and do not overlap: each starts at or after the end of the previous one,
    the first one at or after the end of the preamble, each takes at least
    one byte, and all the bytes of each lie inside the buffer. *)
Theorem entries_do_not_overlap (data : bytes) (st st' : stats)
    (block : CompactBlock) :
  parse data st = Ok (block, st') ->
  in_order (_find_first_table_ref data) (entries block) = true
  /\ forallb (inside data) (entries block) = true.
Proof.
  intros H. apply parse_loop_of_parse in H. destruct H as (Hr & final & H).
  apply parse_loop_inv in H; [|lia|unfold len; lia].
  destruct H as (new & E & Hord & Hall & _). cbn [app] in E. subst new.
  split; assumption.
Qed.

Lemma entries_do_not_overlap_witness :
  exists block st',
    parse mixed_payload init_stats = Ok (block, st')
    /\ map (fun e => (offset e, size e)) (entries block)
       = [(10, 4); (14, 6); (20, 4); (24, 4); (28, 6)]
    /\ in_order (_find_first_table_ref mixed_payload) (entries block) = true
    /\ forallb (inside mixed_payload) (entries block) = true.
Proof.
  eexists _, _. split; [vm_compute; reflexivity|]. split; [reflexivity|].
  eapply (entries_do_not_overlap mixed_payload init_stats). vm_compute. reflexivity.
Defined.

(** Every byte from the end of the preamble on, the last byte of the buffer
    possibly left out, is either part of exactly one entry or counted once
    as unclassified: the sizes of the entries and the unclassified bytes
    counted by this decode add up to the length of that stretch. *)
Theorem decoded_bytes_are_accounted_for (data : bytes) (st st' : stats)
    (block : CompactBlock) :
  parse data st = Ok (block, st') ->
  let start := _find_first_table_ref data in
  let covered := total_size (entries block) + (unknown st' - unknown st) in
  len data - 1 - start <= covered <= len data - start.
Proof.
  intros H. apply parse_loop_of_parse in H. destruct H as (Hr & final & H).
  apply parse_loop_inv in H; [|lia|unfold len; lia].
  destruct H as (new & E & _ & _ & Hfin & Hstop & Hrun & Hacc & _).
  cbn [app] in E. subst new. cbv zeta.
  destruct (Z.lt_ge_cases (_find_first_table_ref data) (len data - 1)) as [Hl|Hl].
  - specialize (Hrun Hl). lia.
  - specialize (Hstop Hl). lia.
Qed.

Lemma decoded_bytes_are_accounted_for_witness :
  exists block st',
    parse mixed_payload init_stats = Ok (block, st')
    /\ total_size (entries block) = 24 /\ unknown st' = 1
    /\ len mixed_payload - 1 - 10
       <= total_size (entries block) + (unknown st' - unknown init_stats)
       <= len mixed_payload - 10.
Proof.
  eexists _, _. split; [vm_compute; reflexivity|].
  split; [reflexivity|]. split; [reflexivity|].
  eapply (decoded_bytes_are_accounted_for mixed_payload init_stats).
  vm_compute. reflexivity.
Defined.

(** The counters stepped by a decode agree with the lists of the returned
    block: the TABLE_REF, EXTENDED_1C and ARRAY_ELEM counters grow by the
    lengths of [table_refs], [extended_values] and [array_elements], and the
    three counters of the 32-bit values grow together by the length of
    [fixed_values]. *)
Theorem counters_match_the_lists (data : bytes) (st st' : stats)
    (block : CompactBlock) :
  parse data st = Ok (block, st') ->
  table_refs st' - table_refs st = Z.of_nat (length (block_table_refs block))
  /\ extended_1c04 st' - extended_1c04 st
     = Z.of_nat (length (extended_values block))
  /\ array_173c st' - array_173c st = Z.of_nat (length (array_elements block))
  /\ (value_1500 st' - value_1500 st) + (value_1200 st' - value_1200 st)
     + (fixed32_0502 st' - fixed32_0502 st)
     = Z.of_nat (length (fixed_values block)).
Proof.
  intros H. pose proof (parse_inv _ _ _ _ H) as Hi.
  destruct Hi as (h & final & Hh & Hl & _ & _ & _ & -> & -> & -> & ->).
  unfold decode_from in Hl.
  pose proof (_find_first_table_ref_range data h Hh) as Hr.
  apply parse_loop_inv in Hl; [|lia|unfold len; lia].
  destruct Hl as (new & E & _ & _ & _ & _ & _ & _ & C1 & C2 & C3 & C4).
  cbn [app] in E. subst new. repeat split; lia.
Qed.

Lemma counters_match_the_lists_witness :
  exists block st',
    parse mixed_payload init_stats = Ok (block, st')
    /\ length (block_table_refs block) = 1%nat
    /\ length (fixed_values block) = 1%nat
    /\ table_refs st' - table_refs init_stats
       = Z.of_nat (length (block_table_refs block))
    /\ extended_1c04 st' - extended_1c04 init_stats
       = Z.of_nat (length (extended_values block))
    /\ array_173c st' - array_173c init_stats
       = Z.of_nat (length (array_elements block))
    /\ (value_1500 st' - value_1500 init_stats)
       + (value_1200 st' - value_1200 init_stats)
       + (fixed32_0502 st' - fixed32_0502 init_stats)
       = Z.of_nat (length (fixed_values block)).
Proof.
  eexists _, _. split; [vm_compute; reflexivity|].
  split; [reflexivity|]. split; [reflexivity|].
  eapply (counters_match_the_lists mixed_payload init_stats).
  vm_compute. reflexivity.
Defined.

(** ** The header *)

Lemma byte_at_slice (b : bytes) (lo hi k : Z) :
  0 <= lo -> 0 <= k < hi - lo -> byte_at (slice b lo hi) k = byte_at b (lo + k).
Proof.
  intros Hlo Hk. unfold byte_at, slice. rewrite nth_firstn.
  destruct (Nat.ltb_spec (Z.to_nat k) (Z.to_nat (hi - lo))); [|lia].
  rewrite nth_skipn. f_equal. lia.
Qed.

Lemma slice_slice (b : bytes) (lo hi a c : Z) :
  0 <= lo -> 0 <= a <= c -> c <= hi - lo ->
  slice (slice b lo hi) a c = slice b (lo + a) (lo + c).
Proof.
  intros Hlo Ha Hc. unfold slice.
  rewrite skipn_firstn_comm, firstn_firstn, skipn_skipn.
  f_equal; [lia | f_equal; lia].
Qed.

Lemma land_shiftl_low (a b n : Z) :
  0 <= n -> 0 <= a < 2 ^ n -> Z.land a (Z.shiftl b n) = 0.
Proof.
  intros Hn Ha. apply Z.bits_inj'. intros m Hm.
  rewrite Z.land_spec, Z.bits_0.
  destruct (Z.lt_ge_cases m n).
  - rewrite Z.shiftl_spec_low by lia. apply andb_false_r.
  - rewrite <- (Z.mod_small a (2 ^ n)) by lia.
    rewrite Z.mod_pow2_bits_high by lia. reflexivity.
Qed.

Lemma lor_shiftl_add (a b n : Z) :
  0 <= n -> 0 <= a < 2 ^ n -> Z.lor a (Z.shiftl b n) = a + b * 2 ^ n.
Proof.
  intros Hn Ha. pose proof (land_shiftl_low a b n Hn Ha) as H.
  rewrite <- Z.lxor_lor, <- Z.add_nocarry_lxor by exact H.
  rewrite Z.shiftl_mul_pow2 by lia. reflexivity.
Qed.

Lemma is_bytes_byte_at (b : bytes) (i : Z) :
  is_bytes b = true -> 0 <= byte_at b i < 256.
Proof.
  unfold is_bytes, byte_at. intros H.
  destruct (nth_in_or_default (Z.to_nat i) b 0) as [Hin | ->]; [|lia].
  rewrite forallb_forall in H. specialize (H _ Hin).
  unfold is_byte in H. lia.
Qed.

Lemma le_uint_3 (l : bytes) :
  length l = 3%nat ->
  le_uint l = byte_at l 0 + 256 * byte_at l 1 + 65536 * byte_at l 2.
Proof.
  intros L. destruct l as [|x0 [|x1 [|x2 [|x3 l]]]]; try discriminate L.
  change (byte_at [x0; x1; x2] 0) with x0.
  change (byte_at [x0; x1; x2] 1) with x1.
  change (byte_at [x0; x1; x2] 2) with x2.
  cbn [le_uint]. lia.
Qed.

Lemma CompactHeader_parse_inside (data : bytes) (offset : Z) :
  0 <= offset -> offset + 8 <= len data ->
  CompactHeader_parse data offset
  = Ok {| version := byte_at data offset;
          data_size :=
            Z.lor (Z.lor (byte_at data (offset + 1))
                         (Z.shiftl (byte_at data (offset + 2)) 8))
                  (Z.shiftl (byte_at data (offset + 3)) 16);
          flags := le_uint (slice data (offset + 4) (offset + 8));
          header_raw_bytes := slice data offset (offset + 8) |}.
Proof.
  intros Ho Hl. unfold CompactHeader_parse. cbv zeta.
  assert (Hraw : len (slice data offset (offset + 8)) = 8)
    by (rewrite len_slice; lia).
  rewrite !index_in_range by lia. cbn [bind].
  rewrite !byte_at_slice by lia.
  rewrite (slice_slice data offset (offset + 8) 4 8) by lia.
  rewrite (unpack_I_inside data (offset + 4) (offset + 8)) by lia.
  cbn [bind]. rewrite Z.add_0_r. reflexivity.
Qed.

(** The header of a buffer that holds at least eight bytes at [offset] is
    read without error: the version is the first byte, the data size is the
    24-bit little-endian number of the next three (below 2^24), the flags are
    the 32-bit little-endian number of the last four, and the raw bytes are
    those eight bytes. *)
Theorem header_fields (data : bytes) (offset : Z) :
  is_bytes data = true -> 0 <= offset -> offset + 8 <= len data ->
  exists h,
    CompactHeader_parse data offset = Ok h
    /\ version h = byte_at data offset
    /\ data_size h = le_uint (slice data (offset + 1) (offset + 4))
    /\ 0 <= data_size h < 16777216
    /\ flags h = le_uint (slice data (offset + 4) (offset + 8))
    /\ 0 <= flags h < 4294967296
    /\ header_raw_bytes h = slice data offset (offset + 8).
Proof.
  intros Hb Ho Hl. eexists. split; [apply CompactHeader_parse_inside; lia|].
  cbn [version data_size flags header_raw_bytes].
  pose proof (is_bytes_byte_at data (offset + 1) Hb) as B1.
  pose proof (is_bytes_byte_at data (offset + 2) Hb) as B2.
  pose proof (is_bytes_byte_at data (offset + 3) Hb) as B3.
  assert (E : le_uint (slice data (offset + 1) (offset + 4))
              = byte_at data (offset + 1) + 256 * byte_at data (offset + 2)
                + 65536 * byte_at data (offset + 3)).
  { rewrite le_uint_3 by (rewrite length_slice_inside; lia).
    rewrite !byte_at_slice by lia.
    replace (offset + 1 + 0) with (offset + 1) by lia.
    replace (offset + 1 + 1) with (offset + 2) by lia.
    replace (offset + 1 + 2) with (offset + 3) by lia. reflexivity. }
  assert (F : is_bytes (slice data (offset + 4) (offset + 8)) = true)
    by (apply is_bytes_slice; exact Hb).
  pose proof (le_uint_bound _ F) as FB.
  rewrite length_slice_inside in FB by lia.
  replace (offset + 8 - (offset + 4)) with 4 in FB by lia.
  change (256 ^ Z.of_nat (Z.to_nat 4)) with 4294967296 in FB.
  rewrite (lor_shiftl_add (byte_at data (offset + 1)) _ 8) by lia.
  rewrite lor_shiftl_add by lia.
  change (2 ^ 8) with 256. change (2 ^ 16) with 65536.
  repeat split; try reflexivity; lia.
Qed.

Lemma header_fields_witness :
  exists h,
    CompactHeader_parse sample_payload 0 = Ok h
    /\ version h = 1 /\ data_size h = 0x8000 /\ flags h = 0x00800000
    /\ data_size h = le_uint (slice sample_payload (0 + 1) (0 + 4)).
Proof.
  destruct (header_fields sample_payload 0) as (h & H & Hv & Hs & _ & Hf & _).
  - reflexivity.
  - lia.
  - vm_compute. discriminate.
  - exists h. split; [exact H|]. rewrite Hv, Hs, Hf.
    repeat split; reflexivity.
Defined.

(** A buffer too short for the header makes [parse] fail before anything is
    decoded: with fewer than four bytes the indexing of the raw header raises
    [IndexError], with four to seven bytes the unpacking of the flags raises
    [struct.error]. *)
Theorem short_buffer_is_rejected (data : bytes) (st : stats) :
  (len data < 4 -> parse data st = Raise IndexError)
  /\ (4 <= len data < 8 -> parse data st = Raise StructError).
Proof.
  unfold parse, CompactHeader_parse. cbv zeta.
  assert (Hraw : len (slice data 0 (0 + 8)) = Z.min 8 (len data)).
  { unfold len, slice. rewrite length_firstn, length_skipn. lia. }
  split; intros Hl.
  - unfold index. rewrite Hraw.
    destruct (Z.ltb_spec 0 (Z.min 8 (len data))); cbn [andb Z.leb bind];
      [|reflexivity].
    destruct (Z.ltb_spec 1 (Z.min 8 (len data))); cbn [andb Z.leb bind];
      [|reflexivity].
    destruct (Z.ltb_spec 2 (Z.min 8 (len data))); cbn [andb Z.leb bind];
      [|reflexivity].
    destruct (Z.ltb_spec 3 (Z.min 8 (len data))); cbn [andb Z.leb bind];
      [lia | reflexivity].
  - rewrite !index_in_range by lia. cbn [bind].
    assert (Hs : (length (slice (slice data 0 (0 + 8)) 4 8) < 4)%nat).
    { unfold slice, len in *.
      repeat (rewrite length_firstn || rewrite length_skipn). lia. }
    unfold unpack_I.
    destruct (Nat.eqb_spec (length (slice (slice data 0 (0 + 8)) 4 8)) 4);
      [lia | reflexivity].
Qed.

(** ** When a decode fails *)

Lemma read_u8_or_none_ok (data : bytes) (pos : Z) :
  exists v c, read_u8_or_none data pos = Ok (v, c).
Proof.
  unfold read_u8_or_none. destruct (pos + 4 <=? len data); eexists _, _; reflexivity.
Qed.

Lemma read_u16_or_none_ok (data : bytes) (pos : Z) :
  0 <= pos -> exists v c, read_u16_or_none data pos = Ok (v, c).
Proof.
  intros Hp. unfold read_u16_or_none.
  destruct (Z.leb_spec (pos + 5) (len data)).
  - rewrite unpack_H_inside by lia. cbn [bind]. eexists _, _. reflexivity.
  - eexists _, _. reflexivity.
Qed.

Ltac never_raises H :=
  match type of H with
  | context [if ?g >? ?l then _ else _] => destruct (Z.gtb_spec g l)
  end; [discriminate H|];
  cbv zeta in H;
  try rewrite unpack_I_inside in H by lia;
  try rewrite unpack_H_inside in H by lia;
  cbn [bind] in H; discriminate H.

Ltac read_ok H lem :=
  let v := fresh "v" in let c := fresh "c" in let E := fresh "E" in
  destruct lem as (v & c & E); rewrite E in H; cbn [bind] in H; discriminate H.

Lemma _parse_extended_1c_never_raises (data : bytes) (pos : Z) (st : stats)
    (x : exn) :
  0 <= pos -> _parse_extended_1c data pos st <> Raise x.
Proof.
  intros Hp H. unfold _parse_extended_1c in H.
  destruct (pos + 3 >? len data); [discriminate H|].
  cbv zeta in H.
  destruct (byte_at data (pos + 2) =? 8);
    [read_ok H (read_u8_or_none_ok data pos)|].
  destruct (existsb (Z.eqb (byte_at data (pos + 2))) [10; 11]);
    [read_ok H (read_u16_or_none_ok data pos Hp)|].
  destruct (existsb (Z.eqb (byte_at data (pos + 2))) [36; 37; 33; 35]);
    [cbn [bind] in H; discriminate H|].
  read_ok H (read_u16_or_none_ok data pos Hp).
Qed.

(** [_parse_array_element] raises only when an element of type 0x00 has
    exactly three bytes left for its four-byte value. *)
Lemma _parse_array_element_raises (data : bytes) (pos : Z) (st : stats)
    (x : exn) :
  0 <= pos -> _parse_array_element data pos st = Raise x ->
  x = StructError /\ len data = pos + 6 /\ byte_at data (pos + 2) = 0.
Proof.
  intros Hp H. unfold _parse_array_element in H.
  destruct (pos + 3 >? len data); [discriminate H|].
  cbv zeta in H.
  destruct (Z.eqb_spec (byte_at data (pos + 2)) 0) as [E0|E0].
  - destruct (Z.leb_spec (pos + 6) (len data)); [|cbn [bind] in H; discriminate H].
    destruct (Z.le_gt_cases (pos + 7) (len data)).
    + rewrite unpack_I_inside in H by lia. cbn [bind] in H. discriminate H.
    + rewrite unpack_I_short in H by lia. cbn [bind] in H.
      injection H as <-. repeat split; [lia | exact E0].
  - destruct (byte_at data (pos + 2) =? 8);
      [read_ok H (read_u8_or_none_ok data pos)|].
    destruct (byte_at data (pos + 2) =? 26);
      [read_ok H (read_u16_or_none_ok data pos Hp)|].
    destruct (existsb (Z.eqb (byte_at data (pos + 2))) [10; 11; 14]);
      read_ok H (read_u16_or_none_ok data pos Hp).
Qed.

Lemma _parse_array_element_truncated (data : bytes) (pos : Z) (st : stats) :
  0 <= pos -> len data = pos + 6 -> byte_at data (pos + 2) = 0 ->
  _parse_array_element data pos st = Raise StructError.
Proof.
  intros Hp Hl He. unfold _parse_array_element.
  destruct (Z.gtb_spec (pos + 3) (len data)); [lia|].
  cbv zeta. rewrite He. change (0 =? 0) with true. cbv iota.
  destruct (Z.leb_spec (pos + 6) (len data)); [|lia].
  rewrite unpack_I_short by lia. reflexivity.
Qed.

Lemma _parse_entry_raises (data : bytes) (pos : Z) (st : stats) (x : exn) :
  0 <= pos -> _parse_entry data pos st = Raise x ->
  x = StructError /\ len data = pos + 6
  /\ byte_at data pos = 0x17 /\ byte_at data (pos + 1) = 0x3C
  /\ byte_at data (pos + 2) = 0x00.
Proof.
  intros Hp H. unfold _parse_entry in H.
  destruct (pos >=? len data - 1); [discriminate H|].
  cbv zeta in H.
  destruct (_ && _) in H; [unfold _parse_table_ref in H; never_raises H|].
  destruct (_ && _) in H;
    [exfalso; exact (_parse_extended_1c_never_raises _ _ _ _ Hp H)|].
  destruct ((byte_at data pos =? 23) && (byte_at data (pos + 1) =? 60)) eqn:E.
  { apply andb_true_iff in E. destruct E as [E0 E1].
    apply Z.eqb_eq in E0. apply Z.eqb_eq in E1.
    apply _parse_array_element_raises in H; [|exact Hp].
    destruct H as (-> & Hl & H2). repeat split; assumption. }
  destruct (_ && _) in H; [unfold _parse_value_15 in H; never_raises H|].
  destruct (_ && _) in H; [unfold _parse_value_12 in H; never_raises H|].
  destruct (_ && _) in H; [unfold _parse_fixed32 in H; never_raises H|].
  destruct (_ && _) in H;
    [unfold _parse_varint in H;
     destruct (pos + 3 >? len data); [discriminate H|];
     destruct (_read_varint data (pos + 2)); discriminate H|].
  destruct (_ && _) in H; [unfold _parse_type_ref in H; never_raises H|].
  destruct (_ && _) in H; [unfold _parse_prefix_1809 in H; never_raises H|].
  destruct (_ && _) in H; [unfold _parse_prefix_1907 in H; never_raises H|].
  destruct (_ && _) in H; [unfold _parse_prefix_0c18 in H; never_raises H|].
  destruct (_ && _) in H; [unfold _parse_prefix_1013 in H; never_raises H|].
  destruct (_ && _) in H; [unfold _parse_prefix_1830 in H; never_raises H|].
  destruct (_ && _) in H; [unfold _parse_prefix_140e in H; never_raises H|].
  destruct (_ && _) in H; [unfold _parse_prefix_1902 in H; never_raises H|].
  destruct (_ && _) in H; [unfold _parse_prefix_16e1 in H; never_raises H|].
  destruct (byte_at data pos =? MARKER_TRUE); [discriminate H|].
  destruct (byte_at data pos =? MARKER_FALSE); [discriminate H|].
  destruct (byte_at data pos =? MARKER_CD); discriminate H.
Qed.

Lemma _parse_entry_truncated (data : bytes) (pos : Z) (st : stats) :
  0 <= pos -> len data = pos + 6 ->
  byte_at data pos = 0x17 -> byte_at data (pos + 1) = 0x3C ->
  byte_at data (pos + 2) = 0x00 ->
  _parse_entry data pos st = Raise StructError.
Proof.
  intros Hp Hl H0 H1 H2. unfold _parse_entry.
  destruct (Z.geb_spec pos (len data - 1)); [lia|].
  cbv zeta. rewrite H0, H1.
  change (23 =? 8) with false. change (23 =? 28) with false.
  change (23 =? 23) with true. change (60 =? 60) with true.
  cbn [andb]. cbv iota.
  apply _parse_array_element_truncated; assumption.
Qed.

(** The only way a decoding step can fail: the buffer ends exactly six bytes
    after the start of an ARRAY_ELEM (17 3C) of element type 0x00.  The guard
    of that branch, [pos + 6 <= len(data)], lets through a buffer that holds
    three of the four bytes then unpacked, and [struct.error] is raised; the
    loop of [parse] does not catch it.  No other step raises anything. *)
Theorem step_fails_only_on_truncated_array (data : bytes) (pos : Z) (st : stats) :
  0 <= pos ->
  ((exists x, _parse_entry data pos st = Raise x)
   <-> (len data = pos + 6 /\ byte_at data pos = 0x17
        /\ byte_at data (pos + 1) = 0x3C /\ byte_at data (pos + 2) = 0x00))
  /\ (forall x, _parse_entry data pos st = Raise x -> x = StructError)
  /\ (forall acc, _parse_entry data pos st = Raise StructError ->
        decode_from data pos st acc = Raise StructError).
Proof.
  intros Hp. split; [split|split].
  - intros (x & H). apply _parse_entry_raises in H; [|exact Hp].
    destruct H as (_ & H). exact H.
  - intros (Hl & H0 & H1 & H2). exists StructError.
    apply _parse_entry_truncated; assumption.
  - intros x H. apply _parse_entry_raises in H; [|exact Hp]. apply H.
  - intros acc H. pose proof H as H'.
    apply _parse_entry_raises in H'; [|exact Hp]. destruct H' as (_ & Hl & _).
    unfold decode_from.
    destruct (length data) as [|n] eqn:Hn; [unfold len in Hl; lia|].
    cbn [parse_loop]. destruct (Z.ltb_spec pos (len data - 1)); [|lia].
    rewrite H. reflexivity.
Qed.

Lemma step_fails_only_on_truncated_array_witness :
  _parse_entry payload_with_truncated_array 8 init_stats = Raise StructError
  /\ decode_from payload_with_truncated_array 8 init_stats [] = Raise StructError
  /\ parse payload_with_truncated_array init_stats = Raise StructError.
Proof.
  destruct (step_fails_only_on_truncated_array payload_with_truncated_array 8
              init_stats ltac:(lia)) as ([_ Hif] & Honly & Hloop).
  destruct Hif as [x Hx]; [repeat split; reflexivity|].
  pose proof (Honly x Hx) as ->.
  split; [exact Hx|]. split; [exact (Hloop [] Hx)|].
  vm_compute. reflexivity.
Defined.

Lemma parse_loop_total (fuel : nat) (data : bytes) (pos : Z) (st : stats)
    (acc : list ParsedEntry) :
  0 <= pos -> truncated_array data = false ->
  exists r, parse_loop fuel data pos st acc = Ok r.
Proof.
  intros Hp Ht. revert pos st acc Hp.
  induction fuel as [|fuel IH]; intros pos st acc Hp; cbn [parse_loop].
  - eexists. reflexivity.
  - destruct (pos <? len data - 1); [|eexists; reflexivity].
    destruct (_parse_entry data pos st) as [[[e c] st1]|x] eqn:He; cbn [bind].
    + apply _parse_entry_step in He; [|exact Hp].
      destruct e as [e|]; cbn [well_placed] in He.
      * apply IH. lia.
      * apply IH. lia.
    + apply _parse_entry_raises in He; [|exact Hp].
      destruct He as (_ & Hl & H0 & H1 & H2). exfalso.
      unfold truncated_array in Ht. rewrite Hl in Ht.
      replace (pos + 6 - 6) with pos in Ht by lia.
      replace (pos + 6 - 5) with (pos + 1) in Ht by lia.
      replace (pos + 6 - 4) with (pos + 2) in Ht by lia.
      rewrite H0, H1, H2 in Ht. discriminate Ht.
Qed.

(** [parse] returns a block for every buffer of at least eight bytes that
    does not end three bytes into the value of a 17 3C 00 element: neither
    unknown bytes nor entries cut short by the end of the buffer make it
    fail. *)
Theorem parse_succeeds_unless_truncated (data : bytes) (st : stats) :
  8 <= len data -> truncated_array data = false ->
  exists block st', parse data st = Ok (block, st').
Proof.
  intros Hl Ht. unfold parse.
  rewrite CompactHeader_parse_inside by lia. cbn [bind]. cbv zeta.
  destruct (_find_first_table_ref_spec data) as [Hr _].
  destruct (parse_loop_total (length data) data (_find_first_table_ref data) st [])
    as [[[es final] st1] E]; [lia | exact Ht|].
  rewrite E. cbn [bind]. eexists _, _. reflexivity.
Qed.

Lemma parse_succeeds_unless_truncated_witness :
  exists block st',
    parse payload_with_unknown_byte init_stats = Ok (block, st').
Proof.
  apply (parse_succeeds_unless_truncated payload_with_unknown_byte init_stats).
  - vm_compute. discriminate.
  - reflexivity.
Defined.

(** ** Where the decode starts *)

Lemma _find_first_table_ref_default (data : bytes) :
  (byte_at data (_find_first_table_ref data) =? 0x08)
  && (byte_at data (_find_first_table_ref data + 1) =? 0x03) = true
  \/ forall i, 8 <= i < len data - 1 ->
       (byte_at data i =? 0x08) && (byte_at data (i + 1) =? 0x03) = false.
Proof.
  unfold _find_first_table_ref.
  destruct (find _ (range 8 (len data - 1))) as [p|] eqn:Hf.
  - left. apply find_some in Hf. apply Hf.
  - right. intros i Hi.
    apply (find_none _ _ Hf). apply range_spec. exact Hi.
Qed.

(** The preamble ends at the first 08 03 pair found from offset 8 on, the
    last byte of the buffer not being looked at as a first byte, so no such
    pair starts inside the preamble; without any such pair the preamble is
    empty and the decode starts right after the header. *)
Theorem preamble_ends_at_first_table_ref (data : bytes) :
  let p := _find_first_table_ref data in
  8 <= p
  /\ (forall i, 8 <= i < len data - 1 ->
        byte_at data i = 0x08 -> byte_at data (i + 1) = 0x03 ->
        p <= i /\ p < len data - 1
        /\ byte_at data p = 0x08 /\ byte_at data (p + 1) = 0x03)
  /\ ((forall i, 8 <= i < len data - 1 ->
         byte_at data i = 0x08 -> byte_at data (i + 1) <> 0x03) ->
      p = 8 /\ slice data 8 p = []).
Proof.
  cbv zeta.
  destruct (_find_first_table_ref_spec data) as (Hr & Hb & Hfirst).
  split; [lia|]. split.
  - intros i Hi H0 H1.
    assert (Hle : _find_first_table_ref data <= i).
    { destruct (Z.le_gt_cases (_find_first_table_ref data) i) as [|Hgt];
        [assumption|].
      specialize (Hfirst i ltac:(lia)). rewrite H0, H1 in Hfirst.
      discriminate Hfirst. }
    split; [exact Hle|]. split; [lia|].
    destruct (_find_first_table_ref_default data) as [Hd|Hd].
    + apply andb_true_iff in Hd. destruct Hd as [D0 D1].
      apply Z.eqb_eq in D0. apply Z.eqb_eq in D1. split; assumption.
    + specialize (Hd i Hi). rewrite H0, H1 in Hd. discriminate Hd.
  - intros Hnone.
    assert (E : _find_first_table_ref data = 8).
    { destruct (Z.eq_dec (_find_first_table_ref data) 8) as [|Hne]; [assumption|].
      destruct (Hb Hne) as [B0 B1]. exfalso.
      apply (Hnone (_find_first_table_ref data)); [lia | exact B0 | exact B1]. }
    split; [exact E|]. rewrite E. unfold slice.
    replace (Z.to_nat (8 - 8)) with 0%nat by lia. reflexivity.
Qed.

Lemma _parse_entry_table_ref (data : bytes) (pos : Z) (st : stats) :
  pos + 4 <= len data ->
  byte_at data pos = 0x08 -> byte_at data (pos + 1) = 0x03 ->
  _parse_entry data pos st
  = Ok (Some {| offset := pos; prefix := 0x0803; prefix_type := TABLE_REF;
                data := DataTableRef
                          (new_TableRef pos (byte_at data (pos + 2))
                                            (byte_at data (pos + 3)));
                size := 4 |}, 4, bump K_table_refs st).
Proof.
  intros Hl H0 H1. unfold _parse_entry.
  destruct (Z.geb_spec pos (len data - 1)); [lia|].
  cbv zeta. rewrite H0, H1.
  change ((8 =? 8) && (3 =? 3)) with true. cbv iota.
  unfold _parse_table_ref.
  destruct (Z.gtb_spec (pos + 4) (len data)); [lia | reflexivity].
Qed.

(** When the buffer holds an 08 03 pair with its two operand bytes, the first
    entry of the block is the TABLE_REF at the end of the preamble, carrying
    the table and property bytes that follow the pair, and it is also the
    first element of [table_refs]. *)
Theorem decode_starts_with_the_first_table_ref (data : bytes) (st st' : stats)
    (block : CompactBlock) :
  parse data st = Ok (block, st') ->
  let p := _find_first_table_ref data in
  byte_at data p = 0x08 -> byte_at data (p + 1) = 0x03 -> p + 4 <= len data ->
  let first :=
    {| offset := p; prefix := 0x0803; prefix_type := TABLE_REF;
       data := DataTableRef (new_TableRef p (byte_at data (p + 2))
                                            (byte_at data (p + 3)));
       size := 4 |} in
  exists rest refs,
    entries block = first :: rest
    /\ block_table_refs block
       = DataTableRef (new_TableRef p (byte_at data (p + 2))
                                      (byte_at data (p + 3))) :: refs
    /\ preamble block = slice data 8 p.
Proof.
  intros H. cbv zeta. intros H0 H1 Hl.
  apply parse_inv in H.
  destruct H as (h & final & Hh & Hd & _ & Hpre & _ & Hrefs & _).
  pose proof (_find_first_table_ref_range data h Hh) as Hr.
  unfold decode_from in Hd.
  destruct (length data) as [|n] eqn:Hn; [unfold len in Hl; lia|].
  cbn [parse_loop] in Hd.
  destruct (Z.ltb_spec (_find_first_table_ref data) (len data - 1)); [|lia].
  rewrite (_parse_entry_table_ref data _ st Hl H0 H1) in Hd. cbn [bind] in Hd.
  apply parse_loop_inv in Hd; [|lia|unfold len in *; lia].
  destruct Hd as (new & E & _). cbn [app] in E.
  exists new. rewrite Hrefs, E. unfold bucket. cbn [filter prefix_type existsb
    prefix_type_eqb orb map].
  eexists. split; [reflexivity|]. split; [reflexivity | exact Hpre].
Qed.

Lemma decode_starts_with_the_first_table_ref_witness :
  exists block st' rest refs,
    parse mixed_payload init_stats = Ok (block, st')
    /\ entries block
       = {| offset := 10; prefix := 0x0803; prefix_type := TABLE_REF;
            data := DataTableRef (new_TableRef 10 0x07 0x01); size := 4 |} :: rest
    /\ block_table_refs block = DataTableRef (new_TableRef 10 0x07 0x01) :: refs
    /\ preamble block = [0xEE; 0xEF].
Proof.
  destruct (parse mixed_payload init_stats) as [[block st']|] eqn:E;
    [|vm_compute in E; discriminate E].
  destruct (decode_starts_with_the_first_table_ref mixed_payload init_stats st'
              block E) as (rest & refs & He & Hr & Hp).
  - reflexivity.
  - reflexivity.
  - vm_compute. discriminate.
  - exists block, st', rest, refs. split; [reflexivity|].
    split; [exact He|]. split; [exact Hr | exact Hp].
Defined.

(** ** Variable-length values *)

Lemma firstn_snoc (A : Type) (n : nat) (l : list A) (d : A) :
  (n < length l)%nat -> firstn (S n) l = firstn n l ++ [nth n l d].
Proof.
  revert n. induction l as [|a l IH]; intros n Hn; cbn [length] in Hn; [lia|].
  destruct n as [|n]; [reflexivity|].
  cbn [firstn nth app]. f_equal. apply IH. lia.
Qed.

Lemma slice_snoc (data : bytes) (lo hi : Z) :
  0 <= lo <= hi -> hi < len data ->
  slice data lo (hi + 1) = slice data lo hi ++ [byte_at data hi].
Proof.
  intros H1 H2. unfold slice, byte_at, len in *.
  replace (Z.to_nat (hi + 1 - lo)) with (S (Z.to_nat (hi - lo))) by lia.
  rewrite (firstn_snoc _ _ _ 0) by (rewrite length_skipn; lia).
  rewrite nth_skipn. do 3 f_equal. lia.
Qed.

Lemma varint_value_app (l : bytes) (b : Z) :
  varint_value (l ++ [b]) = varint_value l + (b mod 128) * 128 ^ len l.
Proof.
  induction l as [|a l IH]; cbn [app varint_value].
  - change (128 ^ len []) with 1. lia.
  - rewrite IH, len_cons, Z.pow_add_r by (pose proof (len_nonneg l); lia).
    change (128 ^ 1) with 128. ring.
Qed.

Lemma varint_value_bound (l : bytes) : 0 <= varint_value l < 128 ^ len l.
Proof.
  induction l as [|a l IH]; cbn [varint_value].
  - change (128 ^ len []) with 1. lia.
  - rewrite len_cons, Z.pow_add_r by (pose proof (len_nonneg l); lia).
    change (128 ^ 1) with 128.
    pose proof (Z.mod_pos_bound a 128 ltac:(lia)). lia.
Qed.

Lemma read_varint_loop_spec (fuel : nat) (data : bytes) (pos r sh c : Z) :
  0 <= pos -> 0 <= c <= 5 -> pos + c <= len data ->
  len data - (pos + c) <= Z.of_nat fuel ->
  sh = 7 * c -> r = varint_value (slice data pos (pos + c)) ->
  (forall i, 0 <= i < c -> Z.land (byte_at data (pos + i)) 0x80 <> 0) ->
  let v := fst (read_varint_loop fuel data pos r sh c) in
  let n := snd (read_varint_loop fuel data pos r sh c) in
  c <= n <= 6 /\ pos + n <= len data
  /\ v = varint_value (slice data pos (pos + n))
  /\ (forall i, 0 <= i < n - 1 -> Z.land (byte_at data (pos + i)) 0x80 <> 0)
  /\ (n < 6 -> pos + n < len data ->
      Z.land (byte_at data (pos + n - 1)) 0x80 = 0).
Proof.
  revert r sh c. induction fuel as [|fuel IH];
    intros r sh c Hp Hc Hin Hf Hsh Hr Hset; cbv zeta; cbn [read_varint_loop].
  - cbn [fst snd]. repeat split; try lia; try exact Hr.
    intros i Hi. apply Hset. lia.
  - destruct (Z.ltb_spec (pos + c) (len data)) as [Hl|Hl].
    + assert (Hr' : Z.lor r (Z.shiftl (Z.land (byte_at data (pos + c)) 127) sh)
                    = varint_value (slice data pos (pos + (c + 1)))).
      { replace (pos + (c + 1)) with (pos + c + 1) by lia.
        rewrite slice_snoc, varint_value_app by lia.
        rewrite len_slice by lia.
        pose proof (varint_value_bound (slice data pos (pos + c))) as Hb.
        rewrite len_slice in Hb by lia.
        replace (pos + c - pos) with c in * by lia.
        assert (E : 2 ^ sh = 128 ^ c).
        { rewrite Hsh. rewrite Z.pow_mul_r by lia. reflexivity. }
        rewrite lor_shiftl_add by (rewrite ?E; lia).
        rewrite E, <- Hr.
        change 127 with (Z.ones 7). rewrite Z.land_ones by lia.
        reflexivity. }
      destruct (Z.eqb_spec (Z.land (byte_at data (pos + c)) 128) 0) as [Hz|Hz].
      * cbn [fst snd]. repeat split; try lia; try exact Hr'.
        -- intros i Hi. apply Hset. lia.
        -- intros _ _. replace (pos + (c + 1) - 1) with (pos + c) by lia.
           exact Hz.
      * destruct (Z.gtb_spec (c + 1) 5) as [Hg|Hg].
        -- cbn [fst snd]. repeat split; try lia; try exact Hr'.
           intros i Hi. apply Hset. lia.
        -- specialize (IH _ (sh + 7) (c + 1) Hp ltac:(lia) ltac:(lia) ltac:(lia)
                          ltac:(lia) Hr').
           cbv zeta in IH.
           destruct IH as (I1 & I2 & I3 & I4 & I5).
           { intros i Hi. destruct (Z.eq_dec i c) as [->|Hne];
               [exact Hz | apply Hset; lia]. }
           repeat split; try lia; assumption.
    + cbn [fst snd]. repeat split; try lia; try exact Hr.
      intros i Hi. apply Hset. lia.
Qed.

(** [_read_varint] reads a base-128 little-endian number: it takes bytes
    while they carry the continuation bit, at most six of them, and never
    past the end of the buffer; the value is the sum of the low seven bits of
    the bytes taken, the i-th weighted by 128^i; it takes at least one byte
    when there is one, and unless it stopped at the sixth byte or at the end
    of the buffer the last byte taken has its high bit clear. *)
Theorem varint_is_base_128_little_endian (data : bytes) (pos : Z) :
  0 <= pos <= len data ->
  let v := fst (_read_varint data pos) in
  let n := snd (_read_varint data pos) in
  0 <= n <= 6 /\ pos + n <= len data /\ (pos < len data -> 1 <= n)
  /\ v = varint_value (slice data pos (pos + n))
  /\ 0 <= v < 128 ^ n
  /\ (forall i, 0 <= i < n - 1 -> Z.land (byte_at data (pos + i)) 0x80 <> 0)
  /\ (n < 6 -> pos + n < len data ->
      Z.land (byte_at data (pos + n - 1)) 0x80 = 0).
Proof.
  intros Hp. cbv zeta.
  pose proof (read_varint_loop_spec (length data) data pos 0 0 0) as H.
  cbv zeta in H. fold (_read_varint data pos) in H.
  destruct H as (H1 & H2 & H3 & H4 & H5); try lia.
  - unfold len. lia.
  - rewrite Z.add_0_r. unfold slice. replace (Z.to_nat (pos - pos)) with 0%nat by lia.
    reflexivity.
  - split; [lia|]. split; [exact H2|].
    split; [intros Hl; apply _read_varint_starts; lia|].
    split; [exact H3|].
    split; [|split; assumption].
    rewrite H3.
    pose proof (varint_value_bound
                  (slice data pos (pos + snd (_read_varint data pos)))) as Hb.
    rewrite len_slice in Hb by lia.
    replace (pos + snd (_read_varint data pos) - pos)
      with (snd (_read_varint data pos)) in Hb by lia.
    exact Hb.
Qed.

Lemma varint_is_base_128_little_endian_witness :
  _read_varint mixed_payload 26 = (150, 2)
  /\ fst (_read_varint mixed_payload 26)
     = varint_value (slice mixed_payload 26
                       (26 + snd (_read_varint mixed_payload 26)))
  /\ varint_value [0x96; 0x01] = 150.
Proof.
  split; [reflexivity|]. split; [|reflexivity].
  apply (varint_is_base_128_little_endian mixed_payload 26).
  vm_compute. split; discriminate.
Defined.

Lemma extended_scan_spec (fuel : nat) (data : bytes) (pos e : Z) :
  pos + 8 - e <= Z.of_nat fuel -> e <= pos + 8 -> e <= len data ->
  let r := extended_scan fuel data pos e in
  e <= r <= pos + 8 /\ r <= len data
  /\ (forall i, e <= i < r ->
        is_prefix_lead (byte_at data i) || is_marker (byte_at data i) = false)
  /\ (r < pos + 8 -> r < len data ->
      is_prefix_lead (byte_at data r) || is_marker (byte_at data r) = true).
Proof.
  revert e. induction fuel as [|fuel IH]; intros e Hf He Hl; cbv zeta;
    [rewrite extended_scan_0 | rewrite extended_scan_S].
  - repeat split; try lia; intros i Hi; lia.
  - destruct (Z.ltb_spec e (len data)) as [H1|H1];
      destruct (Z.ltb_spec e (pos + 8)) as [H2|H2]; cbn [andb];
      try (repeat split; try lia; intros i Hi; lia).
    destruct (is_prefix_lead (byte_at data e)) eqn:Elead;
      [repeat split; try lia; try (intros i Hi; lia); intros _ _;
       rewrite Elead; reflexivity|].
    destruct (is_marker (byte_at data e)) eqn:Emark;
      [repeat split; try lia; try (intros i Hi; lia); intros _ _;
       rewrite Emark; apply orb_true_r|].
    specialize (IH (e + 1) ltac:(lia) ltac:(lia) ltac:(lia)). cbv zeta in IH.
    destruct IH as (I1 & I2 & I3 & I4).
    repeat split; try lia; try exact I4.
    intros i Hi. destruct (Z.eq_dec i e) as [->|Hne].
    + rewrite Elead, Emark. reflexivity.
    + apply I3. lia.
Qed.

Lemma forallb_slice (f : Z -> bool) (data : bytes) (lo hi : Z) :
  0 <= lo <= hi -> hi <= len data ->
  (forall i, lo <= i < hi -> f (byte_at data i) = true) ->
  forallb f (slice data lo hi) = true.
Proof.
  intros H1 H2 Hf. apply forallb_forall. intros x Hx.
  destruct (In_nth _ _ 0 Hx) as (k & Hk & <-).
  rewrite length_slice_inside in Hk by lia.
  pose proof (byte_at_slice data lo hi (Z.of_nat k) ltac:(lia) ltac:(lia)) as E.
  unfold byte_at at 1 in E. rewrite Nat2Z.id in E. rewrite E.
  apply Hf. lia.
Qed.

(** The variable-length value of an EXTENDED_1C of subtype 0x24, 0x25, 0x21
    or 0x23 is the run of bytes after the subtype byte up to the next byte
    that could start a prefix or is a marker: it holds no such byte, has at
    most five bytes and does not leave the buffer, and unless it has five
    bytes or reaches the end of the buffer it is followed by such a byte.
    The entry takes the three leading bytes and the value. *)
Theorem reference_value_stops_at_the_next_prefix (data : bytes) (pos : Z)
    (st : stats) :
  0 <= pos -> pos + 3 <= len data ->
  In (byte_at data (pos + 2)) [0x24; 0x25; 0x21; 0x23] ->
  exists value,
    _parse_extended_1c data pos st
    = Ok (Some {| offset := pos; prefix := 0x1C04; prefix_type := EXTENDED_1C;
                  data := DataExtended
                            {| ev_offset := pos;
                               subtype := byte_at data (pos + 2);
                               ev_value := PyBytes value;
                               ev_raw_bytes := slice data pos (pos + (3 + len value)) |};
                  size := 3 + len value |},
          3 + len value, bump K_extended_1c04 st)
    /\ value = slice data (pos + 3) (pos + 3 + len value)
    /\ len value <= 5
    /\ forallb (fun b => negb (is_prefix_lead b || is_marker b)) value = true
    /\ (len value < 5 -> pos + 3 + len value < len data ->
        is_prefix_lead (byte_at data (pos + 3 + len value))
        || is_marker (byte_at data (pos + 3 + len value)) = true).
Proof.
  intros Hp Hl Hsub.
  pose proof (extended_scan_spec 5 data pos (pos + 3) ltac:(lia) ltac:(lia) Hl) as H.
  cbv zeta in H. destruct H as (H1 & H2 & H3 & H4).
  set (end_ := extended_scan 5 data pos (pos + 3)) in *.
  exists (slice data (pos + 3) end_).
  assert (Hlen : len (slice data (pos + 3) end_) = end_ - (pos + 3))
    by (apply len_slice; lia).
  rewrite Hlen.
  replace (3 + (end_ - (pos + 3))) with (end_ - pos) by lia.
  replace (pos + 3 + (end_ - (pos + 3))) with end_ by lia.
  split; [|split; [reflexivity|]; split; [lia|]; split].
  - unfold _parse_extended_1c.
    destruct (Z.gtb_spec (pos + 3) (len data)); [lia|]. cbv zeta.
    assert (E : (byte_at data (pos + 2) =? 8) = false
                /\ existsb (Z.eqb (byte_at data (pos + 2))) [10; 11] = false
                /\ existsb (Z.eqb (byte_at data (pos + 2))) [36; 37; 33; 35] = true).
    { cbn [In] in Hsub.
      destruct Hsub as [<-|[<-|[<-|[<-|[]]]]]; repeat split; reflexivity. }
    destruct E as (-> & -> & ->). fold end_. cbn [bind]. reflexivity.
  - apply forallb_slice; [lia | lia|].
    intros i Hi. rewrite (H3 i Hi). reflexivity.
  - intros Hshort Hin. apply H4; lia.
Qed.

Lemma reference_value_stops_at_the_next_prefix_witness :
  exists e st,
    _parse_extended_1c mixed_payload 14 init_stats = Ok (Some e, 6, st)
    /\ data e = DataExtended {| ev_offset := 14; subtype := 0x24;
                                ev_value := PyBytes [0x41; 0x42; 0x43];
                                ev_raw_bytes := [0x1C; 0x04; 0x24; 0x41; 0x42; 0x43] |}
    /\ is_prefix_lead (byte_at mixed_payload 20) = true.
Proof.
  destruct (reference_value_stops_at_the_next_prefix mixed_payload 14 init_stats)
    as (value & H & Hv & _).
  - lia.
  - vm_compute. discriminate.
  - left. reflexivity.
  - eexists _, _. split; [reflexivity|]. split; reflexivity.
Defined.

(** ** Single entries *)

Lemma skip_step (data : bytes) (pos c : Z) (st : stats) (acc : list ParsedEntry) :
  0 <= pos < len data - 1 ->
  _parse_entry data pos st = Ok (None, c, st) ->
  decode_from data pos st acc
  = decode_from data (pos + 1) (bump K_unknown st) acc.
Proof.
  intros Hpos Hstep. unfold decode_from.
  destruct (length data) as [|n] eqn:Hn; [unfold len in Hpos; lia|].
  rewrite (parse_loop_fuel data (S n) n (pos + 1))
    by (unfold len in *; lia).
  cbn [parse_loop].
  destruct (Z.ltb_spec pos (len data - 1)); [|lia].
  rewrite Hstep. reflexivity.
Qed.

Ltac prefix_case :=
  cbv beta iota zeta delta [Z.eqb Pos.eqb andb];
  match goal with
  | |- ?f ?data ?pos ?st = _ => unfold f
  end;
  match goal with
  | |- context [if ?g >? ?l then _ else _] => destruct (Z.gtb_spec g l)
  end; [reflexivity | lia].

(** An entry whose prefix is recognised but whose body does not fit in what
    is left of the buffer is not decoded and is not an error: [_parse_entry]
    returns no entry and a consumed count of 0, and the loop counts the first
    byte of the prefix as unclassified and goes on from the next byte. *)
Theorem entry_cut_short_is_skipped (data : bytes) (pos need : Z) (st : stats)
    (acc : list ParsedEntry) :
  0 <= pos < len data - 1 ->
  In (byte_at data pos, byte_at data (pos + 1), need) needed_bytes ->
  len data < pos + need ->
  _parse_entry data pos st = Ok (None, 0, st)
  /\ decode_from data pos st acc
     = decode_from data (pos + 1) (bump K_unknown st) acc.
Proof.
  intros Hpos Hin Hcut.
  assert (Hstep : _parse_entry data pos st = Ok (None, 0, st)).
  { unfold _parse_entry.
    destruct (Z.geb_spec pos (len data - 1)); [lia|].
    cbv zeta. unfold needed_bytes in Hin. cbn [In] in Hin.
    repeat (destruct Hin as [Hin|Hin];
            [injection Hin as E0 E1 <-; rewrite <- E0, <- E1; prefix_case|]).
    contradiction. }
  split; [exact Hstep|]. eapply skip_step; eassumption.
Qed.

Lemma entry_cut_short_is_skipped_witness :
  _parse_entry payload_with_cut_value 12 init_stats = Ok (None, 0, init_stats)
  /\ decode_from payload_with_cut_value 12 init_stats []
     = decode_from payload_with_cut_value 13 (bump K_unknown init_stats) []
  /\ exists st, decode_from payload_with_cut_value 12 init_stats []
                = Ok ([], 15, st) /\ unknown st = 3.
Proof.
  destruct (entry_cut_short_is_skipped payload_with_cut_value 12 6 init_stats [])
    as [H1 H2].
  - vm_compute. split; [discriminate | reflexivity].
  - right. right. right. left. reflexivity.
  - reflexivity.
  - split; [exact H1|]. split; [exact H2|].
    eexists. split; [vm_compute; reflexivity | reflexivity].
Defined.

(** A marker byte anywhere but in the last position of the buffer is always
    decoded as a marker, whatever byte follows it: none of the sixteen
    prefixes starts with 0x6D, 0xDB or 0xCD.  The entry takes one byte, has
    prefix type UNKNOWN, and steps the counter of its marker and nothing
    else. *)
Theorem markers_are_always_recognised (data : bytes) (pos : Z) (st : stats) :
  0 <= pos < len data - 1 ->
  (byte_at data pos = 0x6D ->
   _parse_entry data pos st
   = Ok (Some (marker_entry pos 0x6D "TRUE" (Some 1)), 1, bump K_marker_6D st))
  /\ (byte_at data pos = 0xDB ->
      _parse_entry data pos st
      = Ok (Some (marker_entry pos 0xDB "FALSE" (Some 0)), 1, bump K_marker_DB st))
  /\ (byte_at data pos = 0xCD ->
      _parse_entry data pos st
      = Ok (Some (marker_entry pos 0xCD "CD" None), 1, bump K_marker_CD st)).
Proof.
  intros Hpos.
  repeat split; intros E; unfold _parse_entry;
    (destruct (Z.geb_spec pos (len data - 1)); [lia|]);
    cbv zeta; rewrite E;
    cbv beta iota zeta delta [Z.eqb Pos.eqb andb MARKER_TRUE MARKER_FALSE MARKER_CD];
    reflexivity.
Qed.

Lemma markers_are_always_recognised_witness :
  _parse_entry payload_with_markers 8 init_stats
  = Ok (Some (marker_entry 8 0x6D "TRUE" (Some 1)), 1, bump K_marker_6D init_stats)
  /\ _parse_entry payload_with_markers 9 init_stats
     = Ok (Some (marker_entry 9 0xDB "FALSE" (Some 0)), 1,
           bump K_marker_DB init_stats)
  /\ _parse_entry payload_with_markers 11 init_stats = Ok (None, 0, init_stats).
Proof.
  split; [|split].
  - apply (markers_are_always_recognised payload_with_markers 8 init_stats);
      [vm_compute; split; [discriminate | reflexivity] | reflexivity].
  - apply (markers_are_always_recognised payload_with_markers 9 init_stats);
      [vm_compute; split; [discriminate | reflexivity] | reflexivity].
  - reflexivity.
Defined.

Lemma pack_I_le_uint (l : bytes) :
  is_bytes l = true -> length l = 4%nat -> pack_I (le_uint l) = Ok l.
Proof.
  intros Hb L.
  destruct l as [|a [|b [|c [|d [|]]]]]; try discriminate L.
  cbn [is_bytes forallb] in Hb. unfold is_byte in Hb.
  repeat (apply andb_true_iff in Hb; destruct Hb as [? Hb]).
  assert (Ha : 0 <= a < 256) by lia. assert (Hb' : 0 <= b < 256) by lia.
  assert (Hc : 0 <= c < 256) by lia. assert (Hd : 0 <= d < 256) by lia.
  cbn [le_uint]. unfold pack_I.
  set (n := a + 256 * (b + 256 * (c + 256 * (d + 256 * 0)))).
  assert (Hn : 0 <= n < 4294967296) by (unfold n; lia).
  destruct (Z.leb_spec 0 n); [|lia]. destruct (Z.ltb_spec n 4294967296); [|lia].
  cbn [andb].
  assert (E0 : n mod 256 = a)
    by (symmetry; apply (Z.mod_unique n 256 (b + 256 * (c + 256 * d))); unfold n; lia).
  assert (E1 : (n / 256) mod 256 = b).
  { replace (n / 256) with (b + 256 * (c + 256 * d))
      by (apply (Z.div_unique n 256 _ a); unfold n; lia).
    symmetry. apply (Z.mod_unique _ 256 (c + 256 * d)); lia. }
  assert (E2 : (n / 65536) mod 256 = c).
  { replace (n / 65536) with (c + 256 * d)
      by (apply (Z.div_unique n 65536 _ (a + 256 * b)); unfold n; lia).
    symmetry. apply (Z.mod_unique _ 256 d); lia. }
  assert (E3 : (n / 16777216) mod 256 = d).
  { replace (n / 16777216) with d
      by (apply (Z.div_unique n 16777216 _ (a + 256 * b + 65536 * c));
          unfold n; lia).
    apply Z.mod_small. lia. }
  rewrite E0, E1, E2, E3. reflexivity.
Qed.

Ltac fixed_case Hl :=
  cbv beta iota zeta delta [Z.eqb Pos.eqb andb];
  match goal with
  | |- exists e fv st', ?f ?data ?pos ?st = _ /\ _ => unfold f
  end;
  match goal with
  | |- context [if ?g >? ?l then _ else _] => destruct (Z.gtb_spec g l)
  end; [lia|];
  rewrite unpack_I_inside by lia; cbn [bind];
  eexists _, _, _; split; [reflexivity|];
  cbn [data fv_offset fv_prefix fv_raw_bytes fv_value];
  split; [reflexivity|]; split; [reflexivity|]; split; [reflexivity|];
  split; reflexivity.

(** A VALUE_15, VALUE_12 or FIXED32 entry that fits in the buffer takes six
    bytes; its value is the 32-bit little-endian number of the last four,
    and packing that value with [struct.pack('<I', ...)] gives those four
    bytes back, so the raw bytes of the entry are its two prefix bytes
    followed by its packed value. *)
Theorem fixed_value_round_trip (data : bytes) (pos : Z) (st : stats) :
  is_bytes data = true ->
  0 <= pos -> pos + 6 <= len data ->
  In (byte_at data pos, byte_at data (pos + 1)) fixed_prefixes ->
  exists e fv st',
    _parse_entry data pos st = Ok (Some e, 6, st')
    /\ CompactFormat.data e = DataFixed fv
    /\ fv_offset fv = pos
    /\ fv_prefix fv = 256 * byte_at data pos + byte_at data (pos + 1)
    /\ fv_value fv = le_uint (slice data (pos + 2) (pos + 6))
    /\ fv_raw_bytes fv = slice data pos (pos + 6)
    /\ pack_I (fv_value fv) = Ok (slice data (pos + 2) (pos + 6))
    /\ forall packed, pack_I (fv_value fv) = Ok packed ->
         fv_raw_bytes fv = [byte_at data pos; byte_at data (pos + 1)] ++ packed.
Proof.
  intros Hb Hp Hl Hin.
  assert (Hpack : pack_I (le_uint (slice data (pos + 2) (pos + 6)))
                  = Ok (slice data (pos + 2) (pos + 6))).
  { apply pack_I_le_uint; [apply is_bytes_slice; exact Hb|].
    rewrite length_slice_inside by lia. lia. }
  assert (Hraw : slice data pos (pos + 6)
                 = [byte_at data pos; byte_at data (pos + 1)]
                   ++ slice data (pos + 2) (pos + 6)).
  { replace (pos + 6) with (pos + 2 + 4) at 1 by lia.
    rewrite <- (firstn_skipn 2 (slice data pos (pos + 2 + 4))).
    f_equal.
    - assert (L : length (firstn 2 (slice data pos (pos + 2 + 4))) = 2%nat)
        by (rewrite length_firstn, length_slice_inside by lia; lia).
      pose proof (byte_at_slice data pos (pos + 2 + 4) 0 Hp ltac:(lia)) as B0.
      pose proof (byte_at_slice data pos (pos + 2 + 4) 1 Hp ltac:(lia)) as B1.
      rewrite Z.add_0_r in B0. rewrite <- B0, <- B1.
      unfold byte_at.
      change (Z.to_nat 0) with 0%nat. change (Z.to_nat 1) with 1%nat.
      destruct (slice data pos (pos + 2 + 4)) as [|x0 [|x1 l]];
        try discriminate L. reflexivity.
    - unfold slice. rewrite skipn_firstn_comm, skipn_skipn.
      f_equal; [lia | f_equal; lia]. }
  assert (Hgoal :
    exists e fv st',
      _parse_entry data pos st = Ok (Some e, 6, st')
      /\ CompactFormat.data e = DataFixed fv
      /\ fv_offset fv = pos
      /\ fv_prefix fv = 256 * byte_at data pos + byte_at data (pos + 1)
      /\ fv_value fv = le_uint (slice data (pos + 2) (pos + 6))
      /\ fv_raw_bytes fv = slice data pos (pos + 6)).
  { unfold _parse_entry.
    destruct (Z.geb_spec pos (len data - 1)); [lia|].
    cbv zeta. unfold fixed_prefixes in Hin. cbn [In] in Hin.
    destruct Hin as [Hin|[Hin|[Hin|[]]]];
      injection Hin as E0 E1; rewrite <- E0, <- E1; fixed_case Hl. }
  destruct Hgoal as (e & fv & st' & H1 & H2 & H3 & H4 & H5 & H6).
  exists e, fv, st'.
  split; [exact H1|]. split; [exact H2|]. split; [exact H3|].
  split; [exact H4|]. split; [exact H5|]. split; [exact H6|].
  rewrite H5. split; [exact Hpack|].
  intros packed Hpk. rewrite Hpack in Hpk. injection Hpk as <-.
  rewrite H6. exact Hraw.
Qed.

Lemma fixed_value_round_trip_witness :
  exists e fv st',
    _parse_entry sample_payload 12 init_stats = Ok (Some e, 6, st')
    /\ CompactFormat.data e = DataFixed fv
    /\ fv_value fv = 0xDDCCBBAA
    /\ pack_I (fv_value fv) = Ok [0xAA; 0xBB; 0xCC; 0xDD].
Proof.
  destruct (fixed_value_round_trip sample_payload 12 init_stats)
    as (e & fv & st' & H1 & H2 & _ & _ & H5 & _ & H7 & _).
  - reflexivity.
  - lia.
  - vm_compute. discriminate.
  - left. reflexivity.
  - exists e, fv, st'. split; [exact H1|]. split; [exact H2|].
    split; [rewrite H5; reflexivity|]. rewrite H7. reflexivity.
Defined.

(** *** Table references *)

Lemma table_ids_resolve :
  forallb (fun k => match table_lookup TABLE_ID_TO_TYPE (Z.of_nat k) with
                    | Some _ => true
                    | None => false
                    end) (seq 0 104) = true.
Proof. vm_compute. reflexivity. Qed.

Lemma table_keys_distinct : NoDup (map fst TABLE_ID_TO_TYPE).
Proof.
  assert (E : nodup Z.eq_dec (map fst TABLE_ID_TO_TYPE) = map fst TABLE_ID_TO_TYPE)
    by (vm_compute; reflexivity).
  rewrite <- E. apply NoDup_nodup.
Qed.

(** A TABLE_REF carries a type hash and a type name together or neither, and
    it carries both whenever its table id lies between 0x00 and 0x67; the keys
    of [TABLE_ID_TO_TYPE] are pairwise distinct, so the lookup does not depend
    on the order of the table. *)
Theorem table_ref_type_is_all_or_nothing (offset table_id property_id : Z) :
  let r := new_TableRef offset table_id property_id in
  (type_hash r = None <-> type_name r = None)
  /\ (0 <= table_id <= 0x67 -> type_hash r <> None /\ type_name r <> None)
  /\ (forall h n, In (table_id, (h, n)) TABLE_ID_TO_TYPE ->
        type_hash r = Some h /\ type_name r = Some n)
  /\ CompactFormat.table_id r = table_id
  /\ CompactFormat.property_id r = property_id
  /\ tr_offset r = offset.
Proof.
  cbv zeta. unfold new_TableRef.
  split; [|split; [|split]].
  - destruct (table_lookup TABLE_ID_TO_TYPE table_id) as [[h n]|];
      cbn [type_hash type_name]; split; intros H; try discriminate H; reflexivity.
  - intros Hr.
    pose proof table_ids_resolve as Hall. rewrite forallb_forall in Hall.
    specialize (Hall (Z.to_nat table_id)).
    rewrite Z2Nat.id in Hall by lia.
    destruct (table_lookup TABLE_ID_TO_TYPE table_id) as [[h n]|];
      cbn [type_hash type_name]; [split; discriminate|].
    assert (F : false = true) by (apply Hall; apply in_seq; lia).
    discriminate F.
  - intros h n Hin.
    assert (E : table_lookup TABLE_ID_TO_TYPE table_id = Some (h, n)).
    { pose proof table_keys_distinct as Hnd. revert Hin Hnd.
      generalize TABLE_ID_TO_TYPE as t.
      induction t as [|[k v] t IH]; intros Hin Hnd; [destruct Hin|].
      cbn [table_lookup]. cbn [map fst] in Hnd. inversion Hnd as [|? ? Hk Hnd'].
      subst. destruct Hin as [Hin|Hin].
      - injection Hin as -> ->. rewrite Z.eqb_refl. reflexivity.
      - destruct (Z.eqb_spec k table_id) as [->|Hne].
        + exfalso. apply Hk. apply (in_map fst) in Hin. exact Hin.
        + apply IH; assumption. }
    rewrite E. cbn [type_hash type_name]. split; reflexivity.
  - destruct (table_lookup TABLE_ID_TO_TYPE table_id) as [[h n]|];
      repeat split; reflexivity.
Qed.

Lemma table_ref_type_is_all_or_nothing_witness :
  type_name (new_TableRef 8 0x16 0x02) = Some "PlayerOptionsElement"%string
  /\ type_hash (new_TableRef 8 0x16 0x02) = Some 0x0AFD89DC
  /\ type_name (new_TableRef 8 0x70 0x02) = None.
Proof.
  pose proof (table_ref_type_is_all_or_nothing 8 0x16 0x02) as H.
  cbv zeta in H. destruct H as (_ & _ & H & _).
  destruct (H 0x0AFD89DC "PlayerOptionsElement"%string) as [Hh Hn].
  - vm_compute. do 22 right. left. reflexivity.
  - split; [exact Hn|]. split; [exact Hh | reflexivity].
Defined.

(** *** Entries that are not counted *)

Ltac uncounted_case :=
  cbv beta iota zeta delta [Z.eqb Pos.eqb andb];
  match goal with
  | |- exists e, ?f ?data ?pos ?st = _ /\ _ => unfold f
  end;
  match goal with
  | |- context [if ?g >? ?l then _ else _] => destruct (Z.gtb_spec g l)
  end; [lia|];
  rewrite unpack_H_inside by lia; cbn [bind];
  eexists; split; [reflexivity|];
  cbn [offset size prefix data];
  repeat split; reflexivity.

(** The entries with prefix 0C 18, 10 13, 18 30 and 14 0E are decoded (four
    bytes, the value being the 16-bit little-endian number of the last two)
    but leave every counter of the parser as it was: the statistics do not
    count them, neither under a prefix nor as unknown bytes. *)
Theorem some_prefixes_are_never_counted (data : bytes) (pos : Z) (st : stats) :
  0 <= pos -> pos + 4 <= len data ->
  In (byte_at data pos, byte_at data (pos + 1)) uncounted_prefixes ->
  exists e,
    _parse_entry data pos st = Ok (Some e, 4, st)
    /\ offset e = pos
    /\ size e = 4
    /\ prefix e = 256 * byte_at data pos + byte_at data (pos + 1)
    /\ CompactFormat.data e = DataValue (le_uint (slice data (pos + 2) (pos + 4))).
Proof.
  intros Hp Hl Hin. unfold _parse_entry.
  destruct (Z.geb_spec pos (len data - 1)); [lia|].
  cbv zeta. unfold uncounted_prefixes in Hin. cbn [In] in Hin.
  destruct Hin as [Hin|[Hin|[Hin|[Hin|[]]]]];
    injection Hin as E0 E1; rewrite <- E0, <- E1; uncounted_case.
Qed.

Lemma some_prefixes_are_never_counted_witness :
  exists e,
    _parse_entry payload_with_uncounted 8 init_stats = Ok (Some e, 4, init_stats)
    /\ CompactFormat.data e = DataValue 0x1234
    /\ prefix e = 0x1830.
Proof.
  destruct (some_prefixes_are_never_counted payload_with_uncounted 8 init_stats)
    as (e & H & _ & _ & Hpre & Hd).
  - lia.
  - vm_compute. discriminate.
  - right. right. left. reflexivity.
  - exists e. split; [exact H|]. split; [rewrite Hd | rewrite Hpre]; reflexivity.
Defined.

(** A TYPE_REF entry always carries the two bytes after its prefix: the
    fallback value 0 for [extra] is never used, because an entry is returned
    only when four bytes are available. *)
Theorem type_ref_extra_is_always_read (data : bytes) (pos : Z) (st st' : stats)
    (e : ParsedEntry) (c : Z) :
  _parse_type_ref data pos st = Ok (Some e, c, st') ->
  c = 4 /\ pos + 4 <= len data
  /\ CompactFormat.data e
     = DataTypeRef (byte_at data (pos + 2)) (byte_at data (pos + 3))
  /\ prefix_type e = TYPE_REF_10
  /\ st' = bump K_type_ref_1006 st.
Proof.
  unfold _parse_type_ref. intros H.
  destruct (Z.gtb_spec (pos + 4) (len data)) as [Hg|Hg]; [discriminate H|].
  cbv zeta in H.
  destruct (Z.ltb_spec (pos + 3) (len data)); [|lia].
  apply Ok_inj in H. injection H as <- <- <-.
  repeat split; try reflexivity; lia.
Qed.

Lemma type_ref_extra_is_always_read_witness :
  exists e st',
    _parse_type_ref payload_with_uncounted 12 init_stats = Ok (Some e, 4, st')
    /\ CompactFormat.data e = DataTypeRef 0x07 0x09.
Proof.
  eexists _, _. split; [reflexivity|].
  eapply (type_ref_extra_is_always_read payload_with_uncounted 12 init_stats).
  reflexivity.
Defined.

(** * Further properties of the container *)

(** ** The region scan on an arbitrary buffer *)

Lemma find_region_first (fuel : nat) (data : bytes) (pos pos' : Z)
    (found : option (Z * Z)) :
  len data - 8 - pos <= Z.of_nat fuel ->
  find_region fuel data pos = (found, pos') ->
  match found with
  | Some (o, s) =>
      pos <= o < len data - 8 /\ no_header_between data pos o
      /\ region_match data o = true /\ s = region_size_at data o
      /\ pos' = o + 8 + s + 5
  | None => no_header_between data pos (len data - 8) /\ pos <= pos'
  end.
Proof.
  revert pos. induction fuel as [|fuel IH]; intros pos Hf H.
  - cbn [find_region] in H. injection H as <- <-.
    split; [intros i Hi; lia | lia].
  - destruct (Z.lt_ge_cases pos (len data - 8)) as [Hl|Hl].
    + destruct (region_match data pos) eqn:Hm.
      * rewrite find_region_hit in H by assumption. injection H as <- <-.
        split; [lia|]. split; [intros i Hi; lia|].
        split; [exact Hm|]. split; reflexivity.
      * rewrite find_region_miss in H by assumption.
        apply IH in H; [|lia].
        destruct found as [[o s]|].
        -- destruct H as (H1 & H2 & H3 & H4 & H5).
           split; [lia|]. split; [|repeat split; assumption].
           intros i Hi. destruct (Z.eq_dec i pos) as [->|Hne];
             [exact Hm | apply H2; lia].
        -- destruct H as (H1 & H2). split; [|lia].
           intros i Hi. destruct (Z.eq_dec i pos) as [->|Hne];
             [exact Hm | apply H1; lia].
    + cbn [find_region] in H.
      destruct (Z.ltb_spec pos (len data - 8)); [lia|].
      injection H as <- <-. split; [intros i Hi; lia | lia].
Qed.

Lemma scan_loop_first_headers (n : nat) (data : bytes) (pos final : Z)
    (rs : list (Z * Z)) :
  0 <= pos ->
  scan_loop n data pos = (rs, final) ->
  first_headers data pos rs
  /\ ((length rs < n)%nat ->
      no_header_between data (regions_end pos rs) (len data - 8)).
Proof.
  revert pos rs final. induction n as [|n IH]; intros pos rs final Hp H;
    cbn [scan_loop] in H.
  - injection H as <- <-. split; [exact I|]. cbn [length]. lia.
  - destruct (find_region (length data) data pos) as [found pos'] eqn:Hf.
    destruct (scan_loop n data pos') as [rs' final'] eqn:Hs.
    injection H as <- <-.
    apply find_region_first in Hf; [|unfold len; lia].
    destruct found as [[o s]|].
    + destruct Hf as (H1 & H2 & H3 & H4 & ->).
      assert (Hs0 : 0 < s).
      { unfold region_match in H3. rewrite <- H4 in H3.
        apply andb_true_iff in H3. destruct H3 as [_ H3].
        apply andb_true_iff in H3. lia. }
      apply IH in Hs; [|lia]. destruct Hs as [I1 I2].
      split.
      * cbn [first_headers]. repeat split; try assumption; lia.
      * cbn [length regions_end]. intros Hlt. apply I2. lia.
    + destruct Hf as [H1 H2].
      apply IH in Hs; [|lia]. destruct Hs as [I1 I2].
      destruct rs' as [|[o s] rs'].
      * split; [exact I|]. intros _. exact H1.
      * exfalso. cbn [first_headers] in I1.
        destruct I1 as (J1 & _ & J3 & _).
        rewrite (H1 o) in J3 by lia. discriminate J3.
Qed.



(** ** What parse_sav_blocks accepts *)

Lemma read_block_sizes_cases (data : bytes) :
  is_bytes data = true ->
  let s1 := le_uint (slice data 0x20 0x24) in
  (len data < 0x24 /\ read_block_sizes data = Raise StructError)
  \/ (0x24 <= len data /\ 0 <= s1 /\ len data < 0x2C + s1 + 0x24
      /\ read_block_sizes data = Raise StructError)
  \/ (0 <= s1 /\ 0x2C + s1 + 0x24 <= len data
      /\ exists s2, read_block_sizes data = Ok (s1, s2)).
Proof.
  intros Hb. cbv zeta. unfold read_block_sizes.
  destruct (Z.lt_ge_cases (len data) 0x24) as [H1|H1].
  - left. split; [exact H1|].
    rewrite unpack_I_short by lia. reflexivity.
  - right. rewrite (unpack_I_inside data 0x20 0x24) by lia. cbn [bind].
    pose proof (le_uint_nonneg _ (is_bytes_slice data 0x20 0x24 Hb)) as Hs.
    set (s1 := le_uint (slice data 0x20 0x24)) in *.
    destruct (Z.lt_ge_cases (len data) (0x2C + s1 + 0x24)) as [H2|H2].
    + left. repeat split; try lia.
      rewrite unpack_I_short by lia. reflexivity.
    + right. repeat split; try lia.
      rewrite unpack_I_inside by lia. cbn [bind]. eexists. reflexivity.
Qed.

Lemma parse_sav_blocks_after_sizes (data : bytes) (s1 s2 : Z) :
  read_block_sizes data = Ok (s1, s2) ->
  (exists blk, parse_sav_blocks data = Ok blk)
  \/ (exists n, parse_sav_blocks data = Raise (ValueError n) /\ (n < 4)%nat).
Proof.
  intros H.
  pose proof (scan_regions_length data (0x2C + s1 + 44 + s2)) as Hle.
  destruct (Nat.eq_dec (length (scan_regions data (0x2C + s1 + 44 + s2))) 4)
    as [E|E].
  - left. eapply parse_sav_blocks_four_regions; eassumption.
  - right. eexists. split.
    + apply parse_sav_blocks_few_regions; [exact H | lia].
    + lia.
Qed.

(** [parse_sav_blocks] raises [struct.error] exactly when one of the two size
    fields it reads cannot be read in full: the file has fewer than 0x24
    bytes, or it ends before the size field of the second header, whose place
    depends on the first size.  Its only other failure is the [ValueError] of
    the region scan, with a count below four; sizes that run past the end of
    the file are not an error. *)
Theorem size_fields_must_be_readable (data : bytes) :
  is_bytes data = true ->
  let s1 := le_uint (slice data 0x20 0x24) in
  (parse_sav_blocks data = Raise StructError
   <-> len data < 0x24 \/ len data < 0x2C + s1 + 0x24)
  /\ (forall x, parse_sav_blocks data = Raise x ->
        x = StructError \/ exists n, x = ValueError n /\ (n < 4)%nat).
Proof.
  intros Hb. cbv zeta.
  destruct (read_block_sizes_cases data Hb)
    as [(H1 & E)|[(H1 & Hs & H2 & E)|(Hs & H2 & s2 & E)]].
  - assert (P : parse_sav_blocks data = Raise StructError)
      by (unfold parse_sav_blocks; rewrite E; reflexivity).
    split; [split; [intros _; left; exact H1 | intros _; exact P]|].
    intros x Hx. rewrite P in Hx. injection Hx as <-. left. reflexivity.
  - assert (P : parse_sav_blocks data = Raise StructError)
      by (unfold parse_sav_blocks; rewrite E; reflexivity).
    split; [split; [intros _; right; exact H2 | intros _; exact P]|].
    intros x Hx. rewrite P in Hx. injection Hx as <-. left. reflexivity.
  - destruct (parse_sav_blocks_after_sizes data _ s2 E) as [[blk P]|(n & P & Hn)].
    + split; [split; [intros Hx; rewrite P in Hx; discriminate Hx | lia]|].
      intros x Hx. rewrite P in Hx. discriminate Hx.
    + split; [split; [intros Hx; rewrite P in Hx; discriminate Hx | lia]|].
      intros x Hx. rewrite P in Hx. injection Hx as <-.
      right. exists n. split; [reflexivity | exact Hn].
Qed.

Lemma size_fields_must_be_readable_witness :
  len sample_cut_in_header2 = 60
  /\ le_uint (slice sample_cut_in_header2 0x20 0x24) = 2
  /\ parse_sav_blocks sample_cut_in_header2 = Raise StructError.
Proof.
  split; [reflexivity|]. split; [reflexivity|].
  apply (size_fields_must_be_readable sample_cut_in_header2 eq_refl).
  right. vm_compute. reflexivity.
Defined.

Lemma first_headers_nth3 (data : bytes) (pos o s : Z) (rs : list (Z * Z)) :
  first_headers data pos rs -> length rs = 4%nat -> nth 3 rs (0, 0) = (o, s) ->
  region_match data o = true /\ s = region_size_at data o /\ o < len data - 8.
Proof.
  intros H L E.
  destruct rs as [|[o1 z1] [|[o2 z2] [|[o3 z3] [|[o4 z4] [|]]]]];
    try discriminate L.
  cbn [nth] in E. injection E as <- <-.
  cbn [first_headers] in H.
  destruct H as (_ & _ & _ & _ & _ & _ & _ & _ & _ & _ & _ & _
                 & H1 & _ & H3 & H4 & _).
  repeat split; [exact H3 | exact H4 | lia].
Qed.

(** In what [parse_sav_blocks] returns, [region4_offset_in_block3] points at a
    region header inside [block3_raw] (signature byte 0x01 and bytes 00 00 80
    00), Block 3 ends with the five bytes after that header, and the size
    declared there, strictly between 0 and 50000, bounds the length of
    [block4_compressed]: Block 4 has exactly the declared length whenever any
    byte of Block 5 follows it, and is silently shorter when the file ends
    early. *)
Theorem region4_declares_block4 (data : bytes) (blk : sav_blocks) :
  is_bytes data = true ->
  parse_sav_blocks data = Ok blk ->
  let r := region4_offset_in_block3 blk in
  let declared := le_uint (slice (block3_raw blk) (r + 1) (r + 4)) in
  0 <= r
  /\ byte_at (block3_raw blk) r = 0x01
  /\ slice (block3_raw blk) (r + 4) (r + 8) = [0x00; 0x00; 0x80; 0x00]
  /\ len (block3_raw blk) <= r + 13
  /\ 0 < declared < 50000
  /\ len (block4_compressed blk) <= declared
  /\ (block5_raw blk <> [] -> len (block4_compressed blk) = declared).
Proof.
  intros Hb H. cbv zeta.
  apply parse_sav_blocks_inv in H.
  destruct H as (s1 & s2 & o4 & s4 & Hsz & Hlen & Hnth & Hr & ->).
  destruct (read_block_sizes_ok _ _ _ Hb Hsz) as (Hs1 & Hs2 & Hin).
  unfold region_in_range in Hr. cbn [fst snd] in Hr. destruct Hr as [Ho Hs].
  set (b3 := 0x2C + s1 + 44 + s2) in *.
  assert (Hfirst : first_headers data b3 (scan_regions data b3)).
  { unfold scan_regions.
    destruct (scan_loop 4 data b3) as [rs0 final0] eqn:Hscan. cbn [fst].
    apply scan_loop_first_headers in Hscan; [apply Hscan | lia]. }
  destruct (first_headers_nth3 _ _ _ _ _ Hfirst Hlen Hnth) as (Hm & Hsize & Hlt).
  unfold region_match in Hm. apply andb_true_iff in Hm. destruct Hm as [Hsig _].
  unfold region_signature in Hsig. apply andb_true_iff in Hsig.
  destruct Hsig as [Hsig0 Hsig4]. apply Z.eqb_eq in Hsig0.
  apply bytes_eqb_eq in Hsig4.
  cbn [region4_offset_in_block3 block3_raw block4_compressed block5_raw].
  assert (E1 : slice (slice data b3 (o4 + 8 + 5)) (o4 - b3 + 1) (o4 - b3 + 4)
               = slice data (o4 + 1) (o4 + 4)).
  { rewrite slice_slice by lia. f_equal; lia. }
  assert (E4 : slice (slice data b3 (o4 + 8 + 5)) (o4 - b3 + 4) (o4 - b3 + 8)
               = slice data (o4 + 4) (o4 + 8)).
  { rewrite slice_slice by lia. f_equal; lia. }
  assert (E0 : byte_at (slice data b3 (o4 + 8 + 5)) (o4 - b3) = byte_at data o4).
  { rewrite byte_at_slice by lia. f_equal. lia. }
  assert (Ed : le_uint (slice data (o4 + 1) (o4 + 4)) = s4).
  { rewrite Hsize. unfold region_size_at. rewrite le_uint_app_zero. reflexivity. }
  rewrite E0, E1, E4, Ed.
  split; [lia|]. split; [exact Hsig0|]. split; [exact Hsig4|].
  split.
  { pose proof (length_slice_le data b3 (o4 + 8 + 5)). unfold len. lia. }
  split; [lia|].
  assert (Hle : len (slice data (o4 + 8 + 5) (o4 + 8 + 5 + s4)) <= s4).
  { pose proof (length_slice_le data (o4 + 8 + 5) (o4 + 8 + 5 + s4)).
    unfold len. lia. }
  split; [exact Hle|].
  intros H5.
  destruct (Z.le_gt_cases (o4 + 8 + 5 + s4) (len data)) as [Hfit|Hcut].
  - rewrite len_slice by lia. lia.
  - exfalso. apply H5. unfold slice_from.
    apply skipn_all2. unfold len in Hcut. lia.
Qed.

Lemma region4_declares_block4_witness :
  exists blk,
    parse_sav_blocks sample_sav = Ok blk
    /\ region4_offset_in_block3 blk = 51
    /\ le_uint (slice (block3_raw blk) 52 55) = 4
    /\ len (block4_compressed blk)
       = le_uint (slice (block3_raw blk)
                    (region4_offset_in_block3 blk + 1)
                    (region4_offset_in_block3 blk + 4)).
Proof.
  eexists. split; [reflexivity|]. split; [reflexivity|]. split; [reflexivity|].
  apply (region4_declares_block4 sample_sav _ eq_refl eq_refl).
  discriminate.
Defined.

(** ** What the patch changes *)

Lemma set_slice_frame (b v : bytes) (lo hi a c : Z) :
  0 <= lo <= hi -> hi <= len b -> len v = hi - lo ->
  0 <= a <= c -> c <= lo \/ hi <= a ->
  slice (set_slice b lo hi v) a c = slice b a c.
Proof.
  intros H1 H2 H3 H4 [H5|H5].
  - apply slice_set_slice_before; lia.
  - apply slice_set_slice_after; lia.
Qed.

Lemma set_slice_same (b : bytes) (lo hi : Z) :
  0 <= lo <= hi -> hi <= len b -> set_slice b lo hi (slice b lo hi) = b.
Proof.
  intros H1 H2. unfold set_slice, slice.
  replace (Z.to_nat (Z.max lo hi)) with (Z.to_nat (hi - lo) + Z.to_nat lo)%nat
    by lia.
  rewrite <- skipn_skipn, firstn_skipn, firstn_skipn. reflexivity.
Qed.

Section PatchProperties.

Variable decompress : bytes -> result bytes.
Variable compress_lzss_lazy : bytes -> bytes.
Variable adler32 : bytes -> Z.
Variable build_block1_header : bytes -> Z -> bytes.
Variable build_block2_header : bytes -> Z -> Z -> bytes.

Local Arguments firstn : simpl never.
Local Arguments skipn : simpl never.

Local Notation "'rebuild'" :=
  (rebuild_sav decompress compress_lzss_lazy adler32
               build_block1_header build_block2_header).
Local Notation "'unlock'" :=
  (unlock_capes decompress compress_lzss_lazy adler32
                build_block1_header build_block2_header).

(** The two steps of [patch_region4], each either skipped or a write of a
    value of the right length. *)
Lemma patch_region4_steps (block3 block3' block4 : bytes) (r : Z) :
  0 <= r ->
  patch_region4 adler32 block3 r block4 = Ok block3' ->
  exists b1,
    r + 13 <= len block3
    /\ len b1 = len block3
    /\ (b1 = block3 /\ le_uint (slice block3 (r + 1) (r + 4)) = len block4
        \/ le_uint (slice block3 (r + 1) (r + 4)) <> len block4
           /\ exists packed,
                pack_I (len block4) = Ok packed
                /\ b1 = set_slice block3 (r + 1) (r + 4) (firstn 3 packed)
                /\ length (firstn 3 packed) = 3%nat)
    /\ (block3' = b1 /\ le_uint (slice b1 (r + 9) (r + 13)) = adler32 block4
        \/ le_uint (slice b1 (r + 9) (r + 13)) <> adler32 block4
           /\ exists packed,
                pack_I (adler32 block4) = Ok packed
                /\ block3' = set_slice b1 (r + 9) (r + 13) packed
                /\ length packed = 4%nat).
Proof.
  intros Hr H.
  pose proof (patch_region4_spec adler32 _ _ _ _ Hr H) as (Hin & _).
  unfold patch_region4 in H.
  destruct (unpack_I (slice block3 (r + 1) (r + 4) ++ [0x00])) as [old|] eqn:Hold;
    cbn [bind] in H; [|discriminate].
  apply unpack_I_ok in Hold. destruct Hold as [_ Vold].
  rewrite le_uint_app_zero in Vold. subst old.
  destruct (Z.eqb_spec (le_uint (slice block3 (r + 1) (r + 4))) (len block4))
    as [Heq|Hne]; cbn [negb bind] in H.
  - exists block3. split; [exact Hin|]. split; [reflexivity|].
    split; [left; split; [reflexivity | exact Heq]|].
    destruct (unpack_I (slice block3 (r + 9) (r + 13))) as [oldc|] eqn:Holdc;
      cbn [bind] in H; [|discriminate].
    apply unpack_I_ok in Holdc. destruct Holdc as [_ ->].
    destruct (Z.eqb_spec (le_uint (slice block3 (r + 9) (r + 13)))
                (adler32 block4)) as [Hc|Hc]; cbn [negb] in H.
    + injection H as <-. left. split; [reflexivity | exact Hc].
    + destruct (pack_I (adler32 block4)) as [packed|] eqn:Hp; cbn [bind] in H;
        [|discriminate].
      injection H as <-. right. split; [exact Hc|].
      exists packed. pose proof (le_uint_pack_I _ _ Hp) as [_ Lp].
      repeat split; assumption.
  - destruct (pack_I (len block4)) as [packed3|] eqn:Hp3; cbn [bind] in H;
      [|discriminate].
    pose proof (le_uint_pack_I_low3 _ _ Hp3) as [_ L3].
    assert (Hl3 : len (firstn 3 packed3) = r + 4 - (r + 1)) by (unfold len; lia).
    set (b1 := set_slice block3 (r + 1) (r + 4) (firstn 3 packed3)) in *.
    assert (Hb1 : len b1 = len block3)
      by (unfold b1; apply length_set_slice; lia).
    exists b1. split; [exact Hin|]. split; [exact Hb1|].
    split; [right; split; [exact Hne|]; exists packed3;
            split; [reflexivity|]; split; [reflexivity | exact L3]|].
    destruct (unpack_I (slice b1 (r + 9) (r + 13))) as [oldc|] eqn:Holdc;
      cbn [bind] in H; [|discriminate].
    apply unpack_I_ok in Holdc. destruct Holdc as [_ ->].
    destruct (Z.eqb_spec (le_uint (slice b1 (r + 9) (r + 13)))
                (adler32 block4)) as [Hc|Hc]; cbn [negb] in H.
    + injection H as <-. left. split; [reflexivity | exact Hc].
    + destruct (pack_I (adler32 block4)) as [packed|] eqn:Hp; cbn [bind] in H;
        [|discriminate].
      injection H as <-. right. split; [exact Hc|].
      exists packed. pose proof (le_uint_pack_I _ _ Hp) as [_ Lp].
      repeat split; assumption.
Qed.

(** A successful [patch_region4] changes Block 3 nowhere but in the three
    size bytes at region-4 offset + 1 and the four checksum bytes at offset
    + 9: the length of Block 3, the bytes before the size field (the
    signature byte included), the five bytes between the two fields, and all
    bytes after the checksum stay as they were. *)
Theorem patch_region4_touches_only_its_fields (block3 block3' block4 : bytes)
    (r : Z) :
  0 <= r ->
  patch_region4 adler32 block3 r block4 = Ok block3' ->
  len block3' = len block3
  /\ slice block3' 0 (r + 1) = slice block3 0 (r + 1)
  /\ slice block3' (r + 4) (r + 9) = slice block3 (r + 4) (r + 9)
  /\ slice block3' (r + 13) (len block3) = slice block3 (r + 13) (len block3).
Proof.
  intros Hr H.
  destruct (patch_region4_steps _ _ _ _ Hr H) as (b1 & Hin & Hb1 & H1 & H2).
  assert (F1 : forall a c, 0 <= a <= c -> c <= r + 1 \/ r + 4 <= a ->
                 slice b1 a c = slice block3 a c).
  { intros a c Hac Hout.
    destruct H1 as [[-> _]|(_ & packed & _ & -> & L)]; [reflexivity|].
    apply set_slice_frame; try lia. unfold len. lia. }
  assert (F2 : forall a c, 0 <= a <= c -> c <= r + 9 \/ r + 13 <= a ->
                 slice block3' a c = slice b1 a c).
  { intros a c Hac Hout.
    destruct H2 as [[-> _]|(_ & packed & _ & -> & L)]; [reflexivity|].
    apply set_slice_frame; try lia. unfold len. lia. }
  assert (L2 : len block3' = len b1).
  { destruct H2 as [[-> _]|(_ & packed & _ & -> & L)]; [reflexivity|].
    apply length_set_slice; try lia. unfold len. lia. }
  split; [lia|].
  split; [rewrite F2, F1 by lia; reflexivity|].
  split; [rewrite F2, F1 by lia; reflexivity|].
  rewrite F2, F1 by lia. reflexivity.
Qed.

(** Patching a Block 3 that was already patched for the same Block 4 changes
    nothing: [patch_region4] applied to its own output returns it as it
    is. *)
Theorem patch_region4_is_idempotent (block3 block3' block4 : bytes) (r : Z) :
  0 <= r ->
  patch_region4 adler32 block3 r block4 = Ok block3' ->
  patch_region4 adler32 block3' r block4 = Ok block3'.
Proof.
  intros Hr H.
  pose proof (patch_region4_spec adler32 _ _ _ _ Hr H) as (Hin & Hlen & _ & Hsum).
  destruct (patch_region4_steps _ _ _ _ Hr H) as (b1 & _ & Hb1 & H1 & H2).
  assert (F2 : slice block3' (r + 1) (r + 4) = slice b1 (r + 1) (r + 4)).
  { destruct H2 as [[-> _]|(_ & packed & _ & -> & L)]; [reflexivity|].
    apply set_slice_frame; try lia. unfold len. lia. }
  unfold patch_region4.
  assert (L3 : length (slice block3' (r + 1) (r + 4) ++ [0x00]) = 4%nat).
  { rewrite length_app, length_slice_inside by lia. cbn [length]. lia. }
  unfold unpack_I at 1. rewrite L3. cbn [Nat.eqb bind].
  rewrite le_uint_app_zero.
  assert (Hstep1 :
    (if negb (le_uint (slice block3' (r + 1) (r + 4)) =? len block4)
     then packed <- pack_I (len block4) ;;
          Ok (set_slice block3' (r + 1) (r + 4) (firstn 3 packed))
     else Ok block3') = Ok block3').
  { destruct (Z.eqb_spec (le_uint (slice block3' (r + 1) (r + 4))) (len block4))
      as [E|E]; cbn [negb]; [reflexivity|].
    destruct H1 as [[-> E1]|(_ & packed & Hp & -> & L)].
    - exfalso. apply E. rewrite F2. exact E1.
    - rewrite Hp. cbn [bind]. f_equal.
      assert (S1 : slice block3' (r + 1) (r + 4) = firstn 3 packed).
      { rewrite F2. apply slice_set_slice_same; try lia. unfold len. lia. }
      rewrite <- S1. apply set_slice_same; lia. }
  rewrite Hstep1. cbn [bind].
  rewrite unpack_I_inside by lia. cbn [bind].
  rewrite Hsum, Z.eqb_refl. reflexivity.
Qed.

Lemma rebuild_sav_flags (sav_data : bytes) (o : sav_output) :
  rebuild sav_data = Ok (Some o) ->
  exists blk d4,
    parse_sav_blocks sav_data = Ok blk
    /\ decompress (block4_compressed blk) = Ok d4
    /\ CAPE2_OFFSET < len d4
    /\ (byte_at d4 CAPE1_OFFSET <> 0x01 \/ byte_at d4 CAPE2_OFFSET <> 0x01).
Proof.
  unfold rebuild_sav. intros H.
  destruct (parse_sav_blocks sav_data) as [blk|] eqn:Hp; cbn [bind] in H;
    [|discriminate].
  destruct (decompress (block1_compressed blk)) as [d1|]; cbn [bind] in H;
    [|discriminate].
  destruct (decompress (block2_compressed blk)) as [d2|]; cbn [bind] in H;
    [|discriminate].
  destruct (decompress (block4_compressed blk)) as [d4|] eqn:H4; cbn [bind] in H;
    [|discriminate].
  destruct (index d4 CAPE1_OFFSET) as [c1|] eqn:E1; cbn [bind] in H;
    [|discriminate].
  destruct (index d4 CAPE2_OFFSET) as [c2|] eqn:E2; cbn [bind] in H;
    [|discriminate].
  apply index_ok in E1. apply index_ok in E2.
  destruct E1 as [_ ->]. destruct E2 as [R2 ->].
  exists blk, d4. split; [reflexivity|]. split; [exact H4|]. split; [lia|].
  destruct (Z.eqb_spec (byte_at d4 CAPE1_OFFSET) 1) as [A|A]; [|left; exact A].
  destruct (Z.eqb_spec (byte_at d4 CAPE2_OFFSET) 1) as [B|B]; [|right; exact B].
  cbn [andb] in H. discriminate H.
Qed.

(** When [unlock_capes] writes a file, the Block 4 it compresses is the
    decompressed Block 4 of the input with the two flag bytes set to 0x01 and
    every other byte, and the length, left as they were; and at least one of
    the two flags was not yet 0x01. *)
Theorem patch_sets_only_the_two_flags (sav_data : bytes) (o : sav_output) :
  rebuild sav_data = Ok (Some o) ->
  exists blk d4 patched,
    parse_sav_blocks sav_data = Ok blk
    /\ decompress (block4_compressed blk) = Ok d4
    /\ out_block4 o = compress_lzss_lazy patched
    /\ len patched = len d4
    /\ CAPE2_OFFSET < len d4
    /\ byte_at patched CAPE1_OFFSET = 0x01
    /\ byte_at patched CAPE2_OFFSET = 0x01
    /\ (forall j, 0 <= j -> j <> CAPE1_OFFSET -> j <> CAPE2_OFFSET ->
          byte_at patched j = byte_at d4 j)
    /\ (byte_at d4 CAPE1_OFFSET <> 0x01 \/ byte_at d4 CAPE2_OFFSET <> 0x01).
Proof.
  intros H.
  destruct (rebuild_sav_flags _ _ H) as (blk & d4 & Hp & H4 & Hlen & Hflag).
  apply rebuild_sav_inv in H.
  destruct H as (blk' & d1 & d2 & d4' & d4a & d4b & Hp' & _ & _ & H4' & Ha & Hb
                 & _ & _ & _ & Ho & _).
  rewrite Hp in Hp'. injection Hp' as <-.
  rewrite H4 in H4'. injection H4' as <-.
  apply set_index_ok in Ha. destruct Ha as (_ & La & Va & Fa).
  apply set_index_ok in Hb. destruct Hb as (_ & Lb & Vb & Fb).
  exists blk, d4, d4b.
  split; [exact Hp|]. split; [exact H4|]. split; [exact Ho|].
  split; [lia|]. split; [exact Hlen|].
  split; [rewrite Fb by (unfold CAPE1_OFFSET, CAPE2_OFFSET; lia); exact Va|].
  split; [exact Vb|].
  split; [|exact Hflag].
  intros j Hj H1 H2. rewrite Fb by assumption. apply Fa; assumption.
Qed.

(** A decompressed Block 4 that does not reach the second flag byte makes
    [unlock_capes] fail with [IndexError] when it reads the flags, before
    anything is recompressed or written. *)
Theorem short_block4_raises_index_error (fs : filesystem)
    (sav_path output_path : string) (sav_data : bytes) (blk : sav_blocks)
    (d1 d2 d4 : bytes) :
  fs sav_path = Some sav_data ->
  parse_sav_blocks sav_data = Ok blk ->
  decompress (block1_compressed blk) = Ok d1 ->
  decompress (block2_compressed blk) = Ok d2 ->
  decompress (block4_compressed blk) = Ok d4 ->
  len d4 <= CAPE2_OFFSET ->
  unlock fs sav_path output_path = Raise IndexError.
Proof.
  intros Hfs Hp H1 H2 H4 Hshort.
  unfold unlock_capes, read_file. rewrite Hfs. cbn [bind].
  unfold rebuild_sav. rewrite Hp. cbn [bind]. rewrite H1, H2, H4. cbn [bind].
  unfold index.
  destruct (Z.ltb_spec CAPE1_OFFSET (len d4)) as [A|A];
    [|rewrite andb_false_r; reflexivity].
  change (0 <=? CAPE1_OFFSET) with true. cbn [andb bind].
  destruct (Z.ltb_spec CAPE2_OFFSET (len d4)) as [B|B]; [lia|].
  rewrite andb_false_r. reflexivity.
Qed.

End PatchProperties.

Lemma patch_region4_touches_only_its_fields_witness :
  exists block3',
    patch_region4 sample_adler32 (sample_block3 4 0x40302010) 51
      [0xD1; 0xD2; 0xD3; 0xD4; 0xD5] = Ok block3'
    /\ slice block3' 52 55 = [0x05; 0x00; 0x00]
    /\ slice block3' 0 (51 + 1) = slice (sample_block3 4 0x40302010) 0 (51 + 1)
    /\ slice block3' (51 + 4) (51 + 9)
       = slice (sample_block3 4 0x40302010) (51 + 4) (51 + 9).
Proof.
  eexists. split; [vm_compute; reflexivity|]. split; [reflexivity|].
  destruct (patch_region4_touches_only_its_fields sample_adler32
              (sample_block3 4 0x40302010) _ [0xD1; 0xD2; 0xD3; 0xD4; 0xD5] 51
              ltac:(lia) eq_refl) as (_ & H1 & H2 & _).
  split; [exact H1 | exact H2].
Defined.

Lemma patch_region4_is_idempotent_witness :
  exists block3',
    patch_region4 sample_adler32 (sample_block3 4 0x40302010) 51
      [0xD1; 0xD2; 0xD3; 0xD4; 0xD5] = Ok block3'
    /\ block3' <> sample_block3 4 0x40302010
    /\ patch_region4 sample_adler32 block3' 51 [0xD1; 0xD2; 0xD3; 0xD4; 0xD5]
       = Ok block3'.
Proof.
  eexists. split; [vm_compute; reflexivity|]. split; [discriminate|].
  apply (patch_region4_is_idempotent sample_adler32 (sample_block3 4 0x40302010)).
  - lia.
  - vm_compute. reflexivity.
Defined.

Lemma patch_sets_only_the_two_flags_witness :
  exists blk d4 patched,
    parse_sav_blocks sample_locked_sav = Ok blk
    /\ stored_decompress (block4_compressed blk) = Ok d4
    /\ out_block4 padded_patch_output = padding_compress patched
    /\ len patched = len d4
    /\ CAPE2_OFFSET < len d4
    /\ byte_at patched CAPE1_OFFSET = 0x01
    /\ byte_at patched CAPE2_OFFSET = 0x01
    /\ (forall j, 0 <= j -> j <> CAPE1_OFFSET -> j <> CAPE2_OFFSET ->
          byte_at patched j = byte_at d4 j)
    /\ (byte_at d4 CAPE1_OFFSET <> 0x01 \/ byte_at d4 CAPE2_OFFSET <> 0x01).
Proof.
  exact (patch_sets_only_the_two_flags stored_decompress padding_compress
           sample_adler32 sample_build_block1_header sample_build_block2_header
           sample_locked_sav padded_patch_output rebuild_sample_padded).
Defined.

Lemma short_block4_raises_index_error_witness :
  unlock_capes stored_decompress stored_compress sample_adler32
    sample_build_block1_header sample_build_block2_header
    small_fs "small.SAV"%string "out.SAV"%string
  = Raise IndexError.
Proof.
  eapply (short_block4_raises_index_error stored_decompress stored_compress
            sample_adler32 sample_build_block1_header sample_build_block2_header
            small_fs "small.SAV"%string "out.SAV"%string sample_sav).
  - reflexivity.
  - reflexivity.
  - reflexivity.
  - reflexivity.
  - reflexivity.
  - vm_compute. discriminate.
Defined.

(** * The analysis functions *)

(** ** Grouping *)

Lemma dict_get_append (A : Type) (d : list (Z * list A)) (k k' : Z) (x : A) :
  dict_get (dict_append d k x) k'
  = if k =? k'
    then Some (match dict_get d k with
               | Some xs => xs ++ [x]
               | None => [x]
               end)
    else dict_get d k'.
Proof.
  induction d as [|[k0 xs] d IH]; cbn [dict_append dict_get].
  - destruct (Z.eqb_spec k k'); reflexivity.
  - destruct (Z.eqb_spec k0 k) as [->|Hne]; cbn [dict_get].
    + destruct (Z.eqb_spec k k'); reflexivity.
    + rewrite IH. destruct (Z.eqb_spec k k') as [->|Hne'].
      * destruct (Z.eqb_spec k0 k'); [contradiction | reflexivity].
      * reflexivity.
Qed.

Lemma dict_append_keys (A : Type) (d : list (Z * list A)) (k : Z) (x : A) :
  NoDup (map fst d) ->
  NoDup (map fst (dict_append d k x))
  /\ (forall j, In j (map fst (dict_append d k x)) <-> j = k \/ In j (map fst d)).
Proof.
  induction d as [|[k0 xs] d IH]; cbn [dict_append map fst]; intros Hnd.
  - split; [repeat constructor; intros []|]. intros j. cbn [In]. intuition.
  - inversion Hnd as [|? ? Hk Hnd']. subst.
    destruct (Z.eqb_spec k0 k) as [->|Hne]; cbn [map fst].
    + split; [exact Hnd|]. intros j. cbn [In]. intuition.
    + destruct (IH Hnd') as [I1 I2]. split.
      * constructor; [|exact I1]. rewrite I2. intros [E|E]; [congruence | contradiction].
      * intros j. cbn [In]. rewrite I2. intuition.
Qed.

Lemma dict_append_total (A : Type) (d : list (Z * list A)) (k : Z) (x : A) :
  length (concat (map snd (dict_append d k x)))
  = S (length (concat (map snd d))).
Proof.
  induction d as [|[k0 xs] d IH]; cbn [dict_append map snd concat].
  - reflexivity.
  - destruct (k0 =? k); cbn [map snd concat]; rewrite !length_app.
    + cbn [length]. lia.
    + rewrite IH. lia.
Qed.

Lemma group_fold (A : Type) (key : A -> Z) (l : list A) (d : list (Z * list A)) :
  NoDup (map fst d) ->
  let d' := fold_left (fun d x => dict_append d (key x) x) l d in
  NoDup (map fst d')
  /\ (forall k, dict_get d' k
                = match dict_get d k, filter (fun x => key x =? k) l with
                  | Some xs, ys => Some (xs ++ ys)
                  | None, [] => None
                  | None, ys => Some ys
                  end)
  /\ length (concat (map snd d')) = (length (concat (map snd d)) + length l)%nat.
Proof.
  revert d. induction l as [|x l IH]; intros d Hnd; cbv zeta; cbn [fold_left].
  - split; [exact Hnd|]. split; [|cbn [length]; lia].
    intros k. cbn [filter]. destruct (dict_get d k); [rewrite app_nil_r|]; reflexivity.
  - destruct (dict_append_keys A d (key x) x Hnd) as [Hnd' _].
    specialize (IH _ Hnd'). cbv zeta in IH. destruct IH as (I1 & I2 & I3).
    split; [exact I1|]. split.
    + intros k. rewrite I2, dict_get_append. cbn [filter].
      destruct (Z.eqb_spec (key x) k) as [E|Hne].
      * rewrite E. destruct (dict_get d k) as [xs|]; cbv beta iota;
          [rewrite <- app_assoc|]; reflexivity.
      * reflexivity.
    + rewrite I3, dict_append_total. cbn [length]. lia.
Qed.

Lemma dict_get_in (A : Type) (d : list (Z * list A)) (k : Z) (xs : list A) :
  NoDup (map fst d) -> In (k, xs) d -> dict_get d k = Some xs.
Proof.
  induction d as [|[k0 ys] d IH]; intros Hnd Hin; [destruct Hin|].
  cbn [map fst] in Hnd. inversion Hnd as [|? ? Hk Hnd']. subst.
  cbn [dict_get]. destruct Hin as [Hin|Hin].
  - injection Hin as -> ->. rewrite Z.eqb_refl. reflexivity.
  - destruct (Z.eqb_spec k0 k) as [->|Hne].
    + exfalso. apply Hk. apply (in_map fst) in Hin. exact Hin.
    + apply IH; assumption.
Qed.

(** The dict built by the grouping loops of the three analysis functions
    ([by_table], [by_subtype], [by_type]) has each key once; under a key it
    holds, in their original order, exactly the items with that key, and a
    key is present only if some item has it; so every item is listed once
    and the group sizes add up to the number of items. *)
Theorem grouping_collects_by_key (A : Type) (key : A -> Z) (l : list A) :
  NoDup (map fst (group_by key l))
  /\ (forall k, dict_get (group_by key l) k
                = match filter (fun x => key x =? k) l with
                  | [] => None
                  | xs => Some xs
                  end)
  /\ (forall k xs, In (k, xs) (group_by key l) ->
        xs <> [] /\ xs = filter (fun x => key x =? k) l)
  /\ length (concat (map snd (group_by key l))) = length l.
Proof.
  destruct (group_fold A key l [] (NoDup_nil _)) as (H1 & H2 & H3).
  cbv zeta in *. fold (group_by key l) in *.
  split; [exact H1|]. split; [|split; [|exact H3]].
  - intros k. rewrite H2. cbn [dict_get].
    destruct (filter (fun x => key x =? k) l); reflexivity.
  - intros k xs Hin. apply (dict_get_in _ _ _ _ H1) in Hin.
    rewrite H2 in Hin. cbn [dict_get] in Hin.
    destruct (filter (fun x => key x =? k) l) as [|y ys]; [discriminate Hin|].
    injection Hin as <-. split; [discriminate | reflexivity].
Qed.

(** ** Clusters of array elements *)

Lemma last_snoc (A : Type) (l : list A) (e d : A) : last (l ++ [e]) d = e.
Proof. apply last_last. Qed.

Lemma last_default (A : Type) (l : list A) (d d' : A) :
  l <> [] -> last l d = last l d'.
Proof.
  induction l as [|a [|b l] IH]; intros H; [contradiction | reflexivity|].
  change (last (b :: l) d = last (b :: l) d'). apply IH. discriminate.
Qed.

Lemma close_run_snoc (l : list ArrayElement) (e : ArrayElement) :
  close_run (l ++ [e])
  = close_run l
    && match l with
       | [] => true
       | x :: _ => ae_offset e - ae_offset (last l x) <? 100
       end.
Proof.
  induction l as [|a [|b l] IH].
  - reflexivity.
  - cbn [app close_run last]. rewrite andb_true_r. reflexivity.
  - change (close_run ((a :: b :: l) ++ [e]))
      with ((ae_offset b - ae_offset a <? 100) && close_run ((b :: l) ++ [e])).
    rewrite IH.
    change (close_run (a :: b :: l))
      with ((ae_offset b - ae_offset a <? 100) && close_run (b :: l)).
    change (last (a :: b :: l) a) with (last (b :: l) a).
    rewrite (last_default _ (b :: l) a b) by discriminate.
    rewrite andb_assoc. reflexivity.
Qed.

Lemma far_apart_snoc (prev : option ArrayElement) (cs : list (list ArrayElement))
    (c : list ArrayElement) :
  far_apart prev (cs ++ [c])
  = far_apart prev cs
    && match last_seen prev cs, c with
       | Some p, x :: _ => 100 <=? ae_offset x - ae_offset p
       | _, _ => true
       end.
Proof.
  revert prev. induction cs as [|c0 cs IH]; intros prev.
  - cbn [app far_apart last_seen]. rewrite andb_true_r. reflexivity.
  - cbn [app far_apart last_seen]. rewrite IH, andb_assoc. reflexivity.
Qed.

Lemma last_seen_snoc (prev : option ArrayElement) (cs : list (list ArrayElement))
    (c : list ArrayElement) :
  last_seen prev (cs ++ [c])
  = match c with
    | [] => last_seen prev cs
    | x :: _ => Some (last c x)
    end.
Proof.
  revert prev. induction cs as [|c0 cs IH]; intros prev.
  - reflexivity.
  - cbn [app last_seen]. apply IH.
Qed.

Lemma well_clustered_snoc (cs : list (list ArrayElement)) (c : list ArrayElement) :
  well_clustered (cs ++ [c])
  = well_clustered cs && non_empty c && close_run c
    && match last_seen None cs, c with
       | Some p, x :: _ => 100 <=? ae_offset x - ae_offset p
       | _, _ => true
       end.
Proof.
  unfold well_clustered. rewrite !forallb_app, far_apart_snoc.
  cbn [forallb]. rewrite !andb_true_r.
  destruct (forallb non_empty cs), (non_empty c), (forallb close_run cs),
    (close_run c), (far_apart None cs); reflexivity.
Qed.

Lemma cluster_step_inv (clusters : list (list ArrayElement))
    (current : list ArrayElement) (e : ArrayElement) :
  well_clustered (clusters ++ [current]) = true ->
  let '(cs, cur) := cluster_step (clusters, current) e in
  well_clustered (cs ++ [cur]) = true
  /\ concat cs ++ cur = (concat clusters ++ current) ++ [e].
Proof.
  intros H. rewrite well_clustered_snoc in H.
  apply andb_true_iff in H. destruct H as [H Hfar].
  apply andb_true_iff in H. destruct H as [H Hclose].
  apply andb_true_iff in H. destruct H as [Hcs Hne].
  destruct current as [|x current]; [discriminate Hne|].
  unfold cluster_step.
  rewrite (last_default _ (x :: current) e x) by discriminate.
  destruct (Z.ltb_spec (ae_offset e - ae_offset (last (x :: current) x)) 100)
    as [Hlt|Hge].
  - split; [|rewrite <- app_assoc; reflexivity].
    rewrite well_clustered_snoc, Hcs, close_run_snoc, Hclose.
    cbn [app non_empty andb].
    destruct (Z.ltb_spec (ae_offset e - ae_offset (last (x :: current) x)) 100);
      [|lia].
    cbn [andb]. exact Hfar.
  - split.
    + rewrite well_clustered_snoc, well_clustered_snoc, Hcs, Hclose, Hfar.
      cbn [non_empty close_run andb]. rewrite last_seen_snoc.
      destruct (Z.leb_spec 100 (ae_offset e - ae_offset (last (x :: current) x)));
        [reflexivity | lia].
    + rewrite concat_app. cbn [concat]. rewrite app_nil_r. reflexivity.
Qed.

Lemma fold_cluster_step (rest : list ArrayElement)
    (clusters : list (list ArrayElement)) (current : list ArrayElement) :
  well_clustered (clusters ++ [current]) = true ->
  let '(cs, cur) := fold_left cluster_step rest (clusters, current) in
  well_clustered (cs ++ [cur]) = true
  /\ concat cs ++ cur = (concat clusters ++ current) ++ rest.
Proof.
  revert clusters current.
  induction rest as [|e rest IH]; intros clusters current H; cbn [fold_left].
  - split; [exact H | rewrite app_nil_r; reflexivity].
  - pose proof (cluster_step_inv clusters current e H) as Hs.
    destruct (cluster_step (clusters, current) e) as [cs1 cur1].
    destruct Hs as [Hw Hc].
    specialize (IH cs1 cur1 Hw).
    destruct (fold_left cluster_step rest (cs1, cur1)) as [cs cur].
    destruct IH as [Iw Ic]. split; [exact Iw|].
    rewrite Ic, Hc, <- !app_assoc. reflexivity.
Qed.

Lemma find_clusters_spec (elements : list ArrayElement) :
  concat (find_clusters elements) = elements
  /\ well_clustered (find_clusters elements) = true.
Proof.
  destruct elements as [|first rest]; [split; reflexivity|].
  unfold find_clusters.
  pose proof (fold_cluster_step rest [] [first] eq_refl) as H.
  destruct (fold_left cluster_step rest ([], [first])) as [cs cur].
  destruct H as [Hw Hc]. split; [|exact Hw].
  rewrite concat_app. cbn [concat]. rewrite app_nil_r. exact Hc.
Qed.

Lemma insert_by_offset_in (e x : ArrayElement) (l : list ArrayElement) :
  In x (insert_by_offset e l) <-> x = e \/ In x l.
Proof.
  induction l as [|a l IH]; cbn [insert_by_offset].
  - cbn [In]. intuition.
  - destruct (ae_offset e <=? ae_offset a); cbn [In]; [intuition|].
    rewrite IH. intuition.
Qed.

Lemma insert_by_offset_length (e : ArrayElement) (l : list ArrayElement) :
  length (insert_by_offset e l) = S (length l).
Proof.
  induction l as [|a l IH]; cbn [insert_by_offset]; [reflexivity|].
  destruct (ae_offset e <=? ae_offset a); cbn [length]; [reflexivity|].
  rewrite IH. reflexivity.
Qed.

Lemma insert_by_offset_sorted (e : ArrayElement) (l : list ArrayElement) :
  StronglySorted by_offset l -> StronglySorted by_offset (insert_by_offset e l).
Proof.
  induction l as [|a l IH]; intros Hs; cbn [insert_by_offset].
  - repeat constructor.
  - inversion Hs as [|? ? Hs' Hall]. subst.
    destruct (Z.leb_spec (ae_offset e) (ae_offset a)) as [Hle|Hgt].
    + constructor; [exact Hs|]. constructor; [exact Hle|].
      eapply Forall_impl; [|exact Hall]. unfold by_offset. intros b Hb. lia.
    + constructor; [apply IH; exact Hs'|].
      apply Forall_forall. intros b Hb. apply insert_by_offset_in in Hb.
      destruct Hb as [->|Hb]; [unfold by_offset; lia|].
      rewrite Forall_forall in Hall. apply Hall, Hb.
Qed.

Lemma sorted_by_offset_spec (l : list ArrayElement) :
  StronglySorted by_offset (sorted_by_offset l)
  /\ length (sorted_by_offset l) = length l
  /\ (forall x, In x (sorted_by_offset l) <-> In x l).
Proof.
  induction l as [|a l (I1 & I2 & I3)]; cbn [sorted_by_offset fold_right].
  - split; [constructor|]. split; [reflexivity|]. intros x. reflexivity.
  - fold (sorted_by_offset l). split; [apply insert_by_offset_sorted, I1|].
    split; [rewrite insert_by_offset_length, I2; reflexivity|].
    intros x. rewrite insert_by_offset_in, I3. cbn [In]. intuition.
Qed.

(** [analyze_array_elements] finds no cluster only when there is no array
    element.  Otherwise its clusters, put end to end, are the elements sorted
    by offset, each element once; no cluster is empty; inside a cluster each
    element lies less than 100 bytes after the one before it; and each
    cluster starts 100 bytes or more after the last element of the cluster
    before it. *)
Theorem clusters_split_the_sorted_elements (array_elements : list ArrayElement) :
  match analyze_array_elements array_elements with
  | None => array_elements = []
  | Some clusters =>
      array_elements <> []
      /\ concat clusters = sorted_by_offset array_elements
      /\ StronglySorted by_offset (concat clusters)
      /\ length (concat clusters) = length array_elements
      /\ (forall x, In x (concat clusters) <-> In x array_elements)
      /\ forallb non_empty clusters = true
      /\ forallb close_run clusters = true
      /\ far_apart None clusters = true
  end.
Proof.
  destruct array_elements as [|a l]; [reflexivity|].
  cbn [analyze_array_elements].
  destruct (find_clusters_spec (sorted_by_offset (a :: l))) as [Hc Hw].
  destruct (sorted_by_offset_spec (a :: l)) as (S1 & S2 & S3).
  unfold well_clustered in Hw.
  apply andb_true_iff in Hw. destruct Hw as [Hw W3].
  apply andb_true_iff in Hw. destruct Hw as [W1 W2].
  rewrite Hc. split; [discriminate|]. split; [reflexivity|].
  split; [exact S1|]. split; [exact S2|]. split; [exact S3|].
  split; [exact W1|]. split; [exact W2 | exact W3].
Qed.

(** *** The analysis of a small block *)

Example by_table_of_the_sample :
  map (fun g => (fst g, map tr_offset (snd g))) (by_table sample_table_refs)
  = [(0x05, [8; 16]); (0x16, [12])].
Proof. reflexivity. Qed.

Example clusters_of_the_sample :
  analyze_array_elements sample_elements
  = Some [[element_at 20 0x00; element_at 90 0x08; element_at 180 0x00];
          [element_at 450 0x1A; element_at 500 0x08]].
Proof. reflexivity. Qed.

Example by_type_of_the_sample_cluster :
  map (fun g => (fst g, length (snd g)))
      (by_type [element_at 20 0x00; element_at 90 0x08; element_at 180 0x00])
  = [(0x00, 2%nat); (0x08, 1%nat)].
Proof. reflexivity. Qed.

(** ** Patching the output of a patch *)

(** *** Slices of a concatenation *)

Lemma slice_app_l (a b : bytes) (lo hi : Z) :
  0 <= lo -> hi <= len a -> slice (a ++ b) lo hi = slice a lo hi.
Proof.
  intros Hlo Hhi. unfold slice. unfold len in Hhi.
  destruct (Z.le_gt_cases hi lo) as [Hle|Hgt].
  - replace (Z.to_nat (hi - lo)) with 0%nat by lia. reflexivity.
  - rewrite skipn_app, firstn_app, length_skipn.
    replace (Z.to_nat lo - length a)%nat with 0%nat by lia.
    replace (Z.to_nat (hi - lo) - (length a - Z.to_nat lo))%nat with 0%nat by lia.
    rewrite firstn_O, app_nil_r. reflexivity.
Qed.

Lemma slice_app_r (a b : bytes) (lo hi : Z) :
  0 <= lo -> slice (a ++ b) (len a + lo) (len a + hi) = slice b lo hi.
Proof.
  intros Hlo. unfold slice.
  replace (len a + hi - (len a + lo)) with (hi - lo) by lia.
  replace (len a + lo) with (len a + Z.of_nat (Z.to_nat lo)) by lia.
  rewrite skipn_len_app. reflexivity.
Qed.

Lemma slice_from_app_r (a b : bytes) (lo : Z) :
  0 <= lo -> slice_from (a ++ b) (len a + lo) = slice_from b lo.
Proof.
  intros Hlo. unfold slice_from.
  replace (len a + lo) with (len a + Z.of_nat (Z.to_nat lo)) by lia.
  apply skipn_len_app.
Qed.

Lemma slice_whole (b : bytes) : slice b 0 (len b) = b.
Proof.
  unfold slice, len. rewrite Z.sub_0_r, Nat2Z.id. cbn [Z.to_nat skipn].
  apply firstn_all.
Qed.

(** The piece [b] of [a ++ b ++ c], and what follows it. *)
Lemma slice_piece (a b c : bytes) :
  slice (a ++ b ++ c) (len a) (len a + len b) = b.
Proof.
  replace (len a) with (len a + 0) at 1 by lia.
  rewrite slice_app_r by lia. rewrite slice_app_l by lia.
  apply slice_whole.
Qed.

Lemma slice_from_piece (a b : bytes) : slice_from (a ++ b) (len a) = b.
Proof.
  replace (len a) with (len a + 0) by lia.
  rewrite slice_from_app_r by lia. apply slice_from_0.
Qed.

Lemma slice3_bytes (b : bytes) (q : Z) :
  0 <= q -> q + 3 <= len b ->
  slice b q (q + 3) = [byte_at b q; byte_at b (q + 1); byte_at b (q + 2)].
Proof.
  intros Hq Hin.
  pose proof (length_slice_inside b q (q + 3) ltac:(lia) Hin) as L.
  replace (Z.to_nat (q + 3 - q)) with 3%nat in L by lia.
  pose proof (byte_at_slice b q (q + 3) 0 Hq ltac:(lia)) as B0.
  pose proof (byte_at_slice b q (q + 3) 1 Hq ltac:(lia)) as B1.
  pose proof (byte_at_slice b q (q + 3) 2 Hq ltac:(lia)) as B2.
  rewrite Z.add_0_r in B0. rewrite <- B0, <- B1, <- B2.
  destruct (slice b q (q + 3)) as [|x0 [|x1 [|x2 [|x3 l]]]];
    cbn [length] in L; try lia.
  reflexivity.
Qed.

Lemma slice4_bytes (b : bytes) (q x0 x1 x2 x3 : Z) :
  0 <= q -> slice b q (q + 4) = [x0; x1; x2; x3] ->
  byte_at b q = x0 /\ byte_at b (q + 1) = x1
  /\ byte_at b (q + 2) = x2 /\ byte_at b (q + 3) = x3.
Proof.
  intros Hq E.
  pose proof (byte_at_slice b q (q + 4) 0 Hq ltac:(lia)) as B0.
  pose proof (byte_at_slice b q (q + 4) 1 Hq ltac:(lia)) as B1.
  pose proof (byte_at_slice b q (q + 4) 2 Hq ltac:(lia)) as B2.
  pose proof (byte_at_slice b q (q + 4) 3 Hq ltac:(lia)) as B3.
  rewrite E in B0, B1, B2, B3. rewrite Z.add_0_r in B0.
  repeat split; symmetry; assumption.
Qed.

(** *** The test of the scan depends on eight bytes *)

Lemma region_match_window (data data' : bytes) (p p' : Z) :
  0 <= p -> 0 <= p' ->
  slice data' p' (p' + 8) = slice data p (p + 8) ->
  region_match data' p' = region_match data p
  /\ region_size_at data' p' = region_size_at data p.
Proof.
  intros Hp Hp' E.
  assert (V : forall (b : bytes) (q : Z), 0 <= q ->
            byte_at b q = byte_at (slice b q (q + 8)) 0
            /\ slice b (q + 4) (q + 8) = slice (slice b q (q + 8)) 4 8
            /\ slice b (q + 1) (q + 4) = slice (slice b q (q + 8)) 1 4).
  { intros b q Hq. split; [|split].
    - rewrite byte_at_slice by lia. rewrite Z.add_0_r. reflexivity.
    - rewrite slice_slice by lia. reflexivity.
    - rewrite slice_slice by lia. reflexivity. }
  destruct (V data p Hp) as (A0 & A4 & A1).
  destruct (V data' p' Hp') as (B0 & B4 & B1).
  assert (Es : region_size_at data' p' = region_size_at data p).
  { unfold region_size_at. rewrite A1, B1, E. reflexivity. }
  split; [|exact Es].
  unfold region_match, region_signature. rewrite Es, A0, B0, A4, B4, E.
  reflexivity.
Qed.

(** A position less than eight bytes in front of a header whose declared size
    is below 50000 does not pass the test: one of the bytes it needs is the
    signature byte, a size byte or a zero of the header. *)
Lemma no_match_before_header (data : bytes) (o p : Z) :
  0 <= p -> o - 7 <= p < o -> o + 4 <= len data ->
  byte_at data o = 0x01 ->
  slice data (o + 4) (o + 8) = [0x00; 0x00; 0x80; 0x00] ->
  region_size_at data o < 50000 ->
  region_match data p = false.
Proof.
  intros Hp Hk Hin H0 H4 Hs.
  destruct (region_match data p) eqn:Hm; [exfalso|reflexivity].
  unfold region_match, region_signature in Hm.
  apply andb_true_iff in Hm. destruct Hm as [Hm _].
  apply andb_true_iff in Hm. destruct Hm as [_ Hm].
  apply bytes_eqb_eq in Hm.
  replace (p + 8) with (p + 4 + 4) in Hm by lia.
  apply slice4_bytes in Hm; [|lia]. destruct Hm as (P0 & P1 & P2 & P3).
  replace (o + 8) with (o + 4 + 4) in H4 by lia.
  apply slice4_bytes in H4; [|lia]. destruct H4 as (Q0 & Q1 & Q2 & Q3).
  unfold region_size_at in Hs. rewrite le_uint_app_zero in Hs.
  replace (o + 4) with (o + 1 + 3) in Hs by lia.
  rewrite slice3_bytes in Hs by lia. cbn [le_uint] in Hs.
  assert (C : p = o - 1 \/ p = o - 2 \/ p = o - 3 \/ p = o - 4 \/ p = o - 5
              \/ p = o - 6 \/ p = o - 7) by lia.
  destruct C as [-> | [-> | [-> | [-> | [-> | [-> | ->]]]]]].
  - replace (o - 1 + 4 + 2) with (o + 4 + 1) in P2 by lia. lia.
  - replace (o - 2 + 4 + 2) with (o + 4) in P2 by lia. lia.
  - replace (o - 3 + 4) with (o + 1) in P0 by lia.
    replace (o - 3 + 4 + 1) with (o + 1 + 1) in P1 by lia.
    replace (o - 3 + 4 + 2) with (o + 1 + 2) in P2 by lia.
    rewrite P0, P1, P2 in Hs. lia.
  - replace (o - 4 + 4) with o in P0 by lia. lia.
  - replace (o - 5 + 4 + 1) with o in P1 by lia. lia.
  - replace (o - 6 + 4 + 2) with o in P2 by lia. lia.
  - replace (o - 7 + 4 + 3) with o in P3 by lia. lia.
Qed.

(** *** From the first headers back to the scan *)

Lemma find_region_at_first (data : bytes) (k : nat) :
  forall (fuel : nat) (pos o : Z),
    o = pos + Z.of_nat k -> o < len data - 8 ->
    no_header_between data pos o -> region_match data o = true ->
    find_region (k + S fuel) data pos
    = (Some (o, region_size_at data o), o + 8 + region_size_at data o + 5).
Proof.
  induction k as [|k IH]; intros fuel pos o Ho Hlt Hno Hm.
  - replace pos with o by lia. apply find_region_hit; assumption.
  - replace (S k + S fuel)%nat with (S (k + S fuel)) by lia.
    rewrite find_region_miss by (try apply Hno; lia).
    apply IH; try assumption; try lia.
    intros i Hi. apply Hno. lia.
Qed.

Lemma scan_loop_of_first_headers (data : bytes) (rs : list (Z * Z)) :
  forall pos, 0 <= pos -> first_headers data pos rs ->
    scan_loop (length rs) data pos = (rs, regions_end pos rs).
Proof.
  induction rs as [|[o s] rs IH]; intros pos Hpos H.
  - reflexivity.
  - cbn [first_headers] in H. destruct H as (Ho & Hno & Hm & Hs & Hrest).
    assert (Hs0 : 0 < s).
    { unfold region_match in Hm. rewrite <- Hs in Hm.
      apply andb_true_iff in Hm. destruct Hm as [_ Hm].
      apply andb_true_iff in Hm. lia. }
    cbn [length scan_loop regions_end].
    rewrite (find_region_fuel data (length data)
               (Z.to_nat (o - pos) + S (length data)) pos)
      by (unfold len; lia).
    rewrite (find_region_at_first data (Z.to_nat (o - pos)) (length data) pos o)
      by (try assumption; lia).
    rewrite <- Hs. rewrite IH by (try assumption; lia). reflexivity.
Qed.

Lemma first_headers_reach (data : bytes) (o4 s4 : Z) (rs : list (Z * Z)) :
  forall pos, first_headers data pos (rs ++ [(o4, s4)]) -> pos <= o4.
Proof.
  induction rs as [|[o s] rs IH]; intros pos H.
  - cbn [app first_headers] in H. lia.
  - cbn [app first_headers] in H. destruct H as (Ho & _ & Hm & Hs & Hrest).
    apply IH in Hrest.
    unfold region_match in Hm. rewrite <- Hs in Hm.
    apply andb_true_iff in Hm. destruct Hm as [_ Hm].
    apply andb_true_iff in Hm. lia.
Qed.

(** The headers found in [data] are found again in [data'], moved by [d],
    when the two buffers hold the same bytes up to the signature byte of the
    last header (at [o4] in [data]) and [data'] has at [o4 + d] a header that
    nothing in front of it imitates. *)
Lemma first_headers_transfer (data data' : bytes) (d o4 s4 s4' : Z)
    (rs : list (Z * Z)) :
  forall pos,
    0 <= pos -> 0 <= pos + d ->
    first_headers data pos (rs ++ [(o4, s4)]) ->
    (forall i, pos <= i -> i + 7 <= o4 ->
       slice data' (i + d) (i + d + 8) = slice data i (i + 8)) ->
    (forall i, pos <= i -> o4 - 7 < i < o4 -> region_match data' (i + d) = false) ->
    region_match data' (o4 + d) = true ->
    s4' = region_size_at data' (o4 + d) ->
    o4 + d < len data' - 8 ->
    first_headers data' (pos + d)
      (map (fun r => (fst r + d, snd r)) rs ++ [(o4 + d, s4')]).
Proof.
  induction rs as [|[o s] rs IH]; intros pos Hpos Hpos' H W S Hm' Hs' Hg.
  - cbn [app first_headers map] in *.
    destruct H as (Ho & Hno & _).
    split; [lia|]. split; [|repeat split; assumption].
    intros i' Hi'. replace i' with (i' - d + d) by lia.
    destruct (Z.le_gt_cases (i' - d + 7) o4) as [Hw|Hw].
    + destruct (region_match_window data data' (i' - d) (i' - d + d)) as [E _];
        [lia | lia | apply W; lia |].
      rewrite E. apply Hno. lia.
    + apply S; lia.
  - cbn [app first_headers map fst snd] in *.
    destruct H as (Ho & Hno & Hm & Hs & Hrest).
    pose proof (first_headers_reach _ _ _ _ _ Hrest) as Hreach.
    assert (Hs0 : 0 < s).
    { unfold region_match in Hm. rewrite <- Hs in Hm.
      apply andb_true_iff in Hm. destruct Hm as [_ Hm].
      apply andb_true_iff in Hm. lia. }
    destruct (region_match_window data data' o (o + d)) as [Em Es];
      [lia | lia | apply W; lia |].
    split; [lia|]. split; [|split; [|split]].
    + intros i' Hi'. replace i' with (i' - d + d) by lia.
      destruct (region_match_window data data' (i' - d) (i' - d + d)) as [E _];
        [lia | lia | apply W; lia |].
      rewrite E. apply Hno. lia.
    + rewrite Em. exact Hm.
    + rewrite Es. exact Hs.
    + replace (o + d + 8 + s + 5) with (o + 8 + s + 5 + d) by lia.
      apply IH; try assumption; try lia.
      * intros i Hi Hi7. apply W; lia.
      * intros i Hi Hi7. apply S; lia.
Qed.

(** [parse_sav_blocks] written out, once the two sizes and the four regions
    are known. *)
Lemma parse_sav_blocks_eq (data : bytes) (s1 s2 o4 s4 : Z) (rs : list (Z * Z)) :
  read_block_sizes data = Ok (s1, s2) ->
  scan_regions data (0x2C + s1 + 44 + s2) = rs ->
  length rs = 4%nat -> nth 3 rs (0, 0) = (o4, s4) ->
  parse_sav_blocks data
  = Ok {| block1_compressed := slice data 0x2C (0x2C + s1);
          block2_compressed := slice data (0x2C + s1 + 44) (0x2C + s1 + 44 + s2);
          block3_raw := slice data (0x2C + s1 + 44 + s2) (o4 + 8 + 5);
          block4_compressed := slice data (o4 + 8 + 5) (o4 + 8 + 5 + s4);
          block5_raw := slice_from data (o4 + 8 + 5 + s4);
          region4_offset_in_block3 := o4 - (0x2C + s1 + 44 + s2) |}.
Proof.
  intros Hsz Hscan Hlen Hnth. unfold parse_sav_blocks.
  rewrite Hsz. cbn [bind]. rewrite Hscan, Hlen, Hnth.
  change (4 <=? 4)%nat with true. cbv iota.
  replace (0x2C + s1 + 44 + s2 + (o4 + 8 + 5 - (0x2C + s1 + 44 + s2)))
    with (o4 + 8 + 5) by lia.
  reflexivity.
Qed.

Lemma slice_piece_at (a b c : bytes) (x y : Z) :
  x = len a -> y = len a + len b -> slice (a ++ b ++ c) x y = b.
Proof. intros -> ->. apply slice_piece. Qed.

Lemma slice_from_piece_at (a b : bytes) (x : Z) :
  x = len a -> slice_from (a ++ b) x = b.
Proof. intros ->. apply slice_from_piece. Qed.

Lemma slice_inside_piece (a b c : bytes) (x lo hi : Z) :
  x = len a -> 0 <= lo -> hi <= len b ->
  slice (a ++ b ++ c) (x + lo) (x + hi) = slice b lo hi.
Proof.
  intros -> Hlo Hhi. rewrite slice_app_r by lia. apply slice_app_l; lia.
Qed.

(** *** Reading back what was assembled *)

(** The two size fields of a file made of two 44-byte headers that hold, at
    0x20, the length of the block that follows them. *)
Lemma read_block_sizes_assembled (h1 b1 h2 b2 rest : bytes) :
  len h1 = 44 -> le_uint (slice h1 0x20 0x24) = len b1 ->
  len h2 = 44 -> le_uint (slice h2 0x20 0x24) = len b2 ->
  read_block_sizes (h1 ++ b1 ++ h2 ++ b2 ++ rest) = Ok (len b1, len b2).
Proof.
  intros L1 V1 L2 V2. unfold read_block_sizes.
  rewrite (slice_app_l h1) by lia.
  rewrite unpack_I_inside by lia. rewrite V1. cbn [bind].
  replace (h1 ++ b1 ++ h2 ++ b2 ++ rest) with ((h1 ++ b1) ++ h2 ++ b2 ++ rest)
    by (rewrite <- app_assoc; reflexivity).
  rewrite (slice_inside_piece (h1 ++ b1) h2 (b2 ++ rest) (0x2C + len b1) 0x20 0x24)
    by (rewrite ?len_app; lia).
  rewrite unpack_I_inside by lia. rewrite V2. reflexivity.
Qed.

(** What a successful [patch_region4] leaves of the header of region 4: the
    bytes in front of the size field and the four bytes after it are those
    of the input, and the size field declares the length of the new
    Block 4. *)
Lemma patch_region4_header (adler32 : bytes -> Z) (block3 block3' block4 : bytes)
    (r : Z) :
  0 <= r ->
  patch_region4 adler32 block3 r block4 = Ok block3' ->
  len block4 < 16777216 ->
  r + 13 <= len block3
  /\ len block3' = len block3
  /\ (forall a c, 0 <= a <= c -> c <= r + 1 -> slice block3' a c = slice block3 a c)
  /\ slice block3' (r + 4) (r + 8) = slice block3 (r + 4) (r + 8)
  /\ byte_at block3' r = byte_at block3 r
  /\ region_size_at block3' r = len block4.
Proof.
  intros Hr H Hsmall.
  destruct (patch_region4_steps adler32 _ _ _ _ Hr H) as (b1 & Hin & Hb1 & H1 & H2).
  destruct (patch_region4_spec adler32 _ _ _ _ Hr H) as (_ & Hlen & Hsize & _).
  assert (F1 : forall a c, 0 <= a <= c -> c <= r + 1 \/ r + 4 <= a ->
                 slice b1 a c = slice block3 a c).
  { intros a c Hac Hout.
    destruct H1 as [[-> _]|(_ & packed & _ & -> & L)]; [reflexivity|].
    apply set_slice_frame; try lia. unfold len. lia. }
  assert (F2 : forall a c, 0 <= a <= c -> c <= r + 9 \/ r + 13 <= a ->
                 slice block3' a c = slice b1 a c).
  { intros a c Hac Hout.
    destruct H2 as [[-> _]|(_ & packed & _ & -> & L)]; [reflexivity|].
    apply set_slice_frame; try lia. unfold len. lia. }
  assert (F : forall a c, 0 <= a <= c -> c <= r + 1 ->
                slice block3' a c = slice block3 a c).
  { intros a c Hac Hc. rewrite F2, F1 by lia. reflexivity. }
  split; [exact Hin|]. split; [exact Hlen|]. split; [exact F|].
  split; [rewrite F2, F1 by lia; reflexivity|].
  split.
  - pose proof (byte_at_slice block3' 0 (r + 1) r ltac:(lia) ltac:(lia)) as A.
    pose proof (byte_at_slice block3 0 (r + 1) r ltac:(lia) ltac:(lia)) as B.
    rewrite Z.add_0_l in A, B. rewrite <- A, <- B, F by lia. reflexivity.
  - unfold region_size_at. rewrite le_uint_app_zero.
    destruct Hsize as [E|E]; [exact E|].
    rewrite E. apply Z.mod_small. pose proof (len_nonneg block4). lia.
Qed.

(** A file assembled from two well-formed headers, two blocks, the Block 3
    that [patch_region4] made of a parsed Block 3 for a Block 4 of plausible
    length, that Block 4 and a tail is parsed into exactly these pieces, with
    region 4 where it was. *)
Lemma parse_sav_blocks_assembled (adler32 : bytes -> Z) (sav_data : bytes)
    (blk : sav_blocks) (h1 b1 h2 b2 b3' b4' b5 : bytes) :
  is_bytes sav_data = true ->
  parse_sav_blocks sav_data = Ok blk ->
  patch_region4 adler32 (block3_raw blk) (region4_offset_in_block3 blk) b4'
  = Ok b3' ->
  len h1 = 44 -> le_uint (slice h1 0x20 0x24) = len b1 ->
  len h2 = 44 -> le_uint (slice h2 0x20 0x24) = len b2 ->
  0 < len b4' < 50000 ->
  parse_sav_blocks (h1 ++ b1 ++ h2 ++ b2 ++ b3' ++ b4' ++ b5)
  = Ok {| block1_compressed := b1;
          block2_compressed := b2;
          block3_raw := b3';
          block4_compressed := b4';
          block5_raw := b5;
          region4_offset_in_block3 := region4_offset_in_block3 blk |}.
Proof.
  intros Hb Hp Hpatch L1 V1 L2 V2 H4.
  apply parse_sav_blocks_inv in Hp.
  destruct Hp as (s1 & s2 & o4 & s4 & Hsz & Hlen & Hnth & Hr & ->).
  destruct (read_block_sizes_ok _ _ _ Hb Hsz) as (Hs1 & Hs2 & _).
  cbn [block3_raw region4_offset_in_block3] in *.
  remember (0x2C + s1 + 44 + s2) as b3off eqn:Eb3off.
  unfold region_in_range in Hr. cbn [fst snd] in Hr. destruct Hr as [Ho4 Hs4].
  remember (o4 - b3off) as r eqn:Er.
  assert (Hr0 : 0 <= r) by lia.
  remember (slice sav_data b3off (o4 + 8 + 5)) as block3 eqn:Eblock3.
  destruct (patch_region4_header adler32 _ _ _ _ Hr0 Hpatch ltac:(lia))
    as (Hin & Hlen3 & Hframe & Hsig4 & Hsig0 & Hsize).
  assert (Lb3 : len block3 = r + 13).
  { pose proof (length_slice_le sav_data b3off (o4 + 8 + 5)) as L.
    rewrite <- Eblock3 in L. unfold len in *. lia. }
  (* the header of region 4 in the input *)
  assert (Hfirst : first_headers sav_data b3off (scan_regions sav_data b3off)).
  { unfold scan_regions.
    destruct (scan_loop 4 sav_data b3off) as [rs0 final0] eqn:Hscan. cbn [fst].
    apply scan_loop_first_headers in Hscan; [apply Hscan | lia]. }
  destruct (first_headers_nth3 _ _ _ _ _ Hfirst Hlen Hnth) as (Hm4 & Hsz4 & Hg4).
  assert (Wsrc : forall j, 0 <= j -> j + 8 <= r + 13 ->
            slice block3 j (j + 8) = slice sav_data (b3off + j) (b3off + j + 8)).
  { intros j Hj Hj8. rewrite Eblock3. rewrite slice_slice by lia.
    f_equal. lia. }
  assert (Hm3 : region_match block3 r = true).
  { destruct (region_match_window sav_data block3 o4 r) as [E _];
      [lia | lia | | rewrite E; exact Hm4].
    rewrite Wsrc by lia. f_equal; lia. }
  unfold region_match, region_signature in Hm3.
  apply andb_true_iff in Hm3. destruct Hm3 as [Hm3 _].
  apply andb_true_iff in Hm3. destruct Hm3 as [Hbyte Hzeros].
  apply Z.eqb_eq in Hbyte. apply bytes_eqb_eq in Hzeros.
  rewrite <- Hsig0 in Hbyte. rewrite <- Hsig4 in Hzeros.
  (* the header of region 4 in the patched Block 3 *)
  assert (Hm3' : region_match b3' r = true).
  { unfold region_match, region_signature.
    rewrite Hbyte, Hzeros, Hsize.
    destruct (Z.ltb_spec 0 (len b4')); [|lia].
    destruct (Z.ltb_spec (len b4') 50000); [|lia].
    reflexivity. }
  (* windows of the assembled file that lie in Block 3 *)
  remember (0x2C + len b1 + 44 + len b2) as b3off' eqn:Eb3off'.
  assert (Wdst : forall j, 0 <= j -> j + 8 <= r + 13 ->
            slice (h1 ++ b1 ++ h2 ++ b2 ++ b3' ++ b4' ++ b5)
              (b3off' + j) (b3off' + j + 8)
            = slice b3' j (j + 8)).
  { intros j Hj Hj8.
    replace (h1 ++ b1 ++ h2 ++ b2 ++ b3' ++ b4' ++ b5)
      with ((h1 ++ b1 ++ h2 ++ b2) ++ b3' ++ b4' ++ b5)
      by (rewrite <- !app_assoc; reflexivity).
    replace (b3off' + j + 8) with (b3off' + (j + 8)) by lia.
    apply slice_inside_piece; rewrite ?len_app; lia. }
  assert (Hfirst' :
    first_headers (h1 ++ b1 ++ h2 ++ b2 ++ b3' ++ b4' ++ b5) (b3off + (b3off' - b3off))
      (map (fun x => (fst x + (b3off' - b3off), snd x))
           (firstn 3 (scan_regions sav_data b3off))
       ++ [(o4 + (b3off' - b3off), len b4')])).
  { apply (first_headers_transfer sav_data _ (b3off' - b3off) o4 s4 (len b4')).
    - lia.
    - pose proof (len_nonneg b1). pose proof (len_nonneg b2). lia.
    - destruct (scan_regions sav_data b3off) as [|ra [|rb [|rc [|rd [|re rs]]]]];
        cbn [length] in Hlen; try discriminate Hlen.
      cbn [nth] in Hnth. subst rd. exact Hfirst.
    - intros i Hi Hi7.
      replace (i + (b3off' - b3off)) with (b3off' + (i - b3off)) by lia.
      rewrite Wdst by lia. rewrite Hframe by lia. rewrite Wsrc by lia.
      f_equal; lia.
    - intros i Hi Hi7.
      destruct (region_match_window b3' (h1 ++ b1 ++ h2 ++ b2 ++ b3' ++ b4' ++ b5)
                  (i - b3off) (i + (b3off' - b3off))) as [E _].
      + lia.
      + pose proof (len_nonneg b1). pose proof (len_nonneg b2). lia.
      + replace (i + (b3off' - b3off)) with (b3off' + (i - b3off)) by lia.
        apply Wdst; lia.
      + rewrite E. apply (no_match_before_header b3' r); try assumption; lia.
    - destruct (region_match_window b3' (h1 ++ b1 ++ h2 ++ b2 ++ b3' ++ b4' ++ b5)
                  r (o4 + (b3off' - b3off))) as [E _].
      + lia.
      + pose proof (len_nonneg b1). pose proof (len_nonneg b2). lia.
      + replace (o4 + (b3off' - b3off)) with (b3off' + r) by lia.
        apply Wdst; lia.
      + rewrite E. exact Hm3'.
    - destruct (region_match_window b3' (h1 ++ b1 ++ h2 ++ b2 ++ b3' ++ b4' ++ b5)
                  r (o4 + (b3off' - b3off))) as [_ E].
      + lia.
      + pose proof (len_nonneg b1). pose proof (len_nonneg b2). lia.
      + replace (o4 + (b3off' - b3off)) with (b3off' + r) by lia.
        apply Wdst; lia.
      + rewrite E. symmetry. exact Hsize.
    - rewrite !len_app. pose proof (len_nonneg b5). lia. }
  replace (b3off + (b3off' - b3off)) with b3off' in Hfirst' by lia.
  apply scan_loop_of_first_headers in Hfirst';
    [|pose proof (len_nonneg b1); pose proof (len_nonneg b2); lia].
  assert (Hscan' :
    scan_regions (h1 ++ b1 ++ h2 ++ b2 ++ b3' ++ b4' ++ b5) b3off'
    = map (fun x => (fst x + (b3off' - b3off), snd x))
          (firstn 3 (scan_regions sav_data b3off))
      ++ [(o4 + (b3off' - b3off), len b4')]).
  { destruct (scan_regions sav_data b3off) as [|ra [|rb [|rc [|rd [|re rs]]]]];
      cbn [length] in Hlen; try discriminate Hlen.
    unfold scan_regions.
    cbn [firstn map app length] in *. rewrite Hfirst'. reflexivity. }
  subst b3off'.
  rewrite (parse_sav_blocks_eq _ (len b1) (len b2)
             (o4 + (0x2C + len b1 + 44 + len b2 - b3off)) (len b4')
             _ (read_block_sizes_assembled h1 b1 h2 b2 _ L1 V1 L2 V2) Hscan').
  - f_equal. f_equal.
    + apply slice_piece_at; lia.
    + replace (h1 ++ b1 ++ h2 ++ b2 ++ b3' ++ b4' ++ b5)
        with ((h1 ++ b1 ++ h2) ++ b2 ++ b3' ++ b4' ++ b5)
        by (rewrite <- !app_assoc; reflexivity).
      apply slice_piece_at; rewrite ?len_app; lia.
    + replace (h1 ++ b1 ++ h2 ++ b2 ++ b3' ++ b4' ++ b5)
        with ((h1 ++ b1 ++ h2 ++ b2) ++ b3' ++ b4' ++ b5)
        by (rewrite <- !app_assoc; reflexivity).
      apply slice_piece_at; rewrite ?len_app; lia.
    + replace (h1 ++ b1 ++ h2 ++ b2 ++ b3' ++ b4' ++ b5)
        with ((h1 ++ b1 ++ h2 ++ b2 ++ b3') ++ b4' ++ b5)
        by (rewrite <- !app_assoc; reflexivity).
      apply slice_piece_at; rewrite ?len_app; lia.
    + replace (h1 ++ b1 ++ h2 ++ b2 ++ b3' ++ b4' ++ b5)
        with ((h1 ++ b1 ++ h2 ++ b2 ++ b3' ++ b4') ++ b5)
        by (rewrite <- !app_assoc; reflexivity).
      apply slice_from_piece_at; rewrite ?len_app; lia.
    + lia.
  - destruct (scan_regions sav_data b3off) as [|ra [|rb [|rc [|rd [|re rs]]]]];
      cbn [length] in Hlen; try discriminate Hlen.
    reflexivity.
  - destruct (scan_regions sav_data b3off) as [|ra [|rb [|rc [|rd [|re rs]]]]];
      cbn [length] in Hlen; try discriminate Hlen.
    reflexivity.
Qed.

(** *** The patch applied to its own output *)

Section Idempotence.

Variable decompress : bytes -> result bytes.
Variable compress_lzss_lazy : bytes -> bytes.
Variable adler32 : bytes -> Z.
Variable build_block1_header : bytes -> Z -> bytes.
Variable build_block2_header : bytes -> Z -> Z -> bytes.

Local Notation "'rebuild'" :=
  (rebuild_sav decompress compress_lzss_lazy adler32
               build_block1_header build_block2_header).
Local Notation "'unlock'" :=
  (unlock_capes decompress compress_lzss_lazy adler32
                build_block1_header build_block2_header).

(** C7 (as amended).  (a) When Blocks 1, 2 and 4 of the input decompress and
    both flag bytes of the decompressed Block 4 already hold 0x01,
    [unlock_capes] takes the early return: it recompresses nothing, returns
    [True] and writes no file, so every file keeps its bytes.
    (b) For a patch that wrote a file, with a decompressor that inverts the
    compressor, the two written headers 44 bytes long and holding at 0x20 the
    length of the block that follows, and a recompressed Block 4 that is not
    empty and shorter than 50000 bytes: [parse_sav_blocks] reads the written
    file back into exactly the five blocks that were written, with region 4
    at the offset it had; the second patch finds both flags set and takes
    the early return; so patching the written file again returns [True] and
    writes nothing, whatever output path it is given: the first output stays
    as it is and no second file is made. *)
Theorem patching_twice_keeps_the_first_output :
  (forall (fs : filesystem) (sav_path output_path : string) (sav_data : bytes)
          (blk : sav_blocks) (d1 d2 d4 : bytes),
      fs sav_path = Some sav_data ->
      parse_sav_blocks sav_data = Ok blk ->
      decompress (block1_compressed blk) = Ok d1 ->
      decompress (block2_compressed blk) = Ok d2 ->
      decompress (block4_compressed blk) = Ok d4 ->
      index d4 CAPE1_OFFSET = Ok 0x01 ->
      index d4 CAPE2_OFFSET = Ok 0x01 ->
      rebuild sav_data = Ok None
      /\ unlock fs sav_path output_path = Ok (true, fs))
  /\ (forall (sav_data : bytes) (blk : sav_blocks) (o : sav_output),
      is_bytes sav_data = true ->
      parse_sav_blocks sav_data = Ok blk ->
      rebuild sav_data = Ok (Some o) ->
      (forall x, decompress (compress_lzss_lazy x) = Ok x) ->
      len (out_block1_header o) = 44 ->
      le_uint (slice (out_block1_header o) 0x20 0x24) = len (out_block1 o) ->
      len (out_block2_header o) = 44 ->
      le_uint (slice (out_block2_header o) 0x20 0x24) = len (out_block2 o) ->
      0 < len (out_block4 o) < 50000 ->
      parse_sav_blocks (assemble o)
      = Ok {| block1_compressed := out_block1 o;
              block2_compressed := out_block2 o;
              block3_raw := out_block3 o;
              block4_compressed := out_block4 o;
              block5_raw := out_block5 o;
              region4_offset_in_block3 := region4_offset_in_block3 blk |}
      /\ rebuild (assemble o) = Ok None
      /\ (forall (fs : filesystem) (sav_path output_path : string),
            fs sav_path = Some sav_data ->
            unlock fs sav_path output_path
            = Ok (true, write_file fs output_path (assemble o)))
      /\ (forall (fs1 : filesystem) (first_path again_path : string),
            fs1 first_path = Some (assemble o) ->
            unlock fs1 first_path again_path = Ok (true, fs1))).
Proof.
  split.
  - intros fs sav_path output_path sav_data blk d1 d2 d4 Hfs Hp H1 H2 H4 Hc1 Hc2.
    assert (Hnone : rebuild sav_data = Ok None).
    { apply (rebuild_sav_already_unlocked _ _ _ _ _ sav_data blk d1 d2 d4);
        assumption. }
    split; [exact Hnone|].
    unfold unlock_capes, read_file. rewrite Hfs. cbn [bind]. rewrite Hnone.
    reflexivity.
  - intros sav_data blk o Hb Hp Hr Hcodec L1 V1 L2 V2 H4.
    pose proof Hr as Hinv. apply rebuild_sav_inv in Hinv.
    destruct Hinv as (blk0 & d1 & d2 & d4 & d4a & d4b & Hp0 & _ & _ & _ & Hs1 & Hs2
                      & Hpatch & O1 & O2 & O4 & _).
    rewrite Hp in Hp0. apply Ok_inj in Hp0. subst blk0.
    rewrite <- O4 in Hpatch.
    assert (Hparse' :
      parse_sav_blocks (assemble o)
      = Ok {| block1_compressed := out_block1 o;
              block2_compressed := out_block2 o;
              block3_raw := out_block3 o;
              block4_compressed := out_block4 o;
              block5_raw := out_block5 o;
              region4_offset_in_block3 := region4_offset_in_block3 blk |}).
    { unfold assemble.
      apply (parse_sav_blocks_assembled adler32 sav_data blk); assumption. }
    assert (Hnone : rebuild (assemble o) = Ok None).
    { apply set_index_ok in Hs1. destruct Hs1 as (_ & K1 & W1 & _).
      apply set_index_ok in Hs2. destruct Hs2 as (R2 & K2 & W2 & F2).
      apply (rebuild_sav_already_unlocked _ _ _ _ _ (assemble o) _ d1 d2 d4b Hparse').
      - cbn [block1_compressed]. rewrite O1. apply Hcodec.
      - cbn [block2_compressed]. rewrite O2. apply Hcodec.
      - cbn [block4_compressed]. rewrite O4. apply Hcodec.
      - rewrite index_in_range by (unfold CAPE1_OFFSET, CAPE2_OFFSET in *; lia).
        rewrite F2 by (unfold CAPE1_OFFSET, CAPE2_OFFSET; lia).
        rewrite W1. reflexivity.
      - rewrite index_in_range by lia. rewrite W2. reflexivity. }
    split; [exact Hparse'|]. split; [exact Hnone|]. split.
    + intros fs sav_path output_path Hfs.
      unfold unlock_capes, read_file. rewrite Hfs. cbn [bind]. rewrite Hr.
      reflexivity.
    + intros fs1 first_path again_path Hfs.
      unfold unlock_capes, read_file. rewrite Hfs. cbn [bind]. rewrite Hnone.
      reflexivity.
Qed.

End Idempotence.

Lemma patching_twice_keeps_the_first_output_witness :
  let unlock :=
    unlock_capes stored_decompress stored_compress sample_adler32
      sample_build_block1_header sample_build_block2_header in
  let first_output := assemble stored_patch_output in
  let fs1 := write_file sample_fs "save.unlocked.SAV"%string first_output in
  unlock sample_fs "save.SAV"%string "save.unlocked.SAV"%string = Ok (true, fs1)
  /\ parse_sav_blocks first_output = Ok sample_unlocked_blocks
  /\ unlock fs1 "save.unlocked.SAV"%string "save.twice.SAV"%string = Ok (true, fs1)
  /\ unlock fs1 "save.unlocked.SAV"%string "save.unlocked.SAV"%string
     = Ok (true, fs1).
Proof.
  cbv zeta.
  destruct (patching_twice_keeps_the_first_output
              stored_decompress stored_compress sample_adler32
              sample_build_block1_header sample_build_block2_header)
    as [HA HB].
  assert (Hb : is_bytes sample_locked_sav = true) by (vm_compute; reflexivity).
  assert (L1 : len (out_block1_header stored_patch_output) = 44)
    by (vm_compute; reflexivity).
  assert (V1 : le_uint (slice (out_block1_header stored_patch_output) 0x20 0x24)
               = len (out_block1 stored_patch_output))
    by (vm_compute; reflexivity).
  assert (L2 : len (out_block2_header stored_patch_output) = 44)
    by (vm_compute; reflexivity).
  assert (V2 : le_uint (slice (out_block2_header stored_patch_output) 0x20 0x24)
               = len (out_block2 stored_patch_output))
    by (vm_compute; reflexivity).
  assert (H4 : 0 < len (out_block4 stored_patch_output) < 50000)
    by (vm_compute; split; reflexivity).
  destruct (HB sample_locked_sav sample_locked_blocks stored_patch_output
              Hb parse_sample_locked_sav rebuild_sample_stored
              (fun x => eq_refl) L1 V1 L2 V2 H4)
    as (Hparse & _ & Hfirst & Hagain).
  split; [apply Hfirst; reflexivity|].
  split; [exact Hparse|].
  split; [apply Hagain; reflexivity|].
  apply (HA (write_file sample_fs "save.unlocked.SAV"%string
               (assemble stored_patch_output))
            "save.unlocked.SAV"%string "save.unlocked.SAV"%string
            (assemble stored_patch_output) sample_unlocked_blocks
            [0xA1; 0xA2] [0xB1; 0xB2; 0xB3] unlocked_block4).
  - reflexivity.
  - exact Hparse.
  - reflexivity.
  - reflexivity.
  - reflexivity.
  - vm_compute. reflexivity.
  - vm_compute. reflexivity.
Defined.

(** C7 (as stated) fails on both counts.  A second patch, applied to the
    file the first one wrote and given a fresh output path, returns [True]
    and yields no file at all: nothing is at the fresh path afterwards.  And
    a file whose two flags are already set does not make the patch succeed
    when its Block 1 does not decompress: Blocks 1 and 2 are decompressed
    before the flags are looked at, and the exception of the decompressor is
    passed on. *)
Lemma second_patch_yields_no_file :
  let first_output := assemble stored_patch_output in
  let fs1 := write_file sample_fs "save.unlocked.SAV"%string first_output in
  (unlock_capes stored_decompress stored_compress sample_adler32
     sample_build_block1_header sample_build_block2_header
     sample_fs "save.SAV"%string "save.unlocked.SAV"%string = Ok (true, fs1)
   /\ fs1 "save.unlocked.SAV"%string = Some first_output
   /\ unlock_capes stored_decompress stored_compress sample_adler32
        sample_build_block1_header sample_build_block2_header
        fs1 "save.unlocked.SAV"%string "save.twice.SAV"%string = Ok (true, fs1)
   /\ fs1 "save.twice.SAV"%string = None)
  /\ (parse_sav_blocks first_output = Ok sample_unlocked_blocks
      /\ strict_decompress (block4_compressed sample_unlocked_blocks)
         = Ok unlocked_block4
      /\ index unlocked_block4 CAPE1_OFFSET = Ok 0x01
      /\ index unlocked_block4 CAPE2_OFFSET = Ok 0x01
      /\ unlock_capes strict_decompress stored_compress sample_adler32
           sample_build_block1_header sample_build_block2_header
           fs1 "save.unlocked.SAV"%string "save.twice.SAV"%string
         = Raise CorruptStream).
Proof.
  cbv zeta.
  assert (Hc1 : index unlocked_block4 CAPE1_OFFSET = Ok 0x01)
    by (vm_compute; reflexivity).
  assert (Hc2 : index unlocked_block4 CAPE2_OFFSET = Ok 0x01)
    by (vm_compute; reflexivity).
  split; [split; [|split; [|split]]|split; [|split; [|split; [|split]]]].
  - unfold unlock_capes, read_file.
    change (sample_fs "save.SAV"%string) with (Some sample_locked_sav).
    cbn [bind]. rewrite rebuild_sample_stored. reflexivity.
  - reflexivity.
  - unfold unlock_capes, read_file.
    change (write_file sample_fs "save.unlocked.SAV"%string
              (assemble stored_patch_output) "save.unlocked.SAV"%string)
      with (Some (assemble stored_patch_output)).
    cbn [bind].
    rewrite (rebuild_sav_already_unlocked stored_decompress stored_compress
               sample_adler32 sample_build_block1_header
               sample_build_block2_header (assemble stored_patch_output)
               sample_unlocked_blocks [0xA1; 0xA2] [0xB1; 0xB2; 0xB3]
               unlocked_block4 parse_sample_patched eq_refl eq_refl eq_refl
               Hc1 Hc2).
    reflexivity.
  - reflexivity.
  - exact parse_sample_patched.
  - apply returns_bytes. vm_compute. reflexivity.
  - exact Hc1.
  - exact Hc2.
  - unfold unlock_capes, read_file.
    change (write_file sample_fs "save.unlocked.SAV"%string
              (assemble stored_patch_output) "save.unlocked.SAV"%string)
      with (Some (assemble stored_patch_output)).
    cbn [bind]. unfold rebuild_sav. rewrite parse_sample_patched.
    reflexivity.
Qed.
